(** * Arbitrage detection and validation pipeline

    A shallow embedding of [src/service/arbitrage.service.ts] (class
    [ArbitrageService]) together with the types it consumes, followed by the
    properties of the pair resolver, quote enricher, spread detector,
    executability validator and pipeline controller.

    Conventions of the embedding.
    - A JavaScript [number] is an IEEE 754 binary64 value: Rocq's primitive
      [float], with the primitive comparison and arithmetic operations.
    - A JavaScript [Map] is an insertion-ordered list of entries with
      pairwise-distinct keys ([JsMap]).
    - A call to an external collaborator runs against an abstract [World]
      which it may change; a rejected promise or a thrown exception is the
      outcome [Rejected].  Calls issued together (the fan-out before a
      [Promise.all]) are taken in the order in which they are issued.
    - The generator [streamOpportunities] is described by the ordered list of
      its observable events (progress line, yield, delay, final line). *)

From Stdlib Require Import ZArith List String Ascii Bool Floats Lia PeanoNat.
Import ListNotations.

Set Implicit Arguments.

(* ================================================================== *)
(** ** JavaScript numbers *)

Module JsNumber.

Definition number := float.

(** [x > y], [x >= y] on numbers ([false] whenever an operand is NaN). *)
Definition gt (x y : number) : bool := PrimFloat.ltb y x.
Definition ge (x y : number) : bool := PrimFloat.leb y x.

(** The value of the decimal literal [n / 10^4] (sign [s]) as the nearest
    binary64, ties to even: what [parseFloat] returns on the digits that
    [toFixed(4)] printed. *)
Definition of_decimal4 (s : bool) (n : Z) : number :=
  match n with
  | Zpos p =>
      SF2Prim (SFdiv prec emax (S754_finite s p 0) (S754_finite false 10000 0))
  | _ => if s then neg_zero else zero
  end.

(** The integer [n] for which [n / 10^4 - m * 2^e] is as close to zero as
    possible, the larger one when two are equally close. *)
Definition nearest_scaled4 (m : positive) (e : Z) : Z :=
  match e with
  | Zneg k =>
      let d := Z.pow_pos 2 k in
      ((2 * (Zpos m * 10000) + d) / (2 * d))%Z
  | _ => (Zpos m * 10000 * 2 ^ e)%Z
  end.

(** [parseFloat(x.toFixed(4))].  [toFixed] prints a non-finite number, and
    a number of magnitude at least [10^21], through [ToString], which
    [parseFloat] reads back unchanged; [-0] prints as ["0.0000"]. *)
Definition toFixed4 (x : number) : number :=
  match Prim2SF x with
  | S754_finite s m e =>
      if (10 ^ 21 <=? Zpos m * 2 ^ e)%Z then x
      else of_decimal4 s (nearest_scaled4 m e)
  | S754_zero _ => zero
  | S754_infinity _ | S754_nan => x
  end.

End JsNumber.

(* ================================================================== *)
(** ** JavaScript strings and arrays *)

Module JsString.

(** [s.split(sep)] for a one-character separator. *)
Fixpoint split (sep : ascii) (s : string) : list string :=
  match s with
  | EmptyString => [EmptyString]
  | String c rest =>
      if Ascii.eqb c sep then EmptyString :: split sep rest
      else match split sep rest with
           | hd :: tl => String c hd :: tl
           | [] => [String c EmptyString]
           end
  end.

(** [arr.includes(x)] on an array of strings. *)
Definition includes (arr : list string) (x : string) : bool :=
  existsb (String.eqb x) arr.

End JsString.

(* ================================================================== *)
(** ** JavaScript [Map] with string keys *)

Module JsMap.

(** Entries in insertion order. *)
Definition t (V : Type) := list (string * V).

Definition empty {V} : t V := [].

Definition entries {V} (m : t V) : list (string * V) := m.

Definition keys {V} (m : t V) : list string := map fst m.

Definition size {V} (m : t V) : nat := List.length m.

Fixpoint get {V} (m : t V) (k : string) : option V :=
  match m with
  | [] => None
  | (k', v) :: rest => if String.eqb k k' then Some v else get rest k
  end.

Definition has {V} (m : t V) (k : string) : bool :=
  match get m k with Some _ => true | None => false end.

(** [m.set(k, v)]: an existing key keeps its position and takes the new
    value, a new key goes last. *)
Fixpoint set {V} (m : t V) (k : string) (v : V) : t V :=
  match m with
  | [] => [(k, v)]
  | (k', v') :: rest =>
      if String.eqb k k' then (k', v) :: rest else (k', v') :: set rest k v
  end.

(** The invariant of a [Map]: no key occurs twice. *)
Definition wf {V} (m : t V) : Prop := NoDup (keys m).

End JsMap.

(* ================================================================== *)
(** ** Domain types ([src/types], [src/model]) *)

(** A value of type [any] (raw payloads).  The service only hands these
    through, and tests their truthiness in [x || null]. *)
Inductive Any : Type :=
  | JsUndefined
  | JsNull
  | JsObject (payload : string).

Definition truthy (x : Any) : bool :=
  match x with JsObject _ => true | _ => false end.

Definition ExchangeName := string.

Module StandardPair.
Record t : Type := Build
  { symbol : string; base : string; quote : string;
    exchange : string; raw : Any }.
End StandardPair.

Module StandardTicker.
Record t : Type := Build
  { exchange : string; price : float; bid : float; ask : float; raw : Any }.
End StandardTicker.

Module AssetStatus.
Record t : Type := Build
  { canDeposit : bool; canWithdraw : bool;
    depositNetworks : list string; withdrawNetworks : list string;
    assetInfo : Any }.
End AssetStatus.

Module ArbitrageConfig.
Record t : Type := Build
  { minProfitPercentage : float;
    quoteAssetsFilter : option (list string) }.
End ArbitrageConfig.

Module ExchangeData.
Record t : Type := Build
  { name : ExchangeName; pairs : list StandardPair.t }.
End ExchangeData.

(** The anonymous member type [{ name; pairData }] of [SharedPairInfo]. *)
Module Member.
Record t : Type := Build
  { name : ExchangeName; pairData : StandardPair.t }.
End Member.

Module SharedPairInfo.
Record t : Type := Build
  { symbol : string; exchanges : list Member.t }.
End SharedPairInfo.

(** [EnrichedPair extends SharedPairInfo]. *)
Module EnrichedPair.
Record t : Type := Build
  { symbol : string; exchanges : list Member.t;
    tickers : JsMap.t StandardTicker.t }.
End EnrichedPair.

Module Opportunity.

Record Side : Type := BuildSide
  { exchange : string; price : float }.

Record BuyExchange : Type := BuildBuyExchange
  { canWithdraw : bool; withdrawNetworks : option (list string) }.

Record SellExchange : Type := BuildSellExchange
  { canDeposit : bool; depositNetworks : option (list string) }.

(** The two-field objects [{ buyExchange; sellExchange }] under
    [assetDetails], renamed apart from the fields of [Validation]. *)
Record AssetPair : Type := BuildAssetPair
  { onBuyExchange : Any; onSellExchange : Any }.

Record AssetDetails : Type := BuildAssetDetails
  { baseAsset : AssetPair; quoteAsset : AssetPair }.

Record Validation : Type := BuildValidation
  { isExecutable : bool;
    commonNetworks : list string;
    buyExchange : BuyExchange;
    sellExchange : SellExchange;
    assetDetails : AssetDetails }.

Record t : Type := Build
  { pair : string;
    profitPercentage : float;
    buyAt : Side;
    sellAt : Side;
    validation : option Validation }.

End Opportunity.

(* ================================================================== *)
(** ** Promises and effects *)

(** How a promise settles, or how a synchronous evaluation ends. *)
Inductive Outcome (A : Type) : Type :=
  | Fulfilled (a : A)
  | Rejected.
Arguments Rejected {A}.

Module Effect.
Section WithWorld.

(** The state of everything outside the service: the sources behind the
    collaborators, the network, the clock. *)
Variable World : Type.

(** A computation that may throw. *)
Definition IO (A : Type) : Type := World -> Outcome A * World.

(** A computation that always returns. *)
Definition Total (A : Type) : Type := World -> A * World.

Definition ret {A} (a : A) : IO A := fun w => (Fulfilled a, w).

Definition throw {A} : IO A := fun w => (Rejected, w).

Definition bind {A B} (m : IO A) (k : A -> IO B) : IO B :=
  fun w =>
    match m w with
    | (Fulfilled a, w') => k a w'
    | (Rejected, w') => (Rejected, w')
    end.

(** [try { body } catch { return fallback; }] *)
Definition try_catch {A} (body : IO A) (fallback : A) : Total A :=
  fun w =>
    match body w with
    | (Fulfilled a, w') => (a, w')
    | (Rejected, w') => (fallback, w')
    end.

(** Calling an async function gives a promise and never throws: the call
    runs against the world and its outcome is kept in the promise. *)
Definition start {A} (call : IO A) : IO (Outcome A) :=
  fun w => let (o, w') := call w in (Fulfilled o, w').

(** [receiver.method(...)] where [receiver] came from [Map.get(...)!]:
    a [TypeError] when the receiver is [undefined]. *)
Definition invoke {R A} (receiver : option R) (method : R -> IO A)
  : IO (Outcome A) :=
  match receiver with
  | Some r => start (method r)
  | None => throw
  end.

(** [arr.map(f)] with an effectful callback, left to right; stops at the
    first call of [f] that throws. *)
Fixpoint mapM {A B} (f : A -> IO B) (arr : list A) : IO (list B) :=
  match arr with
  | [] => ret []
  | a :: rest =>
      bind (f a) (fun b => bind (mapM f rest) (fun bs => ret (b :: bs)))
  end.

(** The values of a list of settled promises, or nothing if one of them
    is rejected. *)
Fixpoint all_fulfilled {A} (promises : list (Outcome A)) : option (list A) :=
  match promises with
  | [] => Some []
  | Fulfilled a :: rest =>
      match all_fulfilled rest with
      | Some xs => Some (a :: xs)
      | None => None
      end
  | Rejected :: _ => None
  end.

(** A synchronous step that may throw, inside an effectful block. *)
Definition lift {A} (o : Outcome A) : IO A := fun w => (o, w).

(** [await Promise.all(promises)] *)
Definition Promise_all {A} (promises : list (Outcome A)) : IO (list A) :=
  match all_fulfilled promises with
  | Some xs => ret xs
  | None => throw
  end.

End WithWorld.

Arguments ret {World A} a _.
Arguments throw {World A} _.
Arguments bind {World A B} m k _.
Arguments try_catch {World A} body fallback _.
Arguments start {World A} call _.
Arguments invoke {World R A} receiver method _.
Arguments mapM {World A B} f arr _.
Arguments lift {World A} o _.
Arguments Promise_all {World A} promises _.

End Effect.

Declare Scope io_scope.
Delimit Scope io_scope with io.
Notation "x <- m ;; k" := (Effect.bind m (fun x => k))
  (at level 61, m at next level, right associativity) : io_scope.

(** The capability set a source offers ([IExchangeRepository]).  The asset
    handed to [getAssetStatus] is [None] when the caller passes
    [undefined]. *)
Module IExchangeRepository.
Record t (World : Type) : Type := Build
  { fetchAllPairs : Effect.IO World (list StandardPair.t);
    fetchTicker : StandardPair.t -> Effect.IO World (option StandardTicker.t);
    getAssetStatus : option string -> Effect.IO World (option AssetStatus.t) }.
End IExchangeRepository.

(** What a consumer of the generator observes, in order. *)
Inductive Event : Type :=
  | EvProgress (symbol : string) (position total : nat)
  | EvYield (opportunity : Opportunity.t)
  | EvDelay (ms : nat)
  | EvDone (total : nat).

(* ================================================================== *)
(** ** The service ([src/service/arbitrage.service.ts]) *)

Module ArbitrageService.
Section Service.

Variable World : Type.

(** The two fields of the class. *)
Variable exchangeRepositories : JsMap.t (IExchangeRepository.t World).
Variable config : ArbitrageConfig.t.

Import Effect.
Local Open Scope io_scope.

(** *** [fetchAllPairsFromRepositories] *)

Definition fetchAllPairsFromRepositories : IO World (list ExchangeData.t) :=
  promises <-
    mapM (fun entry : string * IExchangeRepository.t World =>
            start (pairs <- IExchangeRepository.fetchAllPairs (snd entry) ;;
                   ret (ExchangeData.Build (fst entry) pairs)))
         (JsMap.entries exchangeRepositories) ;;
  Promise_all promises.

(** *** [findSharedPairs] *)

Definition filterActive : bool :=
  match ArbitrageConfig.quoteAssetsFilter config with
  | Some filter => 0 <? List.length filter
  | None => false
  end.

(** [filterActive && !this.config.quoteAssetsFilter!.includes(pair.quote)] *)
Definition filteredOut (pair : StandardPair.t) : bool :=
  filterActive &&
  negb (match ArbitrageConfig.quoteAssetsFilter config with
        | Some filter => JsString.includes filter (StandardPair.quote pair)
        | None => false
        end).

(** The last two statements of the inner loop:
    [if (!pairMap.has(symbol)) pairMap.set(symbol, [])] and
    [pairMap.get(symbol)!.push(member)].  The array pushed onto is the
    one held by the map, so the push is a [set] of the longer array at
    the same key. *)
Definition register (pairMap : JsMap.t (list Member.t)) (member : Member.t)
  : JsMap.t (list Member.t) :=
  let symbol := StandardPair.symbol (Member.pairData member) in
  let pairMap :=
    if JsMap.has pairMap symbol then pairMap
    else JsMap.set pairMap symbol [] in
  match JsMap.get pairMap symbol with
  | Some listed => JsMap.set pairMap symbol (listed ++ [member])
  | None => pairMap
  end.

(** The body of the inner loop over [exchange.pairs]. *)
Definition addListing (name : ExchangeName)
    (pairMap : JsMap.t (list Member.t)) (pair : StandardPair.t)
  : JsMap.t (list Member.t) :=
  if filteredOut pair then pairMap
  else register pairMap (Member.Build name pair).

(** The two nested loops that fill [pairMap]. *)
Definition collectPairs (exchangeData : list ExchangeData.t)
  : JsMap.t (list Member.t) :=
  fold_left
    (fun pairMap exchange =>
       fold_left (addListing (ExchangeData.name exchange))
                 (ExchangeData.pairs exchange) pairMap)
    exchangeData JsMap.empty.

Definition findSharedPairs (exchangeData : list ExchangeData.t)
  : list SharedPairInfo.t :=
  fold_left
    (fun sharedPairs (entry : string * list Member.t) =>
       let (symbol, exchanges) := entry in
       if 2 <=? List.length exchanges
       then sharedPairs ++ [SharedPairInfo.Build symbol exchanges]
       else sharedPairs)
    (JsMap.entries (collectPairs exchangeData)) [].

(** *** [_enrichSinglePairWithTickers] *)

(** [results.forEach((ticker, index) => ...)], from [index] on. *)
Fixpoint forEachTicker (exchanges : list Member.t)
    (results : list (option StandardTicker.t)) (index : nat)
    (validTickers : JsMap.t StandardTicker.t)
  : Outcome (JsMap.t StandardTicker.t) :=
  match results with
  | [] => Fulfilled validTickers
  | None :: rest => forEachTicker exchanges rest (S index) validTickers
  | Some ticker :: rest =>
      match nth_error exchanges index with
      | Some ex =>
          forEachTicker exchanges rest (S index)
            (JsMap.set validTickers (Member.name ex) ticker)
      | None => Rejected
      end
  end.

(** The callback of [sharedPair.exchanges.map(...)]. *)
Definition requestTicker (ex : Member.t)
  : IO World (Outcome (option StandardTicker.t)) :=
  invoke (JsMap.get exchangeRepositories (Member.name ex))
         (fun repo =>
            IExchangeRepository.fetchTicker repo (Member.pairData ex)).

Definition _enrichSinglePairWithTickers (sharedPair : SharedPairInfo.t)
  : Total World (option EnrichedPair.t) :=
  try_catch
    (tickerPromises <-
       mapM requestTicker (SharedPairInfo.exchanges sharedPair) ;;
     results <- Promise_all tickerPromises ;;
     validTickers <-
       lift (forEachTicker (SharedPairInfo.exchanges sharedPair)
               results 0 JsMap.empty) ;;
     ret (if 2 <=? JsMap.size validTickers
          then Some (EnrichedPair.Build
                       (SharedPairInfo.symbol sharedPair)
                       (SharedPairInfo.exchanges sharedPair)
                       validTickers)
          else None))
    None.

(** *** [_findOpportunitiesInSinglePair] *)

Definition grossProfitPercentage (buyTicker sellTicker : StandardTicker.t)
  : float :=
  ((StandardTicker.bid sellTicker - StandardTicker.ask buyTicker)
     / StandardTicker.ask buyTicker * 100)%float.

(** The object pushed onto [opportunities]. *)
Definition priceOpportunity (symbol : string)
    (buy sell : string * StandardTicker.t) : Opportunity.t :=
  let (buyExchange, buyTicker) := buy in
  let (sellExchange, sellTicker) := sell in
  Opportunity.Build symbol
    (JsNumber.toFixed4 (grossProfitPercentage buyTicker sellTicker))
    (Opportunity.BuildSide buyExchange (StandardTicker.ask buyTicker))
    (Opportunity.BuildSide sellExchange (StandardTicker.bid sellTicker))
    None.

(** The two nested [if] conditions of the inner loop. *)
Definition profitable (buyTicker sellTicker : StandardTicker.t) : bool :=
  (JsNumber.gt (StandardTicker.ask buyTicker) 0%float &&
   JsNumber.gt (StandardTicker.bid sellTicker) (StandardTicker.ask buyTicker))
  && JsNumber.ge (grossProfitPercentage buyTicker sellTicker)
                 (ArbitrageConfig.minProfitPercentage config).

(** The body of the inner loop, after [if (i === j) continue]. *)
Definition examine (symbol : string)
    (buy sell : string * StandardTicker.t)
    (opportunities : list Opportunity.t) : list Opportunity.t :=
  if JsNumber.gt (StandardTicker.ask (snd buy)) 0%float &&
     JsNumber.gt (StandardTicker.bid (snd sell)) (StandardTicker.ask (snd buy))
  then
    if JsNumber.ge (grossProfitPercentage (snd buy) (snd sell))
                   (ArbitrageConfig.minProfitPercentage config)
    then opportunities ++ [priceOpportunity symbol buy sell]
    else opportunities
  else opportunities.

Definition _findOpportunitiesInSinglePair (enrichedPair : EnrichedPair.t)
  : list Opportunity.t :=
  let tickers := JsMap.entries (EnrichedPair.tickers enrichedPair) in
  if List.length tickers <? 2 then []
  else
    fold_left
      (fun opportunities i =>
         fold_left
           (fun opportunities j =>
              if i =? j then opportunities
              else
                match nth_error tickers i, nth_error tickers j with
                | Some buy, Some sell =>
                    examine (EnrichedPair.symbol enrichedPair)
                            buy sell opportunities
                | _, _ => opportunities
                end)
           (seq 0 (List.length tickers)) opportunities)
      (seq 0 (List.length tickers)) [].

(** *** [_validateSingleOpportunity] *)

(** [x || null] on [status?.assetInfo]. *)
Definition orNull (x : option Any) : Any :=
  match x with
  | Some a => if truthy a then a else JsNull
  | None => JsNull
  end.

(** [x ?? fallback] on the result of an optional chain. *)
Definition orElse {A} (x : option A) (fallback : A) : A :=
  match x with Some a => a | None => fallback end.

(** Everything after the [await]: the record built from the four
    statuses. *)
Definition validated (opportunity : Opportunity.t)
    (buyBaseStatus buyQuoteStatus sellBaseStatus sellQuoteStatus
       : option AssetStatus.t) : Opportunity.t :=
  let canWithdrawFromBuyExchange :=
    orElse (option_map AssetStatus.canWithdraw buyBaseStatus) false in
  let canDepositOnSellExchange :=
    orElse (option_map AssetStatus.canDeposit sellBaseStatus) false in
  let commonNetworks :=
    filter
      (fun net =>
         JsString.includes
           (orElse (option_map AssetStatus.depositNetworks sellBaseStatus) [])
           net)
      (orElse (option_map AssetStatus.withdrawNetworks buyBaseStatus) []) in
  let isPathExecutable :=
    canWithdrawFromBuyExchange && canDepositOnSellExchange &&
    (0 <? List.length commonNetworks) in
  Opportunity.Build
    (Opportunity.pair opportunity)
    (Opportunity.profitPercentage opportunity)
    (Opportunity.buyAt opportunity)
    (Opportunity.sellAt opportunity)
    (Some
       (Opportunity.BuildValidation
          isPathExecutable
          commonNetworks
          (Opportunity.BuildBuyExchange
             canWithdrawFromBuyExchange
             (option_map AssetStatus.withdrawNetworks buyBaseStatus))
          (Opportunity.BuildSellExchange
             canDepositOnSellExchange
             (option_map AssetStatus.depositNetworks sellBaseStatus))
          (Opportunity.BuildAssetDetails
             (Opportunity.BuildAssetPair
                (orNull (option_map AssetStatus.assetInfo buyBaseStatus))
                (orNull (option_map AssetStatus.assetInfo sellBaseStatus)))
             (Opportunity.BuildAssetPair
                (orNull (option_map AssetStatus.assetInfo buyQuoteStatus))
                (orNull (option_map AssetStatus.assetInfo sellQuoteStatus)))))).

Definition _validateSingleOpportunity (opportunity : Opportunity.t)
  : Total World (option Opportunity.t) :=
  try_catch
    (let parts := JsString.split "/"%char (Opportunity.pair opportunity) in
     let baseAsset := nth_error parts 0 in
     let quoteAsset := nth_error parts 1 in
     let buyRepository :=
       JsMap.get exchangeRepositories
         (Opportunity.exchange (Opportunity.buyAt opportunity)) in
     let sellRepository :=
       JsMap.get exchangeRepositories
         (Opportunity.exchange (Opportunity.sellAt opportunity)) in
     p1 <- invoke buyRepository
             (fun r => IExchangeRepository.getAssetStatus r baseAsset) ;;
     p2 <- invoke buyRepository
             (fun r => IExchangeRepository.getAssetStatus r quoteAsset) ;;
     p3 <- invoke sellRepository
             (fun r => IExchangeRepository.getAssetStatus r baseAsset) ;;
     p4 <- invoke sellRepository
             (fun r => IExchangeRepository.getAssetStatus r quoteAsset) ;;
     statuses <- Promise_all [p1; p2; p3; p4] ;;
     match statuses with
     | [buyBaseStatus; buyQuoteStatus; sellBaseStatus; sellQuoteStatus] =>
         ret (Some (validated opportunity buyBaseStatus buyQuoteStatus
                      sellBaseStatus sellQuoteStatus))
     | _ => throw
     end)
    None.

(** *** [streamOpportunities] *)

(** [for (const priceOpp of priceOpportunities) { ... yield ... }] *)
Fixpoint validateEach (priceOpportunities : list Opportunity.t)
  : Total World (list Event) :=
  fun w =>
    match priceOpportunities with
    | [] => ([], w)
    | priceOpp :: rest =>
        let (validatedOpp, w1) := _validateSingleOpportunity priceOpp w in
        let (events, w2) := validateEach rest w1 in
        (match validatedOpp with
         | Some o => EvYield o :: events
         | None => events
         end, w2)
    end.

(** One turn of the outer loop, for [sharedPairs[i]]. *)
Definition analyse (total i : nat) (sharedPair : SharedPairInfo.t)
  : Total World (list Event) :=
  fun w =>
    let progress :=
      EvProgress (SharedPairInfo.symbol sharedPair) (i + 1) total in
    match _enrichSinglePairWithTickers sharedPair w with
    | (None, w1) => ([progress], w1)
    | (Some enrichedPair, w1) =>
        match _findOpportunitiesInSinglePair enrichedPair with
        | [] => ([progress], w1)
        | priceOpportunities =>
            let (yields, w2) := validateEach priceOpportunities w1 in
            (progress :: yields ++ [EvDelay 30], w2)
        end
    end.

(** The loop from index [i] on; [pending] is [sharedPairs.slice(i)]. *)
Fixpoint streamFrom (total i : nat) (pending : list SharedPairInfo.t)
  : Total World (list Event) :=
  fun w =>
    match pending with
    | [] => ([], w)
    | sharedPair :: rest =>
        let (events, w1) := analyse total i sharedPair w in
        let (events', w2) := streamFrom total (S i) rest w1 in
        (events ++ events', w2)
    end.

Definition streamOpportunities (sharedPairs : list SharedPairInfo.t)
  : Total World (list Event) :=
  fun w =>
    let total := List.length sharedPairs in
    let (events, w') := streamFrom total 0 sharedPairs w in
    (events ++ [EvDone total], w').

Definition getConfig : ArbitrageConfig.t := config.

End Service.
End ArbitrageService.

(* ================================================================== *)
(** ** Notions used to state the properties *)

(** *** Pair resolver *)

Module Listing.

Definition symbolOf (m : Member.t) : string :=
  StandardPair.symbol (Member.pairData m).

(** The distinct elements of a list, in order of first occurrence. *)
Fixpoint firstSeen (l : list string) : list string :=
  match l with
  | [] => []
  | s :: rest => s :: filter (fun s' => negb (String.eqb s' s)) (firstSeen rest)
  end.

(** Every pair the sources list, tagged with its source, in the order
    the resolver visits them. *)
Definition allListings (exchangeData : list ExchangeData.t) : list Member.t :=
  flat_map
    (fun exchange =>
       map (Member.Build (ExchangeData.name exchange))
           (ExchangeData.pairs exchange))
    exchangeData.

(** The listings the quote filter lets through. *)
Definition listings (config : ArbitrageConfig.t)
    (exchangeData : list ExchangeData.t) : list Member.t :=
  filter
    (fun m => negb (ArbitrageService.filteredOut config (Member.pairData m)))
    (allListings exchangeData).

(** The listings of one symbol. *)
Definition membersOf (symbol : string) (L : list Member.t) : list Member.t :=
  filter (fun m => String.eqb (symbolOf m) symbol) L.

(** The distinct sources that list a symbol. *)
Definition sourcesOf (symbol : string) (L : list Member.t) : list string :=
  firstSeen (map Member.name (membersOf symbol L)).

End Listing.

(** *** Quote enricher *)

Module Quotes.

(** The usable tickers among the results, each with the name of the
    member it was requested for, in member order. *)
Fixpoint usable (exchanges : list Member.t)
    (results : list (option StandardTicker.t))
  : list (string * StandardTicker.t) :=
  match exchanges, results with
  | ex :: exchanges', Some ticker :: results' =>
      (Member.name ex, ticker) :: usable exchanges' results'
  | _ :: exchanges', None :: results' => usable exchanges' results'
  | _, _ => []
  end.

(** The map obtained by setting the given entries one after the other. *)
Definition collect (kept : list (string * StandardTicker.t))
  : JsMap.t StandardTicker.t :=
  fold_left (fun m kv => JsMap.set m (fst kv) (snd kv)) kept JsMap.empty.

(** A promise of the fan-out: the outcome of the ticker request of
    member [ex] to its source, in some world. *)
Definition requested {World : Type}
    (exchangeRepositories : JsMap.t (IExchangeRepository.t World))
    (ex : Member.t) (p : Outcome (option StandardTicker.t)) : Prop :=
  exists repo w,
    JsMap.get exchangeRepositories (Member.name ex) = Some repo /\
    fst (IExchangeRepository.fetchTicker repo (Member.pairData ex) w) = p.

End Quotes.

(** *** Spread detector *)

Module Spread.

(** The spread recomputed from the two prices an opportunity records. *)
Definition ofOpportunity (o : Opportunity.t) : float :=
  ((Opportunity.price (Opportunity.sellAt o)
    - Opportunity.price (Opportunity.buyAt o))
     / Opportunity.price (Opportunity.buyAt o) * 100)%float.

(** What the ordered pair of indices [(i, j)] contributes. *)
Definition candidateAt (config : ArbitrageConfig.t) (symbol : string)
    (tickers : list (string * StandardTicker.t)) (ij : nat * nat)
  : list Opportunity.t :=
  if fst ij =? snd ij then []
  else
    match nth_error tickers (fst ij), nth_error tickers (snd ij) with
    | Some buy, Some sell =>
        if ArbitrageService.profitable config (snd buy) (snd sell)
        then [ArbitrageService.priceOpportunity symbol buy sell]
        else []
    | _, _ => []
    end.

(** All ordered pairs of indices below [n], first index slowest. *)
Definition indexPairs (n : nat) : list (nat * nat) :=
  list_prod (seq 0 n) (seq 0 n).

End Spread.

(** *** Executability validator *)

Module Status.

Definition baseAssetOf (o : Opportunity.t) : option string :=
  nth_error (JsString.split "/"%char (Opportunity.pair o)) 0.

Definition quoteAssetOf (o : Opportunity.t) : option string :=
  nth_error (JsString.split "/"%char (Opportunity.pair o)) 1.

(** What a status says, an absent status saying nothing. *)
Definition mayWithdraw (status : option AssetStatus.t) : bool :=
  match status with Some s => AssetStatus.canWithdraw s | None => false end.

Definition mayDeposit (status : option AssetStatus.t) : bool :=
  match status with Some s => AssetStatus.canDeposit s | None => false end.

Definition withdrawNetworksOf (status : option AssetStatus.t) : list string :=
  match status with Some s => AssetStatus.withdrawNetworks s | None => [] end.

Definition depositNetworksOf (status : option AssetStatus.t) : list string :=
  match status with Some s => AssetStatus.depositNetworks s | None => [] end.

(** The four status lookups of one validation, in the order they are
    issued: base and quote asset on the buy source, then base and quote
    asset on the sell source. *)
Definition lookups {World : Type}
    (buyRepository sellRepository : IExchangeRepository.t World)
    (o : Opportunity.t) (w : World)
  : list (Outcome (option AssetStatus.t)) * World :=
  let (o1, w1) :=
    IExchangeRepository.getAssetStatus buyRepository (baseAssetOf o) w in
  let (o2, w2) :=
    IExchangeRepository.getAssetStatus buyRepository (quoteAssetOf o) w1 in
  let (o3, w3) :=
    IExchangeRepository.getAssetStatus sellRepository (baseAssetOf o) w2 in
  let (o4, w4) :=
    IExchangeRepository.getAssetStatus sellRepository (quoteAssetOf o) w3 in
  ([o1; o2; o3; o4], w4).

End Status.

(** *** Pipeline controller *)

Module Trace.

Definition yields (events : list Event) : list Opportunity.t :=
  flat_map (fun e => match e with EvYield o => [o] | _ => [] end) events.

(** What validation makes of a candidate: nothing, or the candidate with
    a validation record attached. *)
Definition verdict (candidate : Opportunity.t) (r : option Opportunity.t)
  : Prop :=
  r = None \/
  exists s1 s2 s3 s4,
    r = Some (ArbitrageService.validated candidate s1 s2 s3 s4).

(** The opportunities that remain, in order. *)
Definition kept (verdicts : list (option Opportunity.t))
  : list Opportunity.t :=
  flat_map (fun r => match r with Some o => [o] | None => [] end) verdicts.

(** The shape of one turn of the loop for a group called [symbol], given
    the candidates found for it. *)
Definition turnShape (symbol : string) (total : nat)
    (candidates : list Opportunity.t) (events : list Event) : Prop :=
  match candidates with
  | [] => exists position, events = [EvProgress symbol position total]
  | _ :: _ =>
      exists position validatedOpps,
        events = EvProgress symbol position total
                   :: map EvYield validatedOpps ++ [EvDelay 30]
  end.

(** Between any two progress lines of the trace there is a delay. *)
Definition delayBetweenGroups (events : list Event) : Prop :=
  forall pre s1 p1 t1 mid s2 p2 t2 post,
    events = pre ++ EvProgress s1 p1 t1 :: mid ++ EvProgress s2 p2 t2 :: post ->
    exists ms, In (EvDelay ms) mid.

Section Run.

Variable World : Type.
Variable exchangeRepositories : JsMap.t (IExchangeRepository.t World).
Variable config : ArbitrageConfig.t.

(** The candidates the detector finds for a group entered in world [w]. *)
Definition candidatesOf (sharedPair : SharedPairInfo.t) (w : World)
    : list Opportunity.t :=
    match ArbitrageService._enrichSinglePairWithTickers
            exchangeRepositories sharedPair w with
    | (Some enrichedPair, _) =>
        ArbitrageService._findOpportunitiesInSinglePair config enrichedPair
    | (None, _) => []
    end.

(** The turns of the outer loop: each group with the world it was
    entered in and the events of its turn. *)
Fixpoint turns (total i : nat) (pending : list SharedPairInfo.t) (w : World)
    : list (SharedPairInfo.t * World * list Event) :=
    match pending with
    | [] => []
    | sharedPair :: rest =>
        let (events, w1) :=
          ArbitrageService.analyse exchangeRepositories config
            total i sharedPair w in
        (sharedPair, w, events) :: turns total (S i) rest w1
    end.

(** An opportunity some run of the pipeline yields. *)
Definition yielded (o : Opportunity.t) : Prop :=
    exists sharedPairs w,
      In (EvYield o)
         (fst (ArbitrageService.streamOpportunities
                 exchangeRepositories config sharedPairs w)).

End Run.

(** An opportunity the detector emits for some enriched group. *)
Definition detected (config : ArbitrageConfig.t) (o : Opportunity.t) : Prop :=
  exists enrichedPair,
    JsMap.wf (EnrichedPair.tickers enrichedPair) /\
    In o (ArbitrageService._findOpportunitiesInSinglePair config enrichedPair).

End Trace.

(* ================================================================== *)
(** ** Concrete sources and runs *)

Module Scenario.

Local Open Scope string_scope.
Import Effect.

(** The world counts the requests served so far. *)
Definition World : Type := nat.

Definition served {A} (a : A) : IO World A := fun w => (Fulfilled a, S w).

Definition failed {A} : IO World A := fun w => (Rejected, S w).

Definition pairOn (source symbol base quote : string) : StandardPair.t :=
  StandardPair.Build symbol base quote source JsUndefined.

Definition quoteOf (source : string) (ask bid : float) : StandardTicker.t :=
  StandardTicker.Build source bid bid ask JsUndefined.

(** A source that quotes every pair at [ask]/[bid] and reports [status]
    for every asset. *)
Definition source (name : string) (ask bid : float)
    (status : option AssetStatus.t) : IExchangeRepository.t World :=
  IExchangeRepository.Build
    (served [])
    (fun _ => served (Some (quoteOf name ask bid)))
    (fun _ => served status).

(** A source whose ticker request always throws. *)
Definition brokenTicker (status : option AssetStatus.t)
  : IExchangeRepository.t World :=
  IExchangeRepository.Build (served []) (fun _ => failed) (fun _ => served status).

(** A source without a quote: its ticker request resolves to [null]. *)
Definition silent (status : option AssetStatus.t)
  : IExchangeRepository.t World :=
  IExchangeRepository.Build (served []) (fun _ => served None)
    (fun _ => served status).

(** A source whose status lookup always throws. *)
Definition brokenStatus (name : string) (ask bid : float)
  : IExchangeRepository.t World :=
  IExchangeRepository.Build
    (served [])
    (fun _ => served (Some (quoteOf name ask bid)))
    (fun _ => failed).

Definition statusX : AssetStatus.t :=
  AssetStatus.Build true true ["ERC20"] ["ERC20"] (JsObject "x").
Definition statusY : AssetStatus.t :=
  AssetStatus.Build true true ["ERC20"; "TRC20"] ["TRC20"] (JsObject "y").
Definition statusYtrc : AssetStatus.t :=
  AssetStatus.Build true true ["TRC20"] ["TRC20"] (JsObject "y").

Definition memberOn (source symbol base quote : string) : Member.t :=
  Member.Build source (pairOn source symbol base quote).

Definition groupAAA : SharedPairInfo.t :=
  SharedPairInfo.Build "AAA/USDT"
    [memberOn "X" "AAA/USDT" "AAA" "USDT"; memberOn "Y" "AAA/USDT" "AAA" "USDT"].

Definition groupBBB : SharedPairInfo.t :=
  SharedPairInfo.Build "BBB/USDT"
    [memberOn "X" "BBB/USDT" "BBB" "USDT"; memberOn "Y" "BBB/USDT" "BBB" "USDT"].

Definition groupXYZ : SharedPairInfo.t :=
  SharedPairInfo.Build "AAA/USDT"
    [memberOn "X" "AAA/USDT" "AAA" "USDT"; memberOn "Y" "AAA/USDT" "AAA" "USDT";
     memberOn "Z" "AAA/USDT" "AAA" "USDT"].

(** Scenarios A and D: X asks 100 and bids 99.5, Y asks 105 and bids 103;
    X withdraws over ERC20, Y deposits over ERC20 and TRC20. *)
Definition sourcesA : JsMap.t (IExchangeRepository.t World) :=
  [("X", source "X" 100 99.5 (Some statusX));
   ("Y", source "Y" 105 103 (Some statusY))].

(** Scenario C: Y deposits over TRC20 only. *)
Definition sourcesC : JsMap.t (IExchangeRepository.t World) :=
  [("X", source "X" 100 99.5 (Some statusX));
   ("Y", source "Y" 105 103 (Some statusYtrc))].

(** The sources of scenario A without any asset status. *)
Definition sourcesNoStatus : JsMap.t (IExchangeRepository.t World) :=
  [("X", source "X" 100 99.5 None); ("Y", source "Y" 105 103 None)].

(** The sources of scenario A, the status lookup of Y throwing. *)
Definition sourcesBrokenStatus : JsMap.t (IExchangeRepository.t World) :=
  [("X", source "X" 100 99.5 (Some statusX));
   ("Y", brokenStatus "Y" 105 103)].

(** Three sources; the ticker request of X throws. *)
Definition sourcesBrokenX : JsMap.t (IExchangeRepository.t World) :=
  [("X", brokenTicker (Some statusX));
   ("Y", source "Y" 100 99.5 (Some statusY));
   ("Z", source "Z" 105 103 (Some statusY))].

(** Three sources; X has no quote. *)
Definition sourcesSilentX : JsMap.t (IExchangeRepository.t World) :=
  [("X", silent (Some statusX));
   ("Y", source "Y" 100 99.5 (Some statusX));
   ("Z", source "Z" 105 103 (Some statusY))].

Definition configA : ArbitrageConfig.t := ArbitrageConfig.Build 0.5 None.
Definition configB : ArbitrageConfig.t := ArbitrageConfig.Build 5 None.
Definition configE : ArbitrageConfig.t :=
  ArbitrageConfig.Build 0.5 (Some ["USDT"]).
Definition configZero : ArbitrageConfig.t := ArbitrageConfig.Build 0 None.

(** A threshold with more than four decimals: 25/128. *)
Definition configFine : ArbitrageConfig.t :=
  ArbitrageConfig.Build 0.1953125 None.

(** X asks and bids 1; Y asks 2 and bids 1 + 1/512.  Every operation of
    the spread of buying on X and selling on Y is exact; the spread is
    25/128 = 0.1953125. *)
Definition enrichedFine : EnrichedPair.t :=
  EnrichedPair.Build "AAA/USDT" (SharedPairInfo.exchanges groupAAA)
    [("X", quoteOf "X" 1 1); ("Y", quoteOf "Y" 2 1.001953125)].

(** Both sources ask and bid 100. *)
Definition enrichedFlat : EnrichedPair.t :=
  EnrichedPair.Build "AAA/USDT" (SharedPairInfo.exchanges groupAAA)
    [("X", quoteOf "X" 100 100); ("Y", quoteOf "Y" 100 100)].

(** Both sources ask 1 and bid 3. *)
Definition enrichedBoth : EnrichedPair.t :=
  EnrichedPair.Build "AAA/USDT" (SharedPairInfo.exchanges groupAAA)
  [("X", quoteOf "X" 1 3); ("Y", quoteOf "Y" 1 3)].

Definition enrichedA : EnrichedPair.t :=
  EnrichedPair.Build "AAA/USDT" (SharedPairInfo.exchanges groupAAA)
    [("X", quoteOf "X" 100 99.5); ("Y", quoteOf "Y" 105 103)].

Definition opportunityA : Opportunity.t :=
  Opportunity.Build "AAA/USDT" 3
    (Opportunity.BuildSide "X" 100) (Opportunity.BuildSide "Y" 103) None.

(** X lists the same symbol twice, no other source lists it. *)
Definition listedTwice : list ExchangeData.t :=
  [ExchangeData.Build "X"
     [pairOn "X" "AAA/USDT" "AAA" "USDT"; pairOn "X" "AAA/USDT" "AAA" "USDT"]].

(** Scenario E: AAA/USDC and AAA/USDT on both X and Y, BBB/USDT on X only. *)
Definition listedE : list ExchangeData.t :=
  [ExchangeData.Build "X"
     [pairOn "X" "AAA/USDC" "AAA" "USDC"; pairOn "X" "AAA/USDT" "AAA" "USDT";
      pairOn "X" "BBB/USDT" "BBB" "USDT"];
   ExchangeData.Build "Y"
     [pairOn "Y" "AAA/USDT" "AAA" "USDT"; pairOn "Y" "AAA/USDC" "AAA" "USDC"]].

End Scenario.

(* ================================================================== *)
(** ** Further sources and runs *)

Module Cases.

Import Scenario.
Local Open Scope string_scope.

(** Scenario E with a third source that lists USDC pairs only. *)
Definition sourceUSDC : ExchangeData.t :=
  ExchangeData.Build "Z"
    [pairOn "Z" "AAA/USDC" "AAA" "USDC"; pairOn "Z" "BBB/USDC" "BBB" "USDC"].

Definition listedBefore : list ExchangeData.t := firstn 1 listedE.

Definition listedAfter : list ExchangeData.t := skipn 1 listedE.

(** A group one of whose members names a source nobody registered, between
    two members of registered sources. *)
Definition groupUnregistered : SharedPairInfo.t :=
  SharedPairInfo.Build "AAA/USDT"
    [memberOn "X" "AAA/USDT" "AAA" "USDT"; memberOn "Q" "AAA/USDT" "AAA" "USDT";
     memberOn "Y" "AAA/USDT" "AAA" "USDT"].

(** Candidates on the pair of scenario A whose sources are not all
    registered in [sourcesA]. *)
Definition boughtOnUnregistered : Opportunity.t :=
  Opportunity.Build "AAA/USDT" 3
    (Opportunity.BuildSide "Q" 100) (Opportunity.BuildSide "Y" 103) None.

Definition soldOnUnregistered : Opportunity.t :=
  Opportunity.Build "AAA/USDT" 3
    (Opportunity.BuildSide "X" 100) (Opportunity.BuildSide "Q" 103) None.

End Cases.

(* ================================================================== *)
(** ** Further notions *)

Module Fetch.

(** The requests for the pair lists: every registered source is asked, in
    the order of the [Map], whatever the earlier ones answer. *)
Fixpoint pairRequests {World : Type}
    (entries : list (string * IExchangeRepository.t World)) (w : World)
  : list (Outcome (list StandardPair.t)) * World :=
  match entries with
  | [] => ([], w)
  | entry :: rest =>
      let (o, w1) := IExchangeRepository.fetchAllPairs (snd entry) w in
      let (os, w2) := pairRequests rest w1 in
      (o :: os, w2)
  end.

(** The promise of the callback of one entry: the list of the source
    under its name, or the rejection of the request. *)
Definition tagged (name : string) (o : Outcome (list StandardPair.t))
  : Outcome ExchangeData.t :=
  match o with
  | Fulfilled pairs => Fulfilled (ExchangeData.Build name pairs)
  | Rejected => Rejected
  end.

(** One [ExchangeData] per source name and pair list. *)
Definition labelled (names : list string) (lists : list (list StandardPair.t))
  : list ExchangeData.t :=
  map (fun nl => ExchangeData.Build (fst nl) (snd nl)) (combine names lists).

End Fetch.

Module Sides.

(** The ordered pair of sources an opportunity buys and sells on. *)
Definition ofOpportunity (o : Opportunity.t) : string * string :=
  (Opportunity.exchange (Opportunity.buyAt o),
   Opportunity.exchange (Opportunity.sellAt o)).

End Sides.

Module Lines.

Definition isProgress (e : Event) : bool :=
  match e with EvProgress _ _ _ => true | _ => false end.

Definition isDone (e : Event) : bool :=
  match e with EvDone _ => true | _ => false end.

(** The progress lines of a run over the given groups: the symbol of each
    group with its position, counted from 1, and the number of groups. *)
Fixpoint expected (total i : nat) (sharedPairs : list SharedPairInfo.t)
  : list Event :=
  match sharedPairs with
  | [] => []
  | sharedPair :: rest =>
      EvProgress (SharedPairInfo.symbol sharedPair) (i + 1) total
        :: expected total (S i) rest
  end.

End Lines.

(* ================================================================== *)
(** ** The facade *)

(** *** JavaScript arrays *)

Module JsArray.

(** The result of [ToIntegerOrInfinity]. *)
Inductive IntegerOrInfinity : Type :=
  | NegativeInfinity
  | Integer (z : Z)
  | PositiveInfinity.

(** [ToIntegerOrInfinity(x)]: [NaN] and the zeros give 0, other finite
    numbers are truncated towards zero. *)
Definition toIntegerOrInfinity (x : float) : IntegerOrInfinity :=
  match Prim2SF x with
  | S754_nan => Integer 0
  | S754_zero _ => Integer 0
  | S754_infinity true => NegativeInfinity
  | S754_infinity false => PositiveInfinity
  | S754_finite s m e =>
      let magnitude :=
        if (0 <=? e)%Z then (Z.pos m * 2 ^ e)%Z
        else (Z.pos m / 2 ^ (- e))%Z in
      Integer (if s then (- magnitude)%Z else magnitude)
  end.

(** The index a relative start or end stands for in an array of [len]
    elements: counted from the end when negative, clamped to [0..len]. *)
Definition relativeIndex (len : nat) (relative : IntegerOrInfinity) : nat :=
  match relative with
  | NegativeInfinity => 0
  | Integer z =>
      if (z <? 0)%Z then Z.to_nat (Z.max (Z.of_nat len + z) 0)
      else Z.to_nat (Z.min z (Z.of_nat len))
  | PositiveInfinity => len
  end.

(** [arr.slice(start, end)] with two numbers. *)
Definition slice {A} (arr : list A) (start final : float) : list A :=
  let len := List.length arr in
  let k := relativeIndex len (toIntegerOrInfinity start) in
  let final := relativeIndex len (toIntegerOrInfinity final) in
  firstn (final - k) (skipn k arr).

End JsArray.

(** *** The store of opportunities *)

Module IOpportunityRepository.

(** ["executable" | "potential"] *)
Inductive Category : Type := Executable | Potential.

Record DbSchema : Type := BuildDbSchema
  { executable : list Opportunity.t; potential : list Opportunity.t }.

Record t (World : Type) : Type := Build
  { add : Opportunity.t -> Category -> Effect.IO World unit;
    clear : Category -> Effect.IO World unit;
    getAll : Effect.IO World DbSchema }.

End IOpportunityRepository.

(** *** Scripts: effectful code that leaves a trace of steps *)

Module Script.
Section WithWorld.

Variable World : Type.
Variable Step : Type.

(** The steps taken, the outcome and the world left. *)
Definition t (A : Type) : Type := World -> (list Step * Outcome A) * World.

Definition ret {A} (a : A) : t A := fun w => (([], Fulfilled a), w).

Definition bind {A B} (m : t A) (k : A -> t B) : t B :=
  fun w =>
    match m w with
    | ((steps, Fulfilled a), w1) =>
        match k a w1 with
        | ((steps', r), w2) => ((steps ++ steps', r), w2)
        end
    | ((steps, Rejected), w1) => ((steps, Rejected), w1)
    end.

(** A step that cannot fail. *)
Definition log (s : Step) : t unit := fun w => (([s], Fulfilled tt), w).

(** A synchronous step that may throw. *)
Definition attempt (s : Outcome Step) : t unit :=
  fun w =>
    match s with
    | Fulfilled s => (([s], Fulfilled tt), w)
    | Rejected => (([], Rejected), w)
    end.

(** [await call]: a rejection is thrown on. *)
Definition await {A} (call : Effect.IO World A) : t A :=
  fun w => let (o, w1) := call w in (([], o), w1).

(** [await call] for a call that catches whatever is thrown. *)
Definition awaitTotal {A} (call : Effect.Total World A) : t A :=
  fun w => let (a, w1) := call w in (([], Fulfilled a), w1).

End WithWorld.

Arguments ret {World Step A} a _.
Arguments bind {World Step A B} m k _.
Arguments log {World Step} s _.
Arguments attempt {World Step} s _.
Arguments await {World Step A} call _.
Arguments awaitTotal {World Step A} call _.

End Script.

Declare Scope script_scope.
Delimit Scope script_scope with script.
Notation "x <~ m ;; k" := (Script.bind m (fun x => k))
  (at level 61, m at next level, right associativity) : script_scope.
Notation "m ;; k" := (Script.bind m (fun _ => k))
  (at level 61, right associativity) : script_scope.

(** *** [ArbitrageFacade] *)

Module ArbitrageFacade.

Import IOpportunityRepository.

(** What a run of the facade does, in order.  The fixed lines of the
    banner are left out.  A call of the store is a step whether it then
    resolves or rejects. *)
Inductive Step : Type :=
  | Padded (text : string) (spaces : nat)
      (** a line of the header box: its text and the number of spaces
          that pad it *)
  | Clear (type : Category)
      (** the call [opportunityRepository.clear(type)] *)
  | SharedPairsFound (count : nat)
      (** the line of [_logSharedPairsFound] *)
  | Generator (e : Event)
      (** what the generator of the service writes, yields or waits for *)
  | ExecutableOpportunity (opportunity : Opportunity.t) (count : nat)
      (** the lines of [_logExecutableOpportunity] *)
  | PotentialOpportunity (opportunity : Opportunity.t) (count : nat)
      (** the line of [_logPotentialOpportunity] *)
  | Add (opportunity : Opportunity.t) (type : Category)
      (** the call [opportunityRepository.add(opportunity, type)] *)
  | FinalSummary (executableCount potentialCount : nat).
      (** the line of [_logFinalSummary] *)

(** [text.replace(/\x1b\[[0-9;]*m/g, "").length]: the characters that
    remain once the colour codes are removed.  [pending] counts the
    characters read of a possible code: [Some 1] after the escape
    character, [Some k] with [k >= 2] after the bracket and [k - 2]
    digits or semicolons. *)
Fixpoint visibleLengthFrom (pending : option nat) (text : string) : nat :=
  match text with
  | EmptyString => match pending with Some k => k | None => 0 end
  | String c rest =>
      let plain :=
        if Ascii.eqb c "027"%char then visibleLengthFrom (Some 1) rest
        else S (visibleLengthFrom None rest) in
      match pending with
      | None => plain
      | Some 1 =>
          if Ascii.eqb c "["%char then visibleLengthFrom (Some 2) rest
          else 1 + plain
      | Some k =>
          if Ascii.eqb c "m"%char then visibleLengthFrom None rest
          else if (Ascii.eqb c ";"%char
                   || ((48 <=? nat_of_ascii c) && (nat_of_ascii c <=? 57)))%bool
          then visibleLengthFrom (Some (S k)) rest
          else k + plain
      end
  end.

Definition visibleLength (text : string) : nat := visibleLengthFrom None text.

(** The closure [padLine], with [totalLength] at its default of 54:
    [" ".repeat(padding - 1)] throws a [RangeError] on a negative
    count. *)
Definition padLine (text : string) : Outcome Step :=
  let padding := (54 - Z.of_nat (visibleLength text))%Z in
  if (padding - 1 <? 0)%Z then Rejected
  else Fulfilled (Padded text (Z.to_nat (padding - 1))).

(** The line logged for a text that fits. *)
Definition shownLine (text : string) : Step :=
  Padded text (53 - visibleLength text).

Section Facade.

Variable World : Type.

(** The arguments of the constructor, and the store it creates. *)
Variable exchangeImplementations : list (string * IExchangeRepository.t World).
Variable config : ArbitrageConfig.t.
Variable opportunityRepository : IOpportunityRepository.t World.

(** The colour codes of [lib/colors] and the conversion of a number to a
    string in a template literal. *)
Variables yellow reset red : string.
Variable numberToString : float -> string.

Local Open Scope script_scope.
Local Open Scope string_scope.

(** [new Map(exchangeImplementations.map(repo => [repo.name, repo.instance]))] *)
Definition repositoriesMap : JsMap.t (IExchangeRepository.t World) :=
  fold_left (fun m entry => JsMap.set m (fst entry) (snd entry))
    exchangeImplementations JsMap.empty.

(** The texts handed to [padLine], in order. *)
Definition headerTexts (initialIndex finalIndex : float) : list string :=
  [ "- Analyzing pairs from index: " ++ yellow
      ++ numberToString initialIndex ++ reset;
    "- Analyzing pairs up to index: " ++ yellow
      ++ numberToString finalIndex ++ reset;
    "- Minimum Profit Percentage: " ++ yellow
      ++ numberToString (ArbitrageConfig.minProfitPercentage
                           (ArbitrageService.getConfig config))
      ++ "%" ++ reset;
    "- Quote Assets Filter: " ++ yellow ++ "["
      ++ match ArbitrageConfig.quoteAssetsFilter
                 (ArbitrageService.getConfig config) with
         | Some filter => String.concat ", " filter
         | None => "undefined"
         end
      ++ "]" ++ reset;
    "";
    "--- " ++ red ++ "Clearing previous database" ++ reset ++ " ---" ].

(** [console.log(padLine(text))] for each text in turn. *)
Fixpoint logPadded (texts : list string) : Script.t World Step unit :=
  match texts with
  | [] => Script.ret tt
  | text :: rest => Script.attempt (padLine text) ;; logPadded rest
  end.

Definition _logInitialHeader (initialIndex finalIndex : float)
  : Script.t World Step unit :=
  logPadded (headerTexts initialIndex finalIndex).

(** [opportunity.validation?.isExecutable] *)
Definition executable (opportunity : Opportunity.t) : bool :=
  match Opportunity.validation opportunity with
  | Some validation => Opportunity.isExecutable validation
  | None => false
  end.

(** The body of the [for await] loop, on the two counters. *)
Definition store (counts : nat * nat) (opportunity : Opportunity.t)
  : Script.t World Step (nat * nat) :=
  let (executableCount, potentialCount) := counts in
  if executable opportunity then
    let executableCount := S executableCount in
    Script.log (ExecutableOpportunity opportunity executableCount) ;;
    Script.log (Add opportunity Executable) ;;
    Script.await
      (IOpportunityRepository.add opportunityRepository
         opportunity Executable) ;;
    Script.ret (executableCount, potentialCount)
  else
    let potentialCount := S potentialCount in
    Script.log (PotentialOpportunity opportunity potentialCount) ;;
    Script.log (Add opportunity Potential) ;;
    Script.await
      (IOpportunityRepository.add opportunityRepository
         opportunity Potential) ;;
    Script.ret (executableCount, potentialCount).

(** [for await (const opportunity of streamOpportunities(sharedPairs)) body]:
    the generator of the service, the body of the loop running at each
    [yield] before the generator goes on.  When the body throws, the
    generator is closed where it stands and the loop throws. *)
Section ForAwait.

Variable State : Type.
Variable body : State -> Opportunity.t -> Script.t World Step State.

Fixpoint validateEachFor (priceOpportunities : list Opportunity.t)
    (state : State) : Script.t World Step State :=
  match priceOpportunities with
  | [] => Script.ret state
  | priceOpp :: rest =>
      validatedOpp <~
        Script.awaitTotal
          (ArbitrageService._validateSingleOpportunity
             repositoriesMap priceOpp) ;;
      state <~
        match validatedOpp with
        | Some o => Script.log (Generator (EvYield o)) ;; body state o
        | None => Script.ret state
        end ;;
      validateEachFor rest state
  end.

Definition analyseFor (total i : nat) (sharedPair : SharedPairInfo.t)
    (state : State) : Script.t World Step State :=
  Script.log
    (Generator (EvProgress (SharedPairInfo.symbol sharedPair) (i + 1) total)) ;;
  enrichedPair <~
    Script.awaitTotal
      (ArbitrageService._enrichSinglePairWithTickers
         repositoriesMap sharedPair) ;;
  match enrichedPair with
  | None => Script.ret state
  | Some enrichedPair =>
      match ArbitrageService._findOpportunitiesInSinglePair
              config enrichedPair with
      | [] => Script.ret state
      | priceOpportunities =>
          state <~ validateEachFor priceOpportunities state ;;
          Script.log (Generator (EvDelay 30)) ;;
          Script.ret state
      end
  end.

Fixpoint streamFor (total i : nat) (pending : list SharedPairInfo.t)
    (state : State) : Script.t World Step State :=
  match pending with
  | [] => Script.ret state
  | sharedPair :: rest =>
      state <~ analyseFor total i sharedPair state ;;
      streamFor total (S i) rest state
  end.

Definition forAwait (sharedPairs : list SharedPairInfo.t) (state : State)
  : Script.t World Step State :=
  let total := List.length sharedPairs in
  state <~ streamFor total 0 sharedPairs state ;;
  Script.log (Generator (EvDone total)) ;;
  Script.ret state.

End ForAwait.

(** [run] *)
Definition run (initialIndex finalIndex : float) : Script.t World Step unit :=
  _logInitialHeader initialIndex finalIndex ;;
  Script.log (Clear Executable) ;;
  Script.await (IOpportunityRepository.clear opportunityRepository Executable) ;;
  Script.log (Clear Potential) ;;
  Script.await (IOpportunityRepository.clear opportunityRepository Potential) ;;
  exchangePairResults <~
    Script.await
      (ArbitrageService.fetchAllPairsFromRepositories repositoriesMap) ;;
  let sharedPairs :=
    ArbitrageService.findSharedPairs config exchangePairResults in
  Script.log (SharedPairsFound (List.length sharedPairs)) ;;
  let pairsToAnalyze := JsArray.slice sharedPairs initialIndex finalIndex in
  counts <~ forAwait store pairsToAnalyze (0, 0) ;;
  Script.log (FinalSummary (fst counts) (snd counts)).

End Facade.

(** **** Reading a trace *)

Definition isPadded (s : Step) : bool :=
  match s with Padded _ _ => true | _ => false end.

Definition isFinalSummary (s : Step) : bool :=
  match s with FinalSummary _ _ => true | _ => false end.

Definition isClear (s : Step) : bool :=
  match s with Clear _ => true | _ => false end.

(** The events of the generator among the steps. *)
Definition generated (steps : list Step) : list Event :=
  flat_map (fun s => match s with Generator e => [e] | _ => [] end) steps.

(** The opportunities handed to the store, with their category. *)
Definition added (steps : list Step) : list (Opportunity.t * Category) :=
  flat_map (fun s => match s with Add o type => [(o, type)] | _ => [] end)
    steps.

(** The numbers the announcements of executable and of potential
    opportunities carry, in order. *)
Definition announcedExecutable (steps : list Step) : list nat :=
  flat_map
    (fun s => match s with ExecutableOpportunity _ count => [count] | _ => [] end)
    steps.

Definition announcedPotential (steps : list Step) : list nat :=
  flat_map
    (fun s => match s with PotentialOpportunity _ count => [count] | _ => [] end)
    steps.

(** The category an opportunity is stored under. *)
Definition categoryOf (opportunity : Opportunity.t) : Category :=
  if executable opportunity then Executable else Potential.

(** The trace of a [for await] loop that stores what is yielded: events
    of the generator, each yield followed at once by the line announcing
    it, numbered within its category, and by its addition to the store
    under that category. *)
Inductive Stored : nat * nat -> list Step -> nat * nat -> Prop :=
  | stored_nil counts : Stored counts [] counts
  | stored_event counts e steps counts' :
      (forall o, e <> EvYield o) ->
      Stored counts steps counts' ->
      Stored counts (Generator e :: steps) counts'
  | stored_executable executableCount potentialCount o steps counts' :
      executable o = true ->
      Stored (S executableCount, potentialCount) steps counts' ->
      Stored (executableCount, potentialCount)
        (Generator (EvYield o)
           :: ExecutableOpportunity o (S executableCount)
           :: Add o Executable :: steps)
        counts'
  | stored_potential executableCount potentialCount o steps counts' :
      executable o = false ->
      Stored (executableCount, S potentialCount) steps counts' ->
      Stored (executableCount, potentialCount)
        (Generator (EvYield o)
           :: PotentialOpportunity o (S potentialCount)
           :: Add o Potential :: steps)
        counts'.

End ArbitrageFacade.

(* ================================================================== *)
(** ** Concrete runs of the facade *)

Module FacadeCases.

Import Scenario.
Import Effect.
Local Open Scope string_scope.

(** A source that lists [pairs], quotes every pair at [ask]/[bid] and
    reports a status that depends on the asset. *)
Definition listing (name : string) (pairs : list StandardPair.t)
    (ask bid : float) (status : option string -> option AssetStatus.t)
  : IExchangeRepository.t World :=
  IExchangeRepository.Build
    (served pairs)
    (fun _ => served (Some (quoteOf name ask bid)))
    (fun asset => served (status asset)).

Definition pairsOf (name : string) : list StandardPair.t :=
  [pairOn name "AAA/USDT" "AAA" "USDT"; pairOn name "BBB/USDT" "BBB" "USDT";
   pairOn name "CCC/USDT" "CCC" "USDT"].

(** Y deposits BBB over TRC20 only, everything else over ERC20 as well. *)
Definition statusOnY (asset : option string) : option AssetStatus.t :=
  match asset with
  | Some "BBB" => Some statusYtrc
  | _ => Some statusY
  end.

(** X asks 100 and bids 99.5, Y asks 105 and bids 103, both list the
    three pairs. *)
Definition implementations : list (string * IExchangeRepository.t World) :=
  [("X", listing "X" (pairsOf "X") 100 99.5 (fun _ => Some statusX));
   ("Y", listing "Y" (pairsOf "Y") 105 103 statusOnY)].

(** A store that accepts everything. *)
Definition store : IOpportunityRepository.t World :=
  IOpportunityRepository.Build
    (fun _ _ => served tt) (fun _ => served tt)
    (served (IOpportunityRepository.BuildDbSchema [] [])).


(** Colour codes, and a stand-in that shows every number as [0]. *)
Definition yellow : string := String "027" "[33m".
Definition reset : string := String "027" "[0m".
Definition red : string := String "027" "[31m".
Definition shownAsZero (x : float) : string := "0".

(** A filter of six quote assets: the line that shows it has 59 visible
    characters. *)
Definition configSix : ArbitrageConfig.t :=
  ArbitrageConfig.Build 0.5
    (Some ["USDT"; "USDC"; "BUSD"; "TUSD"; "FDUSD"; "DAI"]).

Definition run (config : ArbitrageConfig.t) (initialIndex finalIndex : float)
  : list ArbitrageFacade.Step * Outcome unit :=
  fst (ArbitrageFacade.run implementations config store
         yellow reset red shownAsZero initialIndex finalIndex 0).

End FacadeCases.

(* ================================================================== *)
(** ** The Bitget adapter *)

Module BitgetApi.

(** The payloads, at the types the adapter declares for them. *)
Record BitgetRawPair : Type := BuildRawPair
  { status : string; baseCoin : string; quoteCoin : string }.

Record BitgetChain : Type := BuildChain
  { chain : string; rechargeable : string; withdrawable : string }.

Record BitgetCoinInfo : Type := BuildCoinInfo
  { coin : string; chains : list BitgetChain }.

(** What a response carries in [response.data.data]: an array of items,
    or something the checks of the adapter reject ([response.data] or
    [response.data.data] missing, or not an array). *)
Inductive Body (A : Type) : Type :=
  | NotAnArray
  | Items (items : list A).
Arguments NotAnArray {A}.

Section Adapter.

Variable World : Type.

(** [axios.get(SYMBOLS_URL)] and [axios.get(ALL_COINS_URL)]: a failed
    request rejects. *)
Variable getSymbols : Effect.IO World (Body BitgetRawPair).
Variable getCoins : Effect.IO World (Body BitgetCoinInfo).

(** [String.prototype.toUpperCase], and the payload objects as they are
    kept in [raw] and [assetInfo]. *)
Variable toUpperCase : string -> string.
Variable rawOf : BitgetRawPair -> Any.
Variable infoOf : BitgetCoinInfo -> Any.

Import Effect.
Local Open Scope io_scope.
Local Open Scope string_scope.

(** An [async] method whose body is one [try] block with a [catch] that
    returns [fallback]. *)
Definition caught {A} (body : IO World A) (fallback : A) : IO World A :=
  fun w => let (a, w') := try_catch body fallback w in (Fulfilled a, w').

(** The callback of [map] in [fetchAllPairs]. *)
Definition standardPair (market : BitgetRawPair) : StandardPair.t :=
  StandardPair.Build
    (baseCoin market ++ "/" ++ quoteCoin market)
    (baseCoin market) (quoteCoin market) "bitget" (rawOf market).

Definition fetchAllPairs : IO World (list StandardPair.t) :=
  caught
    (response <- getSymbols ;;
     match response with
     | NotAnArray => throw
     | Items rawPairs =>
         ret (map standardPair
                (filter (fun market => String.eqb (status market) "online")
                   rawPairs))
     end)
    [].

(** [allAssetsFromApi.find(coin => coin.coin.toUpperCase() ===
    asset.toUpperCase())]: with [asset] undefined the callback throws the
    first time it is called. *)
Definition findCoin (allAssetsFromApi : list BitgetCoinInfo)
    (asset : option string) : Outcome (option BitgetCoinInfo) :=
  match asset with
  | Some asset =>
      Fulfilled
        (find (fun c => String.eqb (toUpperCase (coin c)) (toUpperCase asset))
           allAssetsFromApi)
  | None =>
      match allAssetsFromApi with
      | [] => Fulfilled None
      | _ :: _ => Rejected
      end
  end.

(** The status built for a coin that was found. *)
Definition assetStatus (assetInfo : BitgetCoinInfo) : AssetStatus.t :=
  let depositNetworks :=
    map (fun c => toUpperCase (chain c))
      (filter (fun c => String.eqb (rechargeable c) "true")
         (chains assetInfo)) in
  let withdrawNetworks :=
    map (fun c => toUpperCase (chain c))
      (filter (fun c => String.eqb (withdrawable c) "true")
         (chains assetInfo)) in
  AssetStatus.Build
    (0 <? List.length depositNetworks)%nat
    (0 <? List.length withdrawNetworks)%nat
    depositNetworks withdrawNetworks (infoOf assetInfo).

Definition getAssetStatus (asset : option string)
  : IO World (option AssetStatus.t) :=
  caught
    (response <- getCoins ;;
     match response with
     | NotAnArray => throw
     | Items allAssetsFromApi =>
         assetInfo <- lift (findCoin allAssetsFromApi asset) ;;
         match assetInfo with
         | None => ret None
         | Some assetInfo => ret (Some (assetStatus assetInfo))
         end
     end)
    None.

End Adapter.

End BitgetApi.

(** *** Statuses whose flags say what their networks say *)

Module Flags.

(** A status as the adapters build it: deposits are enabled exactly when
    there is a deposit network, withdrawals exactly when there is a
    withdrawal network.  An absent status is of that kind. *)
Definition fromNetworks (status : option AssetStatus.t) : Prop :=
  match status with
  | Some s =>
      AssetStatus.canDeposit s
      = (0 <? List.length (AssetStatus.depositNetworks s)) /\
      AssetStatus.canWithdraw s
      = (0 <? List.length (AssetStatus.withdrawNetworks s))
  | None => True
  end.

End Flags.

(* ================================================================== *)
(** ** Concrete answers of Bitget *)

Module BitgetCases.

Import Scenario.
Import BitgetApi.
Local Open Scope string_scope.

(** Upper case for unaccented Latin letters. *)
Definition upperChar (c : ascii) : ascii :=
  let n := nat_of_ascii c in
  if ((97 <=? n) && (n <=? 122))%bool%nat then ascii_of_nat (n - 32) else c.

Fixpoint upper (s : string) : string :=
  match s with
  | EmptyString => EmptyString
  | String c rest => String (upperChar c) (upper rest)
  end.

Definition markets : list BitgetRawPair :=
  [BuildRawPair "online" "AAA" "USDT"; BuildRawPair "offline" "BBB" "USDT";
   BuildRawPair "online" "CCC" "USDT"].

(** AAA is withdrawn over two chains and deposited over none; CCC is
    deposited over one chain. *)
Definition coinAAA : BitgetCoinInfo :=
  BuildCoinInfo "aaa"
    [BuildChain "trc20" "false" "true"; BuildChain "erc20" "false" "true"].

Definition coinCCC : BitgetCoinInfo :=
  BuildCoinInfo "CCC" [BuildChain "erc20" "true" "false"].

Definition objectOfMarket (market : BitgetRawPair) : Any :=
  JsObject (baseCoin market ++ quoteCoin market).

Definition objectOfCoin (c : BitgetCoinInfo) : Any := JsObject (coin c).

(** A source with the pairs and the statuses of the Bitget adapter, and
    without quotes. *)
Definition bitget : IExchangeRepository.t World :=
  IExchangeRepository.Build
    (BitgetApi.fetchAllPairs (served (Items markets)) objectOfMarket)
    (fun _ => served None)
    (BitgetApi.getAssetStatus (served (Items [coinAAA; coinCCC]))
       upper objectOfCoin).

(** The same when every request fails. *)
Definition bitgetDown : IExchangeRepository.t World :=
  IExchangeRepository.Build
    (BitgetApi.fetchAllPairs failed objectOfMarket)
    (fun _ => served None)
    (BitgetApi.getAssetStatus failed upper objectOfCoin).

End BitgetCases.

(* ================================================================== *)
(** * Properties *)

(** ** Lists and loops *)

Section LoopFacts.

Context {A B : Type}.

Lemma fold_left_ext_in (f g : B -> A -> B) (l : list A) :
  (forall acc x, In x l -> f acc x = g acc x) ->
  forall init, fold_left f l init = fold_left g l init.
Proof.
  induction l as [|x l IH]; intros Hfg init; simpl; [reflexivity|].
  rewrite Hfg by (left; reflexivity).
  apply IH. intros acc y Hy. apply Hfg. right. exact Hy.
Qed.

(** A loop that only pushes onto an array. *)
Lemma fold_left_push (f : A -> list B) (l : list A) (init : list B) :
  fold_left (fun acc x => acc ++ f x) l init = init ++ flat_map f l.
Proof.
  revert init. induction l as [|x l IH]; intro init; simpl.
  - now rewrite app_nil_r.
  - rewrite IH. now rewrite app_assoc.
Qed.

Lemma flat_map_all_nil (f : A -> list B) (l : list A) :
  (forall x, In x l -> f x = []) -> flat_map f l = [].
Proof.
  induction l as [|x l IH]; intro Hf; simpl; [reflexivity|].
  rewrite Hf by (left; reflexivity). simpl.
  apply IH. intros y Hy. apply Hf. right. exact Hy.
Qed.

Lemma flat_map_list_prod {C : Type} (f : A * B -> list C)
    (l1 : list A) (l2 : list B) :
  flat_map f (list_prod l1 l2)
  = flat_map (fun a => flat_map (fun b => f (a, b)) l2) l1.
Proof.
  induction l1 as [|a l1 IH]; simpl; [reflexivity|].
  rewrite flat_map_app, IH. f_equal.
  clear. induction l2 as [|b l2 IH]; simpl; [reflexivity|].
  now rewrite IH.
Qed.

Lemma Forall2_from_right (R : A -> B -> Prop) (l : list A) (l' : list B)
    (y : B) :
  Forall2 R l l' -> In y l' -> exists x, In x l /\ R x y.
Proof.
  induction 1 as [|x y' l l' Hxy _ IH]; simpl; [tauto|].
  intros [->|Hin].
  - exists x. split; [now left | exact Hxy].
  - destruct (IH Hin) as [x' [Hx' Hr]]. exists x'. split; [now right | exact Hr].
Qed.

Lemma Forall2_from_left (R : A -> B -> Prop) (l : list A) (l' : list B)
  (x : A) :
  Forall2 R l l' -> In x l -> exists y, In y l' /\ R x y.
Proof.
  induction 1 as [|x' y l l' Hxy _ IH]; simpl; [tauto|].
  intros [->|Hin].
  - exists y. split; [now left | exact Hxy].
  - destruct (IH Hin) as [y' [Hy' Hr]]. exists y'. split; [now right | exact Hr].
Qed.

End LoopFacts.

(** ** Numbers *)

Module JsNumberFacts.

(** The integer that [toFixed(4)] prints for [m / 2^k] is the nearest one
    to [m / 2^k * 10^4], the larger one on a tie: with [n] that integer,
    [n - 1/2 <= m / 2^k * 10^4 < n + 1/2]. *)
Lemma nearest_scaled4_fraction (m k : positive) :
  let n := JsNumber.nearest_scaled4 m (Zneg k) in
  let d := Z.pow_pos 2 k in
  (2 * n * d - d <= 2 * (Zpos m * 10000) < 2 * n * d + d)%Z.
Proof.
  cbv zeta. unfold JsNumber.nearest_scaled4.
  assert (Hd : (0 < Z.pow_pos 2 k)%Z).
  { change (Z.pow_pos 2 k) with (2 ^ Zpos k)%Z. apply Z.pow_pos_nonneg; lia. }
  set (d := Z.pow_pos 2 k) in *. set (a := (Zpos m * 10000)%Z).
  pose proof (Z.div_mod (2 * a + d) (2 * d) ltac:(lia)) as Hdiv.
  pose proof (Z.mod_pos_bound (2 * a + d) (2 * d) ltac:(lia)) as Hmod.
  nia.
Qed.

(** A number without fractional bits is printed exactly. *)
Lemma nearest_scaled4_integer (m : positive) (e : Z) :
  (0 <= e)%Z ->
  JsNumber.nearest_scaled4 m e = (Zpos m * 2 ^ e * 10000)%Z.
Proof.
  intro He. unfold JsNumber.nearest_scaled4.
  destruct e; [lia | lia | lia].
Qed.

End JsNumberFacts.

(** ** Strings *)

Module JsStringFacts.

Lemma includes_In (arr : list string) (x : string) :
  JsString.includes arr x = true <-> In x arr.
Proof.
  unfold JsString.includes. rewrite existsb_exists. split.
  - intros [y [Hy Heq]]. apply String.eqb_eq in Heq. now subst.
  - intro H. exists x. split; [exact H | apply String.eqb_refl].
Qed.

End JsStringFacts.

(** ** [JsMap] *)

Module JsMapFacts.
Section Facts.

Context {V : Type}.
Implicit Types (m : JsMap.t V) (k : string) (v : V).

Lemma get_in_keys m k :
  JsMap.get m k <> None <-> In k (JsMap.keys m).
Proof.
  induction m as [|[k' v'] m IH]; simpl.
  - split; [congruence | tauto].
  - destruct (String.eqb_spec k k') as [->|Hne].
    + split; [auto | congruence].
    + rewrite IH. split; [auto | intros [H|H]; [congruence | exact H]].
Qed.

Lemma has_true m k : JsMap.has m k = true <-> In k (JsMap.keys m).
Proof.
  unfold JsMap.has. rewrite <- get_in_keys.
  destruct (JsMap.get m k); split; congruence.
Qed.

Lemma has_false m k : JsMap.has m k = false <-> ~ In k (JsMap.keys m).
Proof.
  rewrite <- has_true. destruct (JsMap.has m k); split; congruence.
Qed.

(** Setting a key that is present changes no key. *)
Lemma keys_set_present m k v :
  In k (JsMap.keys m) -> JsMap.keys (JsMap.set m k v) = JsMap.keys m.
Proof.
  induction m as [|[k' v'] m IH]; simpl; [tauto|].
  intros Hin. destruct (String.eqb_spec k k') as [->|Hne]; simpl.
  - reflexivity.
  - f_equal. apply IH. destruct Hin; [congruence | assumption].
Qed.

(** Setting a new key appends it. *)
Lemma set_absent m k v :
  ~ In k (JsMap.keys m) -> JsMap.set m k v = m ++ [(k, v)].
Proof.
  induction m as [|[k' v'] m IH]; simpl; [reflexivity|].
  intros Hnin. destruct (String.eqb_spec k k') as [->|Hne].
  - exfalso. apply Hnin. now left.
  - f_equal. apply IH. intro H. apply Hnin. now right.
Qed.

Lemma set_wf m k v : JsMap.wf m -> JsMap.wf (JsMap.set m k v).
Proof.
  unfold JsMap.wf. intro Hwf.
  destruct (in_dec string_dec k (JsMap.keys m)) as [Hin|Hnin].
  - now rewrite keys_set_present.
  - rewrite set_absent by assumption.
    unfold JsMap.keys in *. rewrite map_app. simpl.
    apply NoDup_app; [exact Hwf | repeat constructor; simpl; tauto |].
    intros x Hx [<-|[]]. contradiction.
Qed.

Lemma empty_wf : JsMap.wf (@JsMap.empty V).
Proof. constructor. Qed.

(** Two different positions of a map hold different keys. *)
Lemma wf_distinct_keys m i j (a b : string * V) :
  JsMap.wf m -> i <> j ->
  nth_error (JsMap.entries m) i = Some a ->
  nth_error (JsMap.entries m) j = Some b ->
  fst a <> fst b.
Proof.
  unfold JsMap.wf, JsMap.keys, JsMap.entries.
  intros Hwf Hij Ha Hb Heq. apply Hij.
  assert (Hi : i < List.length (map fst m)).
  { rewrite length_map. apply nth_error_Some. congruence. }
  apply (proj1 (NoDup_nth_error (map fst m)) Hwf i j Hi).
  rewrite !nth_error_map, Ha, Hb. simpl. congruence.
Qed.

End Facts.
End JsMapFacts.

(** ** Spread detector *)

Module SpreadFacts.
Section Facts.

Variable config : ArbitrageConfig.t.

Local Abbreviation find :=
  (ArbitrageService._findOpportunitiesInSinglePair config).

(** One step of the inner loop pushes what [candidateAt] says. *)
Lemma inner_step symbol tickers i j opportunities :
  (if i =? j then opportunities
   else match nth_error tickers i, nth_error tickers j with
        | Some buy, Some sell =>
            ArbitrageService.examine config symbol buy sell opportunities
        | _, _ => opportunities
        end)
  = opportunities ++ Spread.candidateAt config symbol tickers (i, j).
Proof.
  unfold Spread.candidateAt, ArbitrageService.examine,
    ArbitrageService.profitable. simpl.
  destruct (i =? j); [now rewrite app_nil_r|].
  destruct (nth_error tickers i) as [buy|]; [|now rewrite app_nil_r].
  destruct (nth_error tickers j) as [sell|]; [|now rewrite app_nil_r].
  destruct (_ && _); simpl; [|now rewrite app_nil_r].
  destruct (JsNumber.ge _ _); [reflexivity | now rewrite app_nil_r].
Qed.

Lemma candidateAt_short symbol tickers ij :
  List.length tickers < 2 -> In ij (Spread.indexPairs (List.length tickers)) ->
  Spread.candidateAt config symbol tickers ij = [].
Proof.
  unfold Spread.indexPairs. destruct ij as [i j]. intros Hn Hin.
  apply in_prod_iff in Hin. rewrite !in_seq in Hin.
  unfold Spread.candidateAt. simpl.
  replace (i =? j) with true; [reflexivity|].
  symmetry. apply Nat.eqb_eq. lia.
Qed.

(** The double loop visits the index pairs in order, first index
    slowest, and pushes the candidates as it goes. *)
Lemma find_enumerates enrichedPair :
  find enrichedPair
  = flat_map
      (Spread.candidateAt config (EnrichedPair.symbol enrichedPair)
         (JsMap.entries (EnrichedPair.tickers enrichedPair)))
      (Spread.indexPairs
         (List.length (JsMap.entries (EnrichedPair.tickers enrichedPair)))).
Proof.
  unfold ArbitrageService._findOpportunitiesInSinglePair.
  set (tickers := JsMap.entries (EnrichedPair.tickers enrichedPair)).
  set (symbol := EnrichedPair.symbol enrichedPair).
  destruct (Nat.ltb_spec (List.length tickers) 2) as [Hshort|Hlong].
  - symmetry. apply flat_map_all_nil; intros ij Hin.
    now apply candidateAt_short.
  - unfold Spread.indexPairs. rewrite flat_map_list_prod.
    rewrite <- (app_nil_l (flat_map _ _)).
    rewrite <- fold_left_push.
    apply fold_left_ext_in. intros acc i _.
    rewrite <- fold_left_push.
    apply fold_left_ext_in. intros acc' j _.
    apply inner_step.
Qed.

(** Which opportunities the detector emits. *)
Lemma in_find enrichedPair o :
  In o (find enrichedPair) <->
  exists i j buy sell,
    i <> j /\
    nth_error (JsMap.entries (EnrichedPair.tickers enrichedPair)) i = Some buy /\
    nth_error (JsMap.entries (EnrichedPair.tickers enrichedPair)) j = Some sell /\
    JsNumber.gt (StandardTicker.ask (snd buy)) 0%float = true /\
    JsNumber.gt (StandardTicker.bid (snd sell))
                (StandardTicker.ask (snd buy)) = true /\
    JsNumber.ge (ArbitrageService.grossProfitPercentage (snd buy) (snd sell))
                (ArbitrageConfig.minProfitPercentage config) = true /\
    o = ArbitrageService.priceOpportunity
          (EnrichedPair.symbol enrichedPair) buy sell.
Proof.
  rewrite find_enumerates, in_flat_map.
  set (tickers := JsMap.entries (EnrichedPair.tickers enrichedPair)).
  split.
  - intros [[i j] [_ Hin]]. unfold Spread.candidateAt in Hin. simpl in Hin.
    destruct (Nat.eqb_spec i j) as [|Hij]; [contradiction|].
    destruct (nth_error tickers i) as [buy|] eqn:Hi; [|contradiction].
    destruct (nth_error tickers j) as [sell|] eqn:Hj; [|contradiction].
    destruct (ArbitrageService.profitable config (snd buy) (snd sell))
      eqn:Hp; [|contradiction].
    destruct Hin as [<-|[]].
    unfold ArbitrageService.profitable in Hp.
    apply andb_prop in Hp. destruct Hp as [Hp Hge].
    apply andb_prop in Hp. destruct Hp as [Hpos Hgt].
    exists i, j, buy, sell. repeat split; assumption.
  - intros (i & j & buy & sell & Hij & Hi & Hj & Hpos & Hgt & Hge & ->).
    exists (i, j). split.
    + unfold Spread.indexPairs. apply in_prod; apply in_seq; split;
        try lia; simpl; apply nth_error_Some; congruence.
    + unfold Spread.candidateAt. simpl.
      destruct (Nat.eqb_spec i j) as [|_]; [contradiction|].
      fold tickers. rewrite Hi, Hj.
      unfold ArbitrageService.profitable. rewrite Hpos, Hgt, Hge. simpl.
      now left.
Qed.

(** What an emitted opportunity records. *)
Lemma find_sound enrichedPair o :
  In o (find enrichedPair) ->
  JsNumber.gt (Opportunity.price (Opportunity.buyAt o)) 0%float = true /\
  JsNumber.gt (Opportunity.price (Opportunity.sellAt o))
              (Opportunity.price (Opportunity.buyAt o)) = true /\
  JsNumber.ge (Spread.ofOpportunity o)
              (ArbitrageConfig.minProfitPercentage config) = true /\
  Opportunity.profitPercentage o = JsNumber.toFixed4 (Spread.ofOpportunity o) /\
  Opportunity.pair o = EnrichedPair.symbol enrichedPair /\
  Opportunity.validation o = None.
Proof.
  intro Hin. apply in_find in Hin.
  destruct Hin as (i & j & [bx bt] & [sx st] & _ & _ & _ & Hpos & Hgt & Hge & ->).
  simpl in *. repeat split; assumption.
Qed.

(** Over a real [Map], buyer and seller differ. *)
Lemma find_distinct enrichedPair o :
  JsMap.wf (EnrichedPair.tickers enrichedPair) ->
  In o (find enrichedPair) ->
  Opportunity.exchange (Opportunity.buyAt o)
  <> Opportunity.exchange (Opportunity.sellAt o).
Proof.
  intros Hwf Hin. apply in_find in Hin.
  destruct Hin as (i & j & [bx bt] & [sx st] & Hij & Hi & Hj & _ & _ & _ & ->).
  simpl.
  exact (JsMapFacts.wf_distinct_keys Hwf Hij Hi Hj).
Qed.

End Facts.
End SpreadFacts.

(** ** Executability validator *)

Module ValidatorFacts.
Section Facts.

Variable World : Type.
Variable exchangeRepositories : JsMap.t (IExchangeRepository.t World).

Local Abbreviation validate :=
  (ArbitrageService._validateSingleOpportunity exchangeRepositories).

Local Abbreviation buyer o :=
  (JsMap.get exchangeRepositories
     (Opportunity.exchange (Opportunity.buyAt o))).

Local Abbreviation seller o :=
  (JsMap.get exchangeRepositories
     (Opportunity.exchange (Opportunity.sellAt o))).

(** With both sources registered, the validator issues the four lookups
    and returns the record when all of them are fulfilled. *)
Lemma validate_run o w b s :
  buyer o = Some b -> seller o = Some s ->
  validate o w
  = (match fst (Status.lookups b s o w) with
     | [Fulfilled s1; Fulfilled s2; Fulfilled s3; Fulfilled s4] =>
         Some (ArbitrageService.validated o s1 s2 s3 s4)
     | _ => None
     end,
     snd (Status.lookups b s o w)).
Proof.
  intros Hb Hs.
  unfold ArbitrageService._validateSingleOpportunity, Status.lookups,
    Status.baseAssetOf, Status.quoteAssetOf,
    Effect.try_catch, Effect.bind, Effect.invoke, Effect.start.
  rewrite Hb, Hs.
  destruct (IExchangeRepository.getAssetStatus b _ w) as [o1 w1].
  destruct (IExchangeRepository.getAssetStatus b _ w1) as [o2 w2].
  destruct (IExchangeRepository.getAssetStatus s _ w2) as [o3 w3].
  destruct (IExchangeRepository.getAssetStatus s _ w3) as [o4 w4].
  destruct o1, o2, o3, o4; reflexivity.
Qed.

(** Whatever the validator returns is the candidate with a record built
    from four fulfilled lookups. *)
Lemma validate_some o w o' w' :
  validate o w = (Some o', w') ->
  exists b s s1 s2 s3 s4,
    buyer o = Some b /\ seller o = Some s /\
    Status.lookups b s o w
    = ([Fulfilled s1; Fulfilled s2; Fulfilled s3; Fulfilled s4], w') /\
    o' = ArbitrageService.validated o s1 s2 s3 s4.
Proof.
  intro H.
  destruct (buyer o) as [b|] eqn:Hb.
  2:{ unfold ArbitrageService._validateSingleOpportunity,
        Effect.try_catch, Effect.bind, Effect.invoke in H.
      rewrite Hb in H. discriminate. }
  destruct (seller o) as [s|] eqn:Hs.
  2:{ unfold ArbitrageService._validateSingleOpportunity,
        Effect.try_catch, Effect.bind, Effect.invoke, Effect.start in H.
      rewrite Hb, Hs in H.
      destruct (IExchangeRepository.getAssetStatus b _ w) as [o1 w1].
      destruct (IExchangeRepository.getAssetStatus b _ w1) as [o2 w2].
      discriminate. }
  rewrite (validate_run o w Hb Hs) in H.
  destruct (Status.lookups b s o w) as [os w4] eqn:Hl. simpl in H.
  destruct os as [|[s1|] [|[s2|] [|[s3|] [|[s4|] [|]]]]]; try discriminate.
  injection H as <- <-.
  exists b, s, s1, s2, s3, s4. rewrite Hl. repeat split; reflexivity.
Qed.

(** The record the validator attaches. *)
Lemma validated_record o s1 s2 s3 s4 :
  exists v,
    Opportunity.validation (ArbitrageService.validated o s1 s2 s3 s4) = Some v /\
    Opportunity.commonNetworks v
    = filter (JsString.includes (Status.depositNetworksOf s3))
             (Status.withdrawNetworksOf s1) /\
    Opportunity.canWithdraw (Opportunity.buyExchange v) = Status.mayWithdraw s1 /\
    Opportunity.canDeposit (Opportunity.sellExchange v) = Status.mayDeposit s3 /\
    Opportunity.isExecutable v
    = Status.mayWithdraw s1 && Status.mayDeposit s3 &&
      (0 <? List.length (Opportunity.commonNetworks v)).
Proof.
  eexists. split; [reflexivity|].
  destruct s1, s3; simpl; repeat split; reflexivity.
Qed.

(** The validator changes nothing but [validation]. *)
Lemma validated_keeps o s1 s2 s3 s4 :
  let o' := ArbitrageService.validated o s1 s2 s3 s4 in
  Opportunity.pair o' = Opportunity.pair o /\
  Opportunity.profitPercentage o' = Opportunity.profitPercentage o /\
  Opportunity.buyAt o' = Opportunity.buyAt o /\
  Opportunity.sellAt o' = Opportunity.sellAt o.
Proof. repeat split; reflexivity. Qed.

End Facts.
End ValidatorFacts.

(** ** First occurrences *)

Module FirstSeenFacts.

Import Listing.

Lemma In_firstSeen (l : list string) (s : string) :
  In s (firstSeen l) <-> In s l.
Proof.
  induction l as [|a l IH]; simpl; [tauto|].
  rewrite filter_In, IH, negb_true_iff, String.eqb_neq.
  destruct (string_dec a s) as [->|Hne]; [tauto|].
  split; [intros [H|[H _]]; auto | intros [H|H]; [auto | right; split; congruence]].
Qed.

Lemma NoDup_firstSeen (l : list string) : NoDup (firstSeen l).
Proof.
  induction l as [|a l IH]; simpl; constructor.
  - rewrite filter_In, negb_true_iff, String.eqb_neq. tauto.
  - now apply NoDup_filter.
Qed.

(** Appending an element adds it to the first occurrences when it is
    new. *)
Lemma firstSeen_snoc (l : list string) (s : string) :
  firstSeen (l ++ [s])
  = firstSeen l ++ (if JsString.includes l s then [] else [s]).
Proof.
  unfold JsString.includes.
  induction l as [|a l IH]; simpl; [reflexivity|].
  rewrite IH, filter_app. f_equal. f_equal.
  destruct (existsb (String.eqb s) l); simpl.
  - now rewrite orb_true_r.
  - rewrite orb_false_r. now destruct (String.eqb s a).
Qed.

Lemma firstSeen_NoDup (l : list string) : NoDup l -> firstSeen l = l.
Proof.
  induction 1 as [|a l Hnin _ IH]; simpl; [reflexivity|].
  rewrite IH. f_equal.
  apply forallb_filter_id, forallb_forall.
  intros x Hx. apply negb_true_iff, String.eqb_neq. congruence.
Qed.

End FirstSeenFacts.

(** ** Quote enricher *)

Module EnricherFacts.

Import Effect.

Lemma all_fulfilled_length {A} (ps : list (Outcome A)) (rs : list A) :
  all_fulfilled ps = Some rs -> List.length rs = List.length ps.
Proof.
  revert rs. induction ps as [|[a|] ps IH]; simpl; intros rs H.
  - injection H as <-. reflexivity.
  - destruct (all_fulfilled ps) as [xs|]; [|discriminate].
    injection H as <-. simpl. f_equal. now apply IH.
  - discriminate.
Qed.

Lemma all_fulfilled_None {A} (ps : list (Outcome A)) :
  all_fulfilled ps = None <-> In Rejected ps.
Proof.
  induction ps as [|[a|] ps IH]; simpl.
  - split; [discriminate | tauto].
  - destruct (all_fulfilled ps) as [xs|].
    + split; [discriminate|]. intros [H|H]; [discriminate|].
      apply IH in H. discriminate.
    + split; [|reflexivity]. intros _. right. now apply IH.
  - split; [auto | reflexivity].
Qed.

Lemma skipn_nth_error {A} (l : list A) (i : nat) (x : A) :
  nth_error l i = Some x -> skipn i l = x :: skipn (S i) l.
Proof.
  revert i. induction l as [|a l IH]; intros [|i] H; simpl in *;
    try discriminate.
  - now injection H as ->.
  - now apply IH.
Qed.

(** *** The map built by [forEach] *)

Lemma collect_snoc kept kv :
  Quotes.collect (kept ++ [kv])
  = JsMap.set (Quotes.collect kept) (fst kv) (snd kv).
Proof. unfold Quotes.collect. now rewrite fold_left_app. Qed.

Lemma keys_collect kept :
  JsMap.keys (Quotes.collect kept) = Listing.firstSeen (map fst kept).
Proof.
  induction kept as [|kv kept IH] using rev_ind; [reflexivity|].
  rewrite collect_snoc, map_app. simpl.
  rewrite FirstSeenFacts.firstSeen_snoc.
  destruct (JsString.includes (map fst kept) (fst kv)) eqn:Hin.
  - rewrite app_nil_r, <- IH. apply JsMapFacts.keys_set_present.
    rewrite IH. apply FirstSeenFacts.In_firstSeen.
    now apply JsStringFacts.includes_In.
  - rewrite JsMapFacts.set_absent.
    + unfold JsMap.keys in *. rewrite map_app, IH. reflexivity.
    + rewrite IH, FirstSeenFacts.In_firstSeen.
      rewrite <- JsStringFacts.includes_In. congruence.
Qed.

Lemma collect_wf kept : JsMap.wf (Quotes.collect kept).
Proof.
  unfold JsMap.wf. rewrite keys_collect.
  apply FirstSeenFacts.NoDup_firstSeen.
Qed.

Lemma size_collect kept :
  JsMap.size (Quotes.collect kept)
  = List.length (Listing.firstSeen (map fst kept)).
Proof.
  rewrite <- keys_collect. unfold JsMap.size, JsMap.keys.
  now rewrite length_map.
Qed.

Lemma in_set {V} (m : JsMap.t V) k v (e : string * V) :
  In e (JsMap.set m k v) -> In e m \/ e = (k, v).
Proof.
  induction m as [|[k' v'] m IH]; simpl.
  - intros [<-|[]]. now right.
  - destruct (String.eqb_spec k k') as [->|Hne]; simpl.
    + intros [<-|H]; auto.
    + intros [<-|H]; auto. destruct (IH H); auto.
Qed.

(** Every entry of the map is one of the usable tickers. *)
Lemma collect_sound kept e : In e (Quotes.collect kept) -> In e kept.
Proof.
  induction kept as [|kv kept IH] using rev_ind; [tauto|].
  rewrite collect_snoc. intro H. apply in_set in H. apply in_or_app.
  destruct H as [H| ->]; [left; now apply IH | right; left].
  now destruct kv.
Qed.

(** With pairwise-distinct names nothing is overwritten. *)
Lemma collect_NoDup kept :
  NoDup (map fst kept) -> Quotes.collect kept = kept.
Proof.
  induction kept as [|kv kept IH] using rev_ind; [reflexivity|].
  rewrite map_app. simpl. intro Hnd.
  apply NoDup_remove in Hnd. rewrite app_nil_r in Hnd.
  destruct Hnd as [Hnd Hnin].
  rewrite collect_snoc, IH by assumption.
  rewrite JsMapFacts.set_absent by exact Hnin.
  now destruct kv.
Qed.

Lemma usable_names exchanges results :
  incl (map fst (Quotes.usable exchanges results)) (map Member.name exchanges).
Proof.
  revert results. induction exchanges as [|ex exchanges IH];
    intros [|[t|] results]; simpl; try apply incl_nil_l.
  - apply incl_cons; [now left | apply incl_tl, IH].
  - apply incl_tl, IH.
Qed.

Lemma usable_NoDup exchanges results :
  NoDup (map Member.name exchanges) ->
  NoDup (map fst (Quotes.usable exchanges results)).
Proof.
  revert results. induction exchanges as [|ex exchanges IH];
    intros [|[t|] results] Hnd; simpl; try constructor;
    inversion Hnd as [|? ? Hnin Hnd']; subst.
  - intro H. apply Hnin. now apply (usable_names exchanges results).
  - now apply IH.
  - now apply IH.
Qed.

Lemma forEachTicker_usable exchanges results :
  forall index validTickers,
    index + List.length results <= List.length exchanges ->
    ArbitrageService.forEachTicker exchanges results index validTickers
    = Fulfilled
        (fold_left (fun m kv => JsMap.set m (fst kv) (snd kv))
           (Quotes.usable (skipn index exchanges) results) validTickers).
Proof.
  induction results as [|r results IH]; intros index vt Hlen; simpl.
  - now destruct (skipn index exchanges).
  - simpl in Hlen.
    destruct (nth_error exchanges index) as [ex|] eqn:Hex.
    2:{ apply nth_error_None in Hex. lia. }
    rewrite (skipn_nth_error _ _ Hex).
    destruct r as [ticker|]; simpl; rewrite IH by lia; reflexivity.
Qed.

Section Run.

Variable World : Type.
Variable exchangeRepositories : JsMap.t (IExchangeRepository.t World).

Local Abbreviation enrich :=
    (ArbitrageService._enrichSinglePairWithTickers exchangeRepositories).

Local Abbreviation request :=
    (ArbitrageService.requestTicker exchangeRepositories).

Lemma requests_issued exchanges :
    forall w promises w1,
      mapM request exchanges w = (Fulfilled promises, w1) ->
      Forall2 (Quotes.requested exchangeRepositories) exchanges promises.
Proof.
    induction exchanges as [|ex exchanges IH]; simpl; intros w ps w1 H.
    - injection H as <- _. constructor.
    - unfold bind in H.
      destruct (request ex w) as [[p|] w'] eqn:Hreq; [|discriminate].
      destruct (mapM request exchanges w') as [[ps'|] w''] eqn:Hrest;
        [|discriminate].
      injection H as <- _. constructor; [|now apply (IH w' ps' w'')].
      unfold ArbitrageService.requestTicker, invoke, start in Hreq.
      destruct (JsMap.get exchangeRepositories (Member.name ex))
        as [repo|] eqn:Hrepo; [|discriminate].
      exists repo, w. split; [exact Hrepo|].
      destruct (IExchangeRepository.fetchTicker repo (Member.pairData ex) w).
      now injection Hreq as <- _.
Qed.

(** The fan-out goes through when every member's source is registered. *)
Lemma requests_go_through exchanges :
    (forall ex, In ex exchanges ->
                JsMap.get exchangeRepositories (Member.name ex) <> None) ->
    forall w, exists promises w1,
      mapM request exchanges w = (Fulfilled promises, w1).
Proof.
    induction exchanges as [|ex exchanges IH]; simpl; intros Hreg w.
    - now exists [], w.
    - unfold bind.
      assert (Hex : JsMap.get exchangeRepositories (Member.name ex) <> None)
        by (apply Hreg; now left).
      unfold ArbitrageService.requestTicker at 1. unfold invoke, start.
      destruct (JsMap.get exchangeRepositories (Member.name ex))
        as [repo|]; [|congruence].
      destruct (IExchangeRepository.fetchTicker repo (Member.pairData ex) w)
        as [p w'].
      destruct (IH (fun ex' H => Hreg ex' (or_intror H)) w')
        as (ps & w1 & Hps).
      rewrite Hps. now exists (p :: ps), w1.
Qed.

Lemma mapM_length {A B} (f : A -> IO World B) (l : list A) :
    forall w bs w1,
      mapM f l w = (Fulfilled bs, w1) -> List.length bs = List.length l.
Proof.
    induction l as [|a l IH]; simpl; intros w bs w1 H.
    - now injection H as <- _.
    - unfold bind in H.
      destruct (f a w) as [[b|] w']; [|discriminate].
      destruct (mapM f l w') as [[bs'|] w''] eqn:Hrest; [|discriminate].
      injection H as <- _. simpl. f_equal. now apply (IH w' bs' w'').
Qed.

(** The enricher once the fan-out went through. *)
Lemma enrich_run sharedPair w promises w1 :
    mapM request (SharedPairInfo.exchanges sharedPair) w
    = (Fulfilled promises, w1) ->
    enrich sharedPair w
    = (match all_fulfilled promises with
       | Some results =>
           let validTickers :=
             Quotes.collect
               (Quotes.usable (SharedPairInfo.exchanges sharedPair) results) in
           if 2 <=? JsMap.size validTickers
           then Some (EnrichedPair.Build
                        (SharedPairInfo.symbol sharedPair)
                        (SharedPairInfo.exchanges sharedPair)
                        validTickers)
           else None
       | None => None
       end, w1).
Proof.
    intro Hmap.
    unfold ArbitrageService._enrichSinglePairWithTickers, try_catch.
    unfold bind at 1. rewrite Hmap.
    unfold bind at 1. unfold Promise_all.
    destruct (all_fulfilled promises) as [results|] eqn:Hall;
      [|reflexivity].
    unfold ret at 1. unfold bind, lift.
    rewrite forEachTicker_usable.
    - reflexivity.
    - apply all_fulfilled_length in Hall.
      apply mapM_length in Hmap. simpl. lia.
Qed.

(** The enricher when a member's source is not registered. *)
Lemma enrich_thrown sharedPair w w1 :
    mapM request (SharedPairInfo.exchanges sharedPair) w = (Rejected, w1) ->
    enrich sharedPair w = (None, w1).
Proof.
    intro Hmap.
    unfold ArbitrageService._enrichSinglePairWithTickers, try_catch.
    unfold bind at 1. now rewrite Hmap.
Qed.

(** An enriched group carries a real map with at least two entries. *)
Lemma enrich_some sharedPair w enrichedPair w1 :
    enrich sharedPair w = (Some enrichedPair, w1) ->
    JsMap.wf (EnrichedPair.tickers enrichedPair) /\
    2 <= JsMap.size (EnrichedPair.tickers enrichedPair) /\
    EnrichedPair.symbol enrichedPair = SharedPairInfo.symbol sharedPair /\
    EnrichedPair.exchanges enrichedPair = SharedPairInfo.exchanges sharedPair.
Proof.
    intro H.
    destruct (mapM request (SharedPairInfo.exchanges sharedPair) w)
      as [[promises|] w'] eqn:Hmap.
    - rewrite (@enrich_run sharedPair w promises w' Hmap) in H.
      destruct (all_fulfilled promises) as [results|]; [|discriminate].
      cbv zeta in H.
      destruct (Nat.leb_spec 2
                  (JsMap.size
                     (Quotes.collect
                        (Quotes.usable (SharedPairInfo.exchanges sharedPair)
                           results)))) as [Hsz|Hsz]; [|discriminate].
      injection H as <- _. simpl.
      repeat split; [apply collect_wf | exact Hsz].
    - rewrite (@enrich_thrown sharedPair w w' Hmap) in H. discriminate.
Qed.

(** The sources of an enriched group are registered. *)
Lemma enrich_registered sharedPair w enrichedPair w1 name :
  enrich sharedPair w = (Some enrichedPair, w1) ->
  In name (JsMap.keys (EnrichedPair.tickers enrichedPair)) ->
  JsMap.get exchangeRepositories name <> None.
Proof.
  intros H Hin.
  destruct (mapM request (SharedPairInfo.exchanges sharedPair) w)
    as [[promises|] w'] eqn:Hmap.
  2:{ rewrite (@enrich_thrown sharedPair w w' Hmap) in H. discriminate. }
  rewrite (@enrich_run sharedPair w promises w' Hmap) in H.
  destruct (all_fulfilled promises) as [results|]; [|discriminate].
  cbv zeta in H.
  destruct (2 <=? _); [|discriminate].
  injection H as <- _. simpl in Hin.
  rewrite keys_collect in Hin.
  apply (proj1 (FirstSeenFacts.In_firstSeen _ _)) in Hin.
  apply usable_names in Hin.
  apply in_map_iff in Hin. destruct Hin as (ex & <- & Hex).
  apply requests_issued in Hmap.
  destruct (@Forall2_from_left _ _ _ _ _ ex Hmap Hex)
    as (p & _ & repo & _ & Hrepo & _).
  congruence.
Qed.

End Run.

End EnricherFacts.

(** ** Pipeline controller *)

Module PipelineFacts.
Section Facts.

Variable World : Type.
Variable exchangeRepositories : JsMap.t (IExchangeRepository.t World).
Variable config : ArbitrageConfig.t.

Local Abbreviation enrich :=
  (ArbitrageService._enrichSinglePairWithTickers exchangeRepositories).
Local Abbreviation find :=
  (ArbitrageService._findOpportunitiesInSinglePair config).
Local Abbreviation validate :=
  (ArbitrageService._validateSingleOpportunity exchangeRepositories).
Local Abbreviation validateEach :=
  (ArbitrageService.validateEach exchangeRepositories).
Local Abbreviation analyse :=
  (ArbitrageService.analyse exchangeRepositories config).
Local Abbreviation streamFrom :=
  (ArbitrageService.streamFrom exchangeRepositories config).
Local Abbreviation stream :=
  (ArbitrageService.streamOpportunities exchangeRepositories config).
Local Abbreviation candidatesOf :=
  (Trace.candidatesOf exchangeRepositories config).

Lemma yields_app (a b : list Event) :
  Trace.yields (a ++ b) = Trace.yields a ++ Trace.yields b.
Proof. apply flat_map_app. Qed.

Lemma yields_map_EvYield (os : list Opportunity.t) :
  Trace.yields (map EvYield os) = os.
Proof. induction os as [|o os IH]; simpl; [|rewrite IH]; reflexivity. Qed.

Lemma in_yields (o : Opportunity.t) (events : list Event) :
  In o (Trace.yields events) <-> In (EvYield o) events.
Proof.
  unfold Trace.yields. rewrite in_flat_map. split.
  - intros [e [He Ho]]. destruct e; simpl in Ho; try contradiction.
    destruct Ho as [->|[]]. exact He.
  - intro H. exists (EvYield o). split; [exact H | now left].
Qed.

(** The inner loop yields, in order, the candidates that validation
    lets through. *)
Lemma validateEach_verdicts candidates :
  forall w, exists verdicts,
    Forall2 Trace.verdict candidates verdicts /\
    fst (validateEach candidates w) = map EvYield (Trace.kept verdicts).
Proof.
  induction candidates as [|c candidates IH]; intro w; simpl.
  - exists []. split; [constructor | reflexivity].
  - destruct (validate c w) as [r w1] eqn:Hv.
    destruct (IH w1) as (verdicts & Hall & Hev).
    destruct (validateEach candidates w1) as [events w2]. simpl in Hev.
    exists (r :: verdicts). split.
    + constructor; [|exact Hall].
      destruct r as [o'|]; [right | now left].
      apply ValidatorFacts.validate_some in Hv.
      destruct Hv as (_ & _ & s1 & s2 & s3 & s4 & _ & _ & _ & ->).
      now exists s1, s2, s3, s4.
    + destruct r; simpl; now rewrite Hev.
Qed.

(** One turn of the loop. *)
Lemma analyse_events total i sharedPair w :
  fst (analyse total i sharedPair w)
  = match candidatesOf sharedPair w with
    | [] => [EvProgress (SharedPairInfo.symbol sharedPair) (i + 1) total]
    | candidates =>
        EvProgress (SharedPairInfo.symbol sharedPair) (i + 1) total
          :: fst (validateEach candidates (snd (enrich sharedPair w)))
          ++ [EvDelay 30]
    end.
Proof.
  unfold ArbitrageService.analyse, Trace.candidatesOf.
  destruct (enrich sharedPair w) as [[enrichedPair|] w1]; [|reflexivity].
  destruct (find enrichedPair) as [|c candidates]; [reflexivity|].
  simpl snd.
  now destruct (validateEach (c :: candidates) w1).
Qed.

Lemma analyse_shape total i sharedPair w :
  Trace.turnShape (SharedPairInfo.symbol sharedPair) total
    (candidatesOf sharedPair w) (fst (analyse total i sharedPair w)).
Proof.
  rewrite analyse_events. unfold Trace.turnShape.
  destruct (candidatesOf sharedPair w) as [|c candidates].
  - now exists (i + 1).
  - destruct (validateEach_verdicts (c :: candidates)
                (snd (enrich sharedPair w))) as (verdicts & _ & ->).
    now exists (i + 1), (Trace.kept verdicts).
Qed.

(** The position shown in the progress line has no influence on what a
    turn yields or on the world it leaves. *)
Lemma analyse_position total i total' i' sharedPair w :
  Trace.yields (fst (analyse total i sharedPair w))
  = Trace.yields (fst (analyse total' i' sharedPair w)) /\
  snd (analyse total i sharedPair w) = snd (analyse total' i' sharedPair w).
Proof.
  unfold ArbitrageService.analyse.
  destruct (enrich sharedPair w) as [[enrichedPair|] w1];
    [|split; reflexivity].
  destruct (find enrichedPair) as [|c candidates]; [split; reflexivity|].
  destruct (validateEach (c :: candidates) w1); split; reflexivity.
Qed.

Lemma streamFrom_position pending :
  forall total i total' i' w,
    Trace.yields (fst (streamFrom total i pending w))
    = Trace.yields (fst (streamFrom total' i' pending w)) /\
    snd (streamFrom total i pending w) = snd (streamFrom total' i' pending w).
Proof.
  induction pending as [|g pending IH]; intros total i total' i' w; simpl.
  - split; reflexivity.
  - destruct (analyse_position total i total' i' g w) as [Hy Hw].
    destruct (analyse total i g w) as [e1 w1].
    destruct (analyse total' i' g w) as [e1' w1'].
    simpl in Hy, Hw. subst w1'.
    destruct (IH total (S i) total' (S i') w1) as [Hy' Hw'].
    destruct (streamFrom total (S i) pending w1) as [e2 w2].
    destruct (streamFrom total' (S i') pending w1) as [e2' w2'].
    simpl in *. rewrite !yields_app, Hy, Hy'. split; [reflexivity | exact Hw'].
Qed.

Lemma streamFrom_app pending1 :
  forall pending2 total i w,
    streamFrom total i (pending1 ++ pending2) w
    = (fst (streamFrom total i pending1 w)
         ++ fst (streamFrom total (i + List.length pending1) pending2
                   (snd (streamFrom total i pending1 w))),
       snd (streamFrom total (i + List.length pending1) pending2
              (snd (streamFrom total i pending1 w)))).
Proof.
  induction pending1 as [|g pending1 IH]; intros pending2 total i w; simpl.
  - rewrite Nat.add_0_r. now destruct (streamFrom total i pending2 w).
  - destruct (analyse total i g w) as [e1 w1].
    rewrite IH.
    destruct (streamFrom total (S i) pending1 w1) as [e2 w2]. simpl.
    rewrite <- Nat.add_succ_comm, app_assoc. reflexivity.
Qed.

Lemma streamFrom_yield pending :
  forall total i w o,
    In (EvYield o) (fst (streamFrom total i pending w)) ->
    exists sharedPair total' i' w',
      In sharedPair pending /\
      In (EvYield o) (fst (analyse total' i' sharedPair w')).
Proof.
  induction pending as [|g pending IH]; intros total i w o; simpl; [tauto|].
  destruct (analyse total i g w) as [e1 w1] eqn:Ha.
  destruct (streamFrom total (S i) pending w1) as [e2 w2] eqn:Hs.
  simpl. intro H. apply in_app_or in H. destruct H as [H|H].
  - exists g, total, i, w. rewrite Ha. split; [now left | exact H].
  - destruct (IH total (S i) w1 o) as (g' & t' & i' & w' & Hin & Hy).
    { now rewrite Hs. }
    exists g', t', i', w'. split; [now right | exact Hy].
Qed.

Lemma yields_stream sharedPairs w :
  Trace.yields (fst (stream sharedPairs w))
  = Trace.yields (fst (streamFrom 0 0 sharedPairs w)) /\
  snd (stream sharedPairs w) = snd (streamFrom 0 0 sharedPairs w).
Proof.
  unfold ArbitrageService.streamOpportunities.
  destruct (streamFrom_position sharedPairs
              (List.length sharedPairs) 0 0 0 w) as [Hy Hw].
  destruct (streamFrom (List.length sharedPairs) 0 sharedPairs w)
    as [events w'].
  simpl in *. rewrite yields_app, Hy. simpl. now rewrite app_nil_r.
Qed.

Lemma stream_single sharedPair w :
  fst (stream [sharedPair] w)
  = fst (analyse 1 0 sharedPair w) ++ [EvDone 1].
Proof.
  unfold ArbitrageService.streamOpportunities. simpl.
  destruct (analyse 1 0 sharedPair w). simpl. now rewrite app_nil_r.
Qed.

(** What a turn yields. *)
Lemma turn_yields total i sharedPair w :
  exists verdicts,
    Forall2 Trace.verdict (candidatesOf sharedPair w) verdicts /\
    Trace.yields (fst (analyse total i sharedPair w)) = Trace.kept verdicts.
Proof.
  rewrite analyse_events.
  destruct (candidatesOf sharedPair w) as [|c candidates].
  - exists []. split; [constructor | reflexivity].
  - destruct (validateEach_verdicts (c :: candidates)
                (snd (enrich sharedPair w))) as (verdicts & Hall & ->).
    exists verdicts. split; [exact Hall|].
    change (EvProgress ?a ?b ?c :: ?l) with ([EvProgress a b c] ++ l).
    rewrite !yields_app, yields_map_EvYield.
    simpl. now rewrite app_nil_r.
Qed.

(** Where a yielded opportunity comes from. *)
Lemma turn_yield total i sharedPair w o :
  In (EvYield o) (fst (analyse total i sharedPair w)) ->
  exists enrichedPair w1 c s1 s2 s3 s4,
    enrich sharedPair w = (Some enrichedPair, w1) /\
    In c (find enrichedPair) /\
    o = ArbitrageService.validated c s1 s2 s3 s4.
Proof.
  rewrite analyse_events. unfold Trace.candidatesOf.
  destruct (enrich sharedPair w) as [[enrichedPair|] w1] eqn:He.
  2:{ intros [H|[]]. discriminate. }
  destruct (find enrichedPair) as [|c0 candidates] eqn:Hf.
  { intros [H|[]]. discriminate. }
  simpl snd.
  destruct (validateEach_verdicts (c0 :: candidates) w1)
    as (verdicts & Hall & ->).
  intros [H|H]; [discriminate|].
  apply in_app_or in H. destruct H as [H|[H|[]]]; [|discriminate].
  apply in_map_iff in H. destruct H as (o' & Ho' & Hin). injection Ho' as ->.
  unfold Trace.kept in Hin. apply in_flat_map in Hin.
  destruct Hin as ([r|] & Hr & Hor); [|contradiction].
  destruct Hor as [->|[]].
  destruct (@Forall2_from_right _ _ _ _ _ _ Hall Hr) as [c [Hc Hv]].
  destruct Hv as [Hv|(s1 & s2 & s3 & s4 & Hv)]; [discriminate|].
  injection Hv as ->.
  exists enrichedPair, w1, c, s1, s2, s3, s4.
  rewrite Hf. repeat split. exact Hc.
Qed.

(** Every yielded opportunity is a detected candidate of an enriched
    group, with a validation record attached. *)
Lemma yield_origin o :
  Trace.yielded exchangeRepositories config o ->
  exists sharedPair w enrichedPair w1 c s1 s2 s3 s4,
    enrich sharedPair w = (Some enrichedPair, w1) /\
    In c (find enrichedPair) /\
    o = ArbitrageService.validated c s1 s2 s3 s4.
Proof.
  intros (sharedPairs & w & H).
  unfold ArbitrageService.streamOpportunities in H.
  destruct (streamFrom (List.length sharedPairs) 0 sharedPairs w)
    as [events w'] eqn:Hs.
  simpl in H. apply in_app_or in H. destruct H as [H|[H|[]]]; [|discriminate].
  destruct (@streamFrom_yield sharedPairs (List.length sharedPairs) 0 w o)
    as (g & t' & i' & w0 & _ & Hy).
  { now rewrite Hs. }
  apply turn_yield in Hy.
  destruct Hy as (ep & w1 & c & s1 & s2 & s3 & s4 & He & Hc & Ho).
  now exists g, w0, ep, w1, c, s1, s2, s3, s4.
Qed.

(** The two sources of a candidate of an enriched group are registered,
    so its validation issues the four lookups. *)
Lemma candidate_sources_registered sharedPair w enrichedPair w1 c :
  enrich sharedPair w = (Some enrichedPair, w1) ->
  In c (find enrichedPair) ->
  JsMap.get exchangeRepositories
    (Opportunity.exchange (Opportunity.buyAt c)) <> None /\
  JsMap.get exchangeRepositories
    (Opportunity.exchange (Opportunity.sellAt c)) <> None.
Proof.
  intros He Hc. apply SpreadFacts.in_find in Hc.
  destruct Hc as (i & j & [bx bt] & [sx st] & _ & Hi & Hj & _ & _ & _ & ->).
  simpl. apply nth_error_In in Hi. apply nth_error_In in Hj.
  split; eapply EnricherFacts.enrich_registered; try exact He;
    unfold JsMap.keys, JsMap.entries in *.
  - now apply (in_map fst) in Hi.
  - now apply (in_map fst) in Hj.
Qed.

(** Every yielded opportunity is a detected one, validated. *)
Lemma yielded_detected o :
  Trace.yielded exchangeRepositories config o ->
  exists c s1 s2 s3 s4,
    Trace.detected config c /\
    o = ArbitrageService.validated c s1 s2 s3 s4.
Proof.
  intro H. apply yield_origin in H.
  destruct H as (g & w & ep & w1 & c & s1 & s2 & s3 & s4 & He & Hc & Ho).
  exists c, s1, s2, s3, s4. split; [|exact Ho].
  exists ep. split; [|exact Hc].
  now apply EnricherFacts.enrich_some in He.
Qed.

(** The loop as a sequence of turns. *)
Lemma streamFrom_turns pending :
  forall total i w,
    fst (streamFrom total i pending w)
    = List.concat (map snd (Trace.turns exchangeRepositories config
                         total i pending w)) /\
    map (fun t => fst (fst t))
        (Trace.turns exchangeRepositories config total i pending w)
    = pending /\
    Forall
      (fun t =>
         Trace.turnShape (SharedPairInfo.symbol (fst (fst t))) total
           (candidatesOf (fst (fst t)) (snd (fst t))) (snd t))
      (Trace.turns exchangeRepositories config total i pending w).
Proof.
  induction pending as [|g pending IH]; intros total i w; simpl.
  - repeat split; constructor.
  - pose proof (analyse_shape total i g w) as Hshape.
    destruct (analyse total i g w) as [e1 w1].
    destruct (IH total (S i) w1) as (Hev & Hgs & Hall).
    destruct (streamFrom total (S i) pending w1) as [e2 w2].
    simpl in *. rewrite Hev, Hgs. repeat split.
    constructor; [exact Hshape | exact Hall].
Qed.

End Facts.
End PipelineFacts.

(** ** Pair resolver *)

Module ResolverFacts.

Import Listing.

(** *** Maps presented by their keys *)

Section Presented.

Context {V : Type}.
Implicit Types (f : string -> V) (ks : list string).

Lemma get_presented f ks s :
    In s ks -> JsMap.get (map (fun k => (k, f k)) ks) s = Some (f s).
Proof.
    induction ks as [|k ks IH]; simpl; [tauto|].
    destruct (String.eqb_spec s k) as [->|Hne]; [reflexivity|].
    intros [H|H]; [congruence | now apply IH].
Qed.

Lemma keys_presented f ks : JsMap.keys (map (fun k => (k, f k)) ks) = ks.
Proof.
    unfold JsMap.keys. rewrite map_map. simpl. apply map_id.
Qed.

Lemma set_presented f ks s v :
    NoDup ks -> In s ks ->
    JsMap.set (map (fun k => (k, f k)) ks) s v
    = map (fun k => (k, if String.eqb k s then v else f k)) ks.
Proof.
    induction 1 as [|k ks Hnin Hnd IH]; simpl; [tauto|].
    intros Hin.
    destruct (String.eqb_spec s k) as [->|Hne].
    - rewrite String.eqb_refl. f_equal.
      apply map_ext_in. intros k' Hk'.
      destruct (String.eqb_spec k' k) as [->|_]; [contradiction | reflexivity].
    - destruct (String.eqb_spec k s) as [->|_]; [congruence|].
      f_equal. apply IH. destruct Hin; [congruence | assumption].
Qed.

Lemma get_last (m : JsMap.t V) s v :
    ~ In s (JsMap.keys m) -> JsMap.get (m ++ [(s, v)]) s = Some v.
Proof.
    induction m as [|[k' v'] m IH]; simpl; intro Hnin.
    - now rewrite String.eqb_refl.
    - destruct (String.eqb_spec s k') as [->|_]; [tauto|].
      apply IH. tauto.
Qed.

Lemma set_last (m : JsMap.t V) s v v' :
    ~ In s (JsMap.keys m) ->
    JsMap.set (m ++ [(s, v)]) s v' = m ++ [(s, v')].
Proof.
    induction m as [|[k' v0] m IH]; simpl; intro Hnin.
    - now rewrite String.eqb_refl.
    - destruct (String.eqb_spec s k') as [->|_]; [tauto|].
      f_equal. apply IH. tauto.
Qed.

End Presented.

(** *** The listings of a symbol *)

Lemma membersOf_snoc symbol L m :
  membersOf symbol (L ++ [m])
  = membersOf symbol L
      ++ (if String.eqb (symbolOf m) symbol then [m] else []).
Proof. unfold membersOf. now rewrite filter_app. Qed.

Lemma membersOf_unlisted symbol L :
  ~ In symbol (map symbolOf L) -> membersOf symbol L = [].
Proof.
  induction L as [|m L IH]; simpl; [reflexivity|]. intro Hnin.
  destruct (String.eqb_spec (symbolOf m) symbol) as [Heq|_]; [tauto|].
  apply IH. tauto.
Qed.

Lemma in_membersOf symbol L m :
  In m (membersOf symbol L) <-> In m L /\ symbolOf m = symbol.
Proof. unfold membersOf. now rewrite filter_In, String.eqb_eq. Qed.

(** *** The map built by the two nested loops *)

(** The map that holds, for each symbol in order of first listing, the
    listings of that symbol in order. *)
Local Abbreviation presented L :=
  (map (fun s => (s, membersOf s L)) (firstSeen (map symbolOf L))).

Lemma register_presented L m :
  ArbitrageService.register (presented L) m = presented (L ++ [m]).
Proof.
  unfold ArbitrageService.register. fold (symbolOf m).
  rewrite map_app. simpl. rewrite FirstSeenFacts.firstSeen_snoc.
  destruct (JsString.includes (map symbolOf L) (symbolOf m)) eqn:Hinc.
  - assert (Hin : In (symbolOf m) (firstSeen (map symbolOf L))).
    { apply FirstSeenFacts.In_firstSeen.
      now apply JsStringFacts.includes_In. }
    rewrite app_nil_r.
    replace (JsMap.has (presented L) (symbolOf m)) with true.
    2:{ symmetry. apply JsMapFacts.has_true. now rewrite keys_presented. }
    rewrite get_presented by exact Hin.
    rewrite set_presented
      by (try apply FirstSeenFacts.NoDup_firstSeen; exact Hin).
    apply map_ext. intro s. f_equal. rewrite membersOf_snoc.
    destruct (String.eqb_spec s (symbolOf m)) as [->|Hne].
    + now rewrite String.eqb_refl.
    + destruct (String.eqb_spec (symbolOf m) s) as [Heq|_]; [congruence|].
      now rewrite app_nil_r.
  - assert (Hnin : ~ In (symbolOf m) (map symbolOf L)).
    { rewrite <- JsStringFacts.includes_In. congruence. }
    assert (Hnk : ~ In (symbolOf m) (JsMap.keys (presented L))).
    { now rewrite keys_presented, FirstSeenFacts.In_firstSeen. }
    replace (JsMap.has (presented L) (symbolOf m)) with false.
    2:{ symmetry. now apply JsMapFacts.has_false. }
    rewrite JsMapFacts.set_absent by exact Hnk.
    rewrite get_last by exact Hnk.
    rewrite set_last by exact Hnk.
    rewrite map_app. simpl. f_equal.
    + apply map_ext_in. intros s Hs. f_equal. rewrite membersOf_snoc.
      destruct (String.eqb_spec (symbolOf m) s) as [Heq|_];
        [|now rewrite app_nil_r].
      subst s. exfalso. apply Hnin.
      exact (proj1 (FirstSeenFacts.In_firstSeen _ _) Hs).
    + rewrite membersOf_snoc, String.eqb_refl.
      now rewrite membersOf_unlisted.
Qed.

Lemma fold_register L :
  fold_left ArbitrageService.register L JsMap.empty = presented L.
Proof.
  induction L as [|m L IH] using rev_ind; [reflexivity|].
  now rewrite fold_left_app, IH; simpl; rewrite register_presented.
Qed.

Section WithConfig.

Variable config : ArbitrageConfig.t.

Local Abbreviation keep :=
    (fun m => negb (ArbitrageService.filteredOut config (Member.pairData m))).

(** The two nested loops visit the listings in order and register
    those the filter lets through. *)
Lemma collectPairs_listings exchangeData :
    ArbitrageService.collectPairs config exchangeData
    = fold_left ArbitrageService.register (listings config exchangeData)
        JsMap.empty.
Proof.
    unfold ArbitrageService.collectPairs, listings, allListings.
    generalize (@JsMap.empty (list Member.t)) as pairMap.
    induction exchangeData as [|exchange rest IH]; intro pairMap; simpl;
      [reflexivity|].
    rewrite IH, filter_app, fold_left_app. f_equal.
    generalize pairMap as pm.
    induction (ExchangeData.pairs exchange) as [|pair pairs IHp]; intro pm;
      simpl; [reflexivity|].
    unfold ArbitrageService.addListing at 2.
    destruct (ArbitrageService.filteredOut config pair); simpl;
      now rewrite IHp.
Qed.

Lemma collectPairs_presented exchangeData :
    ArbitrageService.collectPairs config exchangeData
    = presented (listings config exchangeData).
Proof. now rewrite collectPairs_listings, fold_register. Qed.

(** The last loop keeps the entries with at least two listings. *)
Lemma groups_of_presented (g : string -> list Member.t) ks :
    forall acc,
      fold_left
        (fun sharedPairs (entry : string * list Member.t) =>
           let (symbol, exchanges) := entry in
           if 2 <=? List.length exchanges
           then sharedPairs ++ [SharedPairInfo.Build symbol exchanges]
           else sharedPairs)
        (map (fun s => (s, g s)) ks) acc
      = acc ++ map (fun s => SharedPairInfo.Build s (g s))
                   (filter (fun s => 2 <=? List.length (g s)) ks).
Proof.
    induction ks as [|s ks IH]; intro acc; cbn [map fold_left filter].
    - now rewrite app_nil_r.
    - rewrite IH.
      destruct (2 <=? List.length (g s)); cbn [map]; [|reflexivity].
      now rewrite <- app_assoc.
Qed.

(** The resolver: one group per symbol with at least two listings, in
    order of first listing, holding the listings of the symbol in
    order. *)
Lemma findSharedPairs_listings exchangeData :
    ArbitrageService.findSharedPairs config exchangeData
    = map (fun s =>
             SharedPairInfo.Build s
               (membersOf s (listings config exchangeData)))
          (filter
             (fun s =>
                2 <=? List.length (membersOf s (listings config exchangeData)))
             (firstSeen (map symbolOf (listings config exchangeData)))).
Proof.
    unfold ArbitrageService.findSharedPairs.
    rewrite collectPairs_presented. unfold JsMap.entries.
    now rewrite groups_of_presented.
Qed.

(** When no source lists a symbol twice, the listings of a symbol are as
    many as the distinct sources that list it, and the groups are the
    symbols listed by at least two distinct sources. *)
Lemma sources_count symbol L :
  NoDup (map (fun m => (Member.name m, symbolOf m)) L) ->
  List.length (sourcesOf symbol L) = List.length (membersOf symbol L).
Proof.
  intro Hnd. unfold sourcesOf.
  rewrite FirstSeenFacts.firstSeen_NoDup; [apply length_map|].
  induction L as [|m L IH]; simpl; [constructor|].
  inversion Hnd as [|? ? Hnin Hnd']; subst.
  destruct (String.eqb_spec (symbolOf m) symbol) as [Heq|_];
    [|now apply IH].
  simpl. constructor; [|now apply IH].
  intro Hin. apply in_map_iff in Hin. destruct Hin as (m' & Hname & Hm').
  apply in_membersOf in Hm'. destruct Hm' as [Hm' Hsym].
  apply Hnin. apply in_map_iff. exists m'. split; [|exact Hm'].
  now rewrite Hname, Hsym, Heq.
Qed.

Lemma findSharedPairs_sources exchangeData :
  NoDup (map (fun m => (Member.name m, symbolOf m))
           (listings config exchangeData)) ->
  ArbitrageService.findSharedPairs config exchangeData
  = map (fun s =>
           SharedPairInfo.Build s
             (membersOf s (listings config exchangeData)))
        (filter
           (fun s =>
              2 <=? List.length (sourcesOf s (listings config exchangeData)))
           (firstSeen (map symbolOf (listings config exchangeData)))).
Proof.
  intro Hnd. rewrite findSharedPairs_listings. f_equal.
  apply filter_ext. intro s. now rewrite sources_count.
Qed.

End WithConfig.

End ResolverFacts.

(* ================================================================== *)
(** * The claims *)

Section Claims.

Variable World : Type.
Variable exchangeRepositories : JsMap.t (IExchangeRepository.t World).
Variable config : ArbitrageConfig.t.

(** C1, as amended.  Every opportunity the spread detector emits, and so
    every opportunity the pipeline yields, sells above the buying price;
    its spread [(sellAt.price - buyAt.price) / buyAt.price * 100], before
    rounding, is at least [minProfitPercentage]; and the stored
    [profitPercentage] is that spread rounded to 4 decimals.  Nothing is
    said on how the rounded value compares with the threshold. *)
Theorem emitted_opportunity_sound (o : Opportunity.t) :
  Trace.detected config o \/ Trace.yielded exchangeRepositories config o ->
  JsNumber.gt (Opportunity.price (Opportunity.sellAt o))
              (Opportunity.price (Opportunity.buyAt o)) = true /\
  JsNumber.ge (Spread.ofOpportunity o)
              (ArbitrageConfig.minProfitPercentage config) = true /\
  Opportunity.profitPercentage o = JsNumber.toFixed4 (Spread.ofOpportunity o).
Proof.
  assert (Hdet : forall c, Trace.detected config c ->
            JsNumber.gt (Opportunity.price (Opportunity.sellAt c))
                        (Opportunity.price (Opportunity.buyAt c)) = true /\
            JsNumber.ge (Spread.ofOpportunity c)
                        (ArbitrageConfig.minProfitPercentage config) = true /\
            Opportunity.profitPercentage c
            = JsNumber.toFixed4 (Spread.ofOpportunity c)).
  { intros c (ep & _ & Hin).
    apply SpreadFacts.find_sound in Hin.
    destruct Hin as (_ & Hgt & Hge & Hp & _). auto. }
  intros [H|H]; [now apply Hdet|].
  apply PipelineFacts.yielded_detected in H.
  destruct H as (c & s1 & s2 & s3 & s4 & Hc & ->).
  exact (Hdet c Hc).
Qed.

(** C3, as amended.  For an enriched group with entries [T], the detector
    emits exactly the opportunities of the ordered pairs [(i, j)],
    [i <> j], with [T[i].ask > 0], [T[j].bid > T[i].ask] and a spread of at
    least [minProfitPercentage]; the opportunity of such a pair buys on
    source [i] at its ask and sells on source [j] at its bid.  Whether
    [(i, j)] is emitted depends on entries [i] and [j] only, so [(i, j)]
    and [(j, i)] do not suppress each other. *)
Theorem detector_emits_iff (enrichedPair : EnrichedPair.t) (o : Opportunity.t) :
  In o (ArbitrageService._findOpportunitiesInSinglePair config enrichedPair)
  <->
  exists i j buy sell,
    i <> j /\
    nth_error (JsMap.entries (EnrichedPair.tickers enrichedPair)) i = Some buy /\
    nth_error (JsMap.entries (EnrichedPair.tickers enrichedPair)) j = Some sell /\
    JsNumber.gt (StandardTicker.ask (snd buy)) 0%float = true /\
    JsNumber.gt (StandardTicker.bid (snd sell))
                (StandardTicker.ask (snd buy)) = true /\
    JsNumber.ge (ArbitrageService.grossProfitPercentage (snd buy) (snd sell))
                (ArbitrageConfig.minProfitPercentage config) = true /\
    o = Opportunity.Build
          (EnrichedPair.symbol enrichedPair)
          (JsNumber.toFixed4
             (ArbitrageService.grossProfitPercentage (snd buy) (snd sell)))
          (Opportunity.BuildSide (fst buy) (StandardTicker.ask (snd buy)))
          (Opportunity.BuildSide (fst sell) (StandardTicker.bid (snd sell)))
          None.
Proof.
  rewrite SpreadFacts.in_find.
  split; intros (i & j & [bx bt] & [sx st] & H); exists i, j, (bx, bt), (sx, st);
    exact H.
Qed.

(** C10.  Every opportunity the spread detector emits over a [Map] of
    tickers, and so every opportunity the pipeline yields, buys and sells
    on two different sources. *)
Theorem buyer_and_seller_differ (o : Opportunity.t) :
  Trace.detected config o \/ Trace.yielded exchangeRepositories config o ->
  Opportunity.exchange (Opportunity.buyAt o)
  <> Opportunity.exchange (Opportunity.sellAt o).
Proof.
  intros [(ep & Hwf & Hin)|H].
  - eapply SpreadFacts.find_distinct; eassumption.
  - apply PipelineFacts.yielded_detected in H.
    destruct H as (c & s1 & s2 & s3 & s4 & (ep & Hwf & Hin) & ->).
    simpl. eapply SpreadFacts.find_distinct; eassumption.
Qed.

(** C9.  The opportunities of a run come out group by group in input
    order: a run over [first ++ second] yields what the run over [first]
    yields followed by what the run over [second] yields in the world the
    first run left.  Within a group they are the candidates of the spread
    detector that validation lets through, each with its validation
    attached, in the order of the candidates; and the candidates are in
    the order of the double loop over [(i, j)], [i] slowest. *)
Theorem yields_in_order :
  (forall first second w,
      Trace.yields
        (fst (ArbitrageService.streamOpportunities
                exchangeRepositories config (first ++ second) w))
      = Trace.yields
          (fst (ArbitrageService.streamOpportunities
                  exchangeRepositories config first w))
        ++ Trace.yields
             (fst (ArbitrageService.streamOpportunities
                     exchangeRepositories config second
                     (snd (ArbitrageService.streamOpportunities
                             exchangeRepositories config first w))))) /\
  (forall sharedPair w,
      exists verdicts,
        Forall2 Trace.verdict
          (Trace.candidatesOf exchangeRepositories config sharedPair w)
          verdicts /\
        Trace.yields
          (fst (ArbitrageService.streamOpportunities
                  exchangeRepositories config [sharedPair] w))
        = Trace.kept verdicts) /\
  (forall enrichedPair,
      ArbitrageService._findOpportunitiesInSinglePair config enrichedPair
      = flat_map
          (Spread.candidateAt config (EnrichedPair.symbol enrichedPair)
             (JsMap.entries (EnrichedPair.tickers enrichedPair)))
          (Spread.indexPairs
             (List.length
                (JsMap.entries (EnrichedPair.tickers enrichedPair))))).
Proof.
  split; [|split].
  - intros first second w.
    destruct (PipelineFacts.yields_stream exchangeRepositories config
                (first ++ second) w) as [-> _].
    destruct (PipelineFacts.yields_stream exchangeRepositories config
                first w) as [-> ->].
    destruct (PipelineFacts.yields_stream exchangeRepositories config second
                (snd (ArbitrageService.streamFrom exchangeRepositories config
                        0 0 first w))) as [-> _].
    rewrite PipelineFacts.streamFrom_app. simpl fst.
    rewrite PipelineFacts.yields_app. f_equal.
    apply PipelineFacts.streamFrom_position.
  - intros sharedPair w.
    rewrite PipelineFacts.stream_single, PipelineFacts.yields_app.
    simpl. rewrite app_nil_r.
    apply PipelineFacts.turn_yields.
  - apply SpreadFacts.find_enumerates.
Qed.

(** C8, as amended.  The events of a run are those of its turns, one turn
    per group in input order, followed by the final line.  The turn of a
    group for which the detector finds at least one candidate ends with a
    delay of 30 ms, after the yields of the group and also when the group
    is the last one; the turn of a group that is not enriched, or has no
    candidate, is its progress line alone. *)
Theorem delay_follows_fruitful_turns (sharedPairs : list SharedPairInfo.t)
    (w : World) :
  fst (ArbitrageService.streamOpportunities
         exchangeRepositories config sharedPairs w)
  = List.concat
      (map snd
         (Trace.turns exchangeRepositories config
            (List.length sharedPairs) 0 sharedPairs w))
    ++ [EvDone (List.length sharedPairs)] /\
  map (fun t => fst (fst t))
      (Trace.turns exchangeRepositories config
         (List.length sharedPairs) 0 sharedPairs w)
  = sharedPairs /\
  Forall
    (fun t =>
       Trace.turnShape
         (SharedPairInfo.symbol (fst (fst t))) (List.length sharedPairs)
         (Trace.candidatesOf exchangeRepositories config
            (fst (fst t)) (snd (fst t)))
         (snd t))
    (Trace.turns exchangeRepositories config
       (List.length sharedPairs) 0 sharedPairs w).
Proof.
  destruct (PipelineFacts.streamFrom_turns exchangeRepositories config
              sharedPairs (List.length sharedPairs) 0 w) as (Hev & Hgs & Hall).
  unfold ArbitrageService.streamOpportunities.
  destruct (ArbitrageService.streamFrom exchangeRepositories config
              (List.length sharedPairs) 0 sharedPairs w) as [events w'].
  simpl in *. rewrite Hev. repeat split; assumption.
Qed.

(** C4, as amended.  When the source of every member is registered, one
    ticker request per member is issued.  If any request throws, the
    group is discarded.  If none throws, a request that resolves to no
    ticker excludes that member only: the map of tickers holds the
    sources of the usable tickers, in member order, each with one of its
    usable tickers, and the group is enriched when that map has at least
    2 sources and discarded otherwise.  For members of pairwise-distinct
    sources the map holds every usable ticker, so such a group is
    discarded exactly when fewer than 2 usable tickers remain. *)
Theorem enricher_policy (sharedPair : SharedPairInfo.t) (w : World) :
  (forall ex, In ex (SharedPairInfo.exchanges sharedPair) ->
              JsMap.get exchangeRepositories (Member.name ex) <> None) ->
  exists promises w1,
    Effect.mapM (ArbitrageService.requestTicker exchangeRepositories)
      (SharedPairInfo.exchanges sharedPair) w
    = (Fulfilled promises, w1) /\
    Forall2 (Quotes.requested exchangeRepositories)
      (SharedPairInfo.exchanges sharedPair) promises /\
    (In Rejected promises ->
     ArbitrageService._enrichSinglePairWithTickers
       exchangeRepositories sharedPair w = (None, w1)) /\
    (forall results,
        Effect.all_fulfilled promises = Some results ->
        let kept :=
          Quotes.usable (SharedPairInfo.exchanges sharedPair) results in
        ArbitrageService._enrichSinglePairWithTickers
          exchangeRepositories sharedPair w
        = (if 2 <=? List.length (Listing.firstSeen (map fst kept))
           then Some (EnrichedPair.Build
                        (SharedPairInfo.symbol sharedPair)
                        (SharedPairInfo.exchanges sharedPair)
                        (Quotes.collect kept))
           else None, w1) /\
        JsMap.keys (Quotes.collect kept) = Listing.firstSeen (map fst kept) /\
        (forall e, In e (JsMap.entries (Quotes.collect kept)) -> In e kept) /\
        (NoDup (map Member.name (SharedPairInfo.exchanges sharedPair)) ->
         Quotes.collect kept = kept /\
         Listing.firstSeen (map fst kept) = map fst kept)).
Proof.
  intro Hreg.
  destruct (EnricherFacts.requests_go_through exchangeRepositories
              (SharedPairInfo.exchanges sharedPair) Hreg w)
    as (promises & w1 & Hmap).
  exists promises, w1. split; [exact Hmap|]. split; [|split].
  - eapply EnricherFacts.requests_issued. exact Hmap.
  - intro Hrej. apply EnricherFacts.all_fulfilled_None in Hrej.
    rewrite (@EnricherFacts.enrich_run _ exchangeRepositories
               sharedPair w promises w1 Hmap).
    now rewrite Hrej.
  - intros results Hall kept.
    rewrite (@EnricherFacts.enrich_run _ exchangeRepositories
               sharedPair w promises w1 Hmap).
    rewrite Hall. cbv zeta. fold kept.
    rewrite EnricherFacts.size_collect.
    split; [reflexivity|]. split; [apply EnricherFacts.keys_collect|].
    split; [intro e; apply EnricherFacts.collect_sound|].
    intro Hnd.
    assert (Hk : NoDup (map fst kept))
      by now apply EnricherFacts.usable_NoDup.
    split; [now apply EnricherFacts.collect_NoDup
           | now apply FirstSeenFacts.firstSeen_NoDup].
Qed.

(** C5.  With both sources of a candidate registered, the validator
    issues the four status lookups.  If any of them throws, it returns
    nothing.  If none throws, it returns the candidate with a full
    validation record, also when lookups resolve to no status: an absent
    status of the base asset on the buy source gives [canWithdraw = false],
    an absent one on the sell source gives [canDeposit = false]. *)
Theorem validator_fails_closed (o : Opportunity.t) (w : World)
    (buyRepository sellRepository : IExchangeRepository.t World) :
  JsMap.get exchangeRepositories
    (Opportunity.exchange (Opportunity.buyAt o)) = Some buyRepository ->
  JsMap.get exchangeRepositories
    (Opportunity.exchange (Opportunity.sellAt o)) = Some sellRepository ->
  (In Rejected (fst (Status.lookups buyRepository sellRepository o w)) ->
   ArbitrageService._validateSingleOpportunity exchangeRepositories o w
   = (None, snd (Status.lookups buyRepository sellRepository o w))) /\
  (~ In Rejected (fst (Status.lookups buyRepository sellRepository o w)) ->
   exists s1 s2 s3 s4 v,
     fst (Status.lookups buyRepository sellRepository o w)
     = [Fulfilled s1; Fulfilled s2; Fulfilled s3; Fulfilled s4] /\
     ArbitrageService._validateSingleOpportunity exchangeRepositories o w
     = (Some (ArbitrageService.validated o s1 s2 s3 s4),
        snd (Status.lookups buyRepository sellRepository o w)) /\
     Opportunity.validation (ArbitrageService.validated o s1 s2 s3 s4)
     = Some v /\
     Opportunity.canWithdraw (Opportunity.buyExchange v)
     = Status.mayWithdraw s1 /\
     Opportunity.canDeposit (Opportunity.sellExchange v)
     = Status.mayDeposit s3 /\
     (s1 = None -> Opportunity.canWithdraw (Opportunity.buyExchange v) = false) /\
     (s3 = None -> Opportunity.canDeposit (Opportunity.sellExchange v) = false)).
Proof.
  intros Hb Hs.
  rewrite (@ValidatorFacts.validate_run _ exchangeRepositories o w
             buyRepository sellRepository Hb Hs).
  assert (Hfour : exists o1 o2 o3 o4,
             fst (Status.lookups buyRepository sellRepository o w)
             = [o1; o2; o3; o4]).
  { unfold Status.lookups.
    destruct (IExchangeRepository.getAssetStatus buyRepository _ w)
      as [o1 w1].
    destruct (IExchangeRepository.getAssetStatus buyRepository _ w1)
      as [o2 w2].
    destruct (IExchangeRepository.getAssetStatus sellRepository _ w2)
      as [o3 w3].
    destruct (IExchangeRepository.getAssetStatus sellRepository _ w3)
      as [o4 w4].
    now exists o1, o2, o3, o4. }
  destruct Hfour as (o1 & o2 & o3 & o4 & ->).
  split.
  - intro Hrej.
    destruct o1, o2, o3, o4; try reflexivity.
    simpl in Hrej. repeat destruct Hrej as [Hrej|Hrej]; try discriminate.
    contradiction.
  - intro Hok.
    destruct o1 as [s1|]; [|exfalso; apply Hok; simpl; tauto].
    destruct o2 as [s2|]; [|exfalso; apply Hok; simpl; tauto].
    destruct o3 as [s3|]; [|exfalso; apply Hok; simpl; tauto].
    destruct o4 as [s4|]; [|exfalso; apply Hok; simpl; tauto].
    destruct (ValidatorFacts.validated_record o s1 s2 s3 s4)
      as (v & Hv & _ & Hcw & Hcd & _).
    exists s1, s2, s3, s4, v.
    repeat split; try assumption.
    + intros ->. exact Hcw.
    + intros ->. exact Hcd.
Qed.

(** C2.  Every opportunity the validator returns carries a validation
    record, built from the status [s1] the buy source reported for the
    base asset and the status [s3] the sell source reported for it:
    [commonNetworks] holds the withdrawal networks of [s1] that are among
    the deposit networks of [s3], in the order of [s1], so a network is in
    it exactly when it is in both; and [isExecutable] is true exactly when
    [s1] allows withdrawal, [s3] allows deposit and [commonNetworks] is
    not empty.  An absent status allows nothing and has no network. *)
Theorem validation_record_invariant (o o' : Opportunity.t) (w w' : World) :
  ArbitrageService._validateSingleOpportunity exchangeRepositories o w
  = (Some o', w') ->
  exists buyRepository sellRepository s1 s2 s3 s4 v,
    JsMap.get exchangeRepositories
      (Opportunity.exchange (Opportunity.buyAt o)) = Some buyRepository /\
    JsMap.get exchangeRepositories
      (Opportunity.exchange (Opportunity.sellAt o)) = Some sellRepository /\
    Status.lookups buyRepository sellRepository o w
    = ([Fulfilled s1; Fulfilled s2; Fulfilled s3; Fulfilled s4], w') /\
    Opportunity.validation o' = Some v /\
    Opportunity.commonNetworks v
    = filter (JsString.includes (Status.depositNetworksOf s3))
             (Status.withdrawNetworksOf s1) /\
    (forall net,
        In net (Opportunity.commonNetworks v) <->
        In net (Status.withdrawNetworksOf s1) /\
        In net (Status.depositNetworksOf s3)) /\
    Opportunity.canWithdraw (Opportunity.buyExchange v)
    = Status.mayWithdraw s1 /\
    Opportunity.canDeposit (Opportunity.sellExchange v)
    = Status.mayDeposit s3 /\
    (Opportunity.isExecutable v = true <->
     Opportunity.canWithdraw (Opportunity.buyExchange v) = true /\
     Opportunity.canDeposit (Opportunity.sellExchange v) = true /\
     Opportunity.commonNetworks v <> []).
Proof.
  intro H. apply ValidatorFacts.validate_some in H.
  destruct H as (b & s & s1 & s2 & s3 & s4 & Hb & Hs & Hl & ->).
  destruct (ValidatorFacts.validated_record o s1 s2 s3 s4)
    as (v & Hv & Hcommon & Hcw & Hcd & Hexec).
  exists b, s, s1, s2, s3, s4, v.
  repeat (split; [assumption|]).
  split; [|split; [assumption|split; [assumption|]]].
  - intro net. rewrite Hcommon, filter_In, JsStringFacts.includes_In.
    tauto.
  - rewrite Hexec, Hcw, Hcd, !andb_true_iff, Nat.ltb_lt.
    destruct (Opportunity.commonNetworks v); simpl.
    + split; [intros [_ Hlt]; lia | intros (_ & _ & Hne); congruence].
    + split; [intros [[Hw Hd] _] | intros (Hw & Hd & _)];
        repeat split; auto; [discriminate | lia].
Qed.

(** C7.  With a filter that is present and not empty, every member of
    every shared group has its quote asset in the filter, so a pair
    quoted in another asset is in no group, on however many sources it is
    listed.  With a filter that is absent or empty, no listing is left
    aside: any listing whose symbol is listed at least twice is a member
    of the group of its symbol. *)
Theorem quote_filter (exchangeData : list ExchangeData.t) :
  (forall allowed,
      ArbitrageConfig.quoteAssetsFilter config = Some allowed ->
      allowed <> [] ->
      forall sharedPair member,
        In sharedPair (ArbitrageService.findSharedPairs config exchangeData) ->
        In member (SharedPairInfo.exchanges sharedPair) ->
        In (StandardPair.quote (Member.pairData member)) allowed) /\
  (ArbitrageConfig.quoteAssetsFilter config = None \/
   ArbitrageConfig.quoteAssetsFilter config = Some [] ->
   forall member,
     In member (Listing.allListings exchangeData) ->
     2 <= List.length
            (Listing.membersOf (Listing.symbolOf member)
               (Listing.allListings exchangeData)) ->
     exists sharedPair,
       In sharedPair (ArbitrageService.findSharedPairs config exchangeData) /\
       SharedPairInfo.symbol sharedPair = Listing.symbolOf member /\
       In member (SharedPairInfo.exchanges sharedPair)).
Proof.
  rewrite ResolverFacts.findSharedPairs_listings. split.
  - intros allowed Hf Hne g m Hg Hm.
    apply in_map_iff in Hg. destruct Hg as (s & <- & _). simpl in Hm.
    apply ResolverFacts.in_membersOf in Hm. destruct Hm as [Hm _].
    unfold Listing.listings in Hm. apply filter_In in Hm.
    destruct Hm as [_ Hkeep]. apply negb_true_iff in Hkeep.
    unfold ArbitrageService.filteredOut, ArbitrageService.filterActive
      in Hkeep.
    rewrite Hf in Hkeep.
    destruct allowed as [|a allowed]; [congruence|]. simpl in Hkeep.
    apply negb_false_iff in Hkeep.
    now apply JsStringFacts.includes_In.
  - intros Hoff m Hm Hshared.
    assert (Hall : Listing.listings config exchangeData
                   = Listing.allListings exchangeData).
    { unfold Listing.listings.
      apply forallb_filter_id, forallb_forall. intros x _.
      unfold ArbitrageService.filteredOut, ArbitrageService.filterActive.
      now destruct Hoff as [-> | ->]. }
    rewrite Hall.
    exists (SharedPairInfo.Build (Listing.symbolOf m)
              (Listing.membersOf (Listing.symbolOf m)
                 (Listing.allListings exchangeData))).
    split; [|split; [reflexivity|]].
    + apply in_map_iff. exists (Listing.symbolOf m). split; [reflexivity|].
      apply filter_In. split.
      * apply FirstSeenFacts.In_firstSeen. now apply in_map.
      * now apply Nat.leb_le.
    + simpl. apply ResolverFacts.in_membersOf. now split.
Qed.

End Claims.

(* ================================================================== *)
(** * The scenarios of the specification *)

Section Scenarios.

Import Scenario.
Local Open Scope string_scope.

(** What the validation of each yielded opportunity says. *)
Local Abbreviation executability events :=
  (map (fun o =>
          option_map
            (fun v => (Opportunity.isExecutable v, Opportunity.commonNetworks v))
            (Opportunity.validation o))
       (Trace.yields events)).

(** Rounding to 4 decimals: down, up on a tie (both signs), exact values
    unchanged, [-0] to [0], non-finite and huge numbers unchanged. *)
Example toFixed4_values :
  JsNumber.toFixed4 0.1953125%float = JsNumber.of_decimal4 false 1953%Z /\
  JsNumber.toFixed4 0.78125%float = JsNumber.of_decimal4 false 7813%Z /\
  JsNumber.toFixed4 (-0.78125)%float = JsNumber.of_decimal4 true 7813%Z /\
  JsNumber.toFixed4 3%float = 3%float /\
  JsNumber.toFixed4 (-0x1p-20)%float = neg_zero /\
  JsNumber.toFixed4 neg_zero = zero /\
  JsNumber.toFixed4 infinity = infinity /\
  JsNumber.toFixed4 0x1p70%float = 0x1p70%float.
Proof. repeat split; vm_compute; reflexivity. Qed.

(** Spreads in both directions give two opportunities. *)
Example both_directions :
  map (fun o => (Opportunity.exchange (Opportunity.buyAt o),
               Opportunity.exchange (Opportunity.sellAt o)))
    (ArbitrageService._findOpportunitiesInSinglePair configA enrichedBoth)
  = [("X", "Y"); ("Y", "X")].
Proof. vm_compute. reflexivity. Qed.

(** Scenario A: one candidate, buying on X at 100 and selling on Y at 103
    for 3 percent, none the other way round. *)
Example scenario_A :
  ArbitrageService._findOpportunitiesInSinglePair configA enrichedA
  = [opportunityA].
Proof. vm_compute. reflexivity. Qed.

(** Scenario B: no candidate at a threshold of 5 percent. *)
Example scenario_B :
  ArbitrageService._findOpportunitiesInSinglePair configB enrichedA = [].
Proof. vm_compute. reflexivity. Qed.

(** Scenario C: no common network, not executable. *)
Example scenario_C :
  executability
    (fst (ArbitrageService.streamOpportunities sourcesC configA [groupAAA] 0))
  = [Some (false, [])].
Proof. vm_compute. reflexivity. Qed.

(** Scenario D: ERC20 in common, executable. *)
Example scenario_D :
  executability
    (fst (ArbitrageService.streamOpportunities sourcesA configA [groupAAA] 0))
  = [Some (true, ["ERC20"])].
Proof. vm_compute. reflexivity. Qed.

(** Scenario E: with the filter on USDT, AAA/USDC forms no group. *)
Example scenario_E :
  map SharedPairInfo.symbol (ArbitrageService.findSharedPairs configE listedE)
  = ["AAA/USDT"] /\
  map SharedPairInfo.symbol (ArbitrageService.findSharedPairs configA listedE)
  = ["AAA/USDC"; "AAA/USDT"].
Proof. split; vm_compute; reflexivity. Qed.

End Scenarios.

(* ================================================================== *)
(** * The claims at concrete inputs *)

Section Instances.

Import Scenario.
Local Open Scope string_scope.

Lemma enrichedA_wf : JsMap.wf (EnrichedPair.tickers enrichedA).
Proof.
  unfold JsMap.wf. simpl. repeat constructor; simpl; intuition discriminate.
Defined.

Lemma opportunityA_detected : Trace.detected configA opportunityA.
Proof.
  exists enrichedA. split; [exact enrichedA_wf|].
  vm_compute. left. reflexivity.
Defined.

(** C1 as stated fails: with a threshold of 25/128 = 0.1953125 and a
    spread of exactly that value, the detector emits an opportunity whose
    stored [profitPercentage] is 0.1953, below the threshold. *)
Lemma stored_profit_below_threshold :
  exists o,
    Trace.detected configFine o /\
    JsNumber.ge (Spread.ofOpportunity o)
                (ArbitrageConfig.minProfitPercentage configFine) = true /\
    JsNumber.ge (Opportunity.profitPercentage o)
                (ArbitrageConfig.minProfitPercentage configFine) = false.
Proof.
  exists (ArbitrageService.priceOpportunity "AAA/USDT"
            ("X", quoteOf "X" 1 1) ("Y", quoteOf "Y" 2 1.001953125)).
  split; [|split; vm_compute; reflexivity].
  exists enrichedFine. split.
  - unfold JsMap.wf. simpl. repeat constructor; simpl; intuition discriminate.
  - vm_compute. left. reflexivity.
Qed.

(** C1, amended, at scenario A. *)
Lemma emitted_opportunity_sound_witness :
  Trace.detected configA opportunityA /\
  JsNumber.gt (Opportunity.price (Opportunity.sellAt opportunityA))
              (Opportunity.price (Opportunity.buyAt opportunityA)) = true /\
  JsNumber.ge (Spread.ofOpportunity opportunityA)
              (ArbitrageConfig.minProfitPercentage configA) = true /\
  Opportunity.profitPercentage opportunityA
  = JsNumber.toFixed4 (Spread.ofOpportunity opportunityA).
Proof.
  split; [exact opportunityA_detected|].
  apply (@emitted_opportunity_sound World sourcesA configA opportunityA).
  left. exact opportunityA_detected.
Defined.

(** C3 as stated fails: with a threshold of 0 and two sources that both
    ask and bid 100, the pair (0, 1) has a positive ask and a spread of 0,
    which is at least the threshold, and nothing is emitted. *)
Lemma zero_spread_not_emitted :
  exists i j buy sell,
    i <> j /\
    nth_error (JsMap.entries (EnrichedPair.tickers enrichedFlat)) i = Some buy /\
    nth_error (JsMap.entries (EnrichedPair.tickers enrichedFlat)) j = Some sell /\
    JsNumber.gt (StandardTicker.ask (snd buy)) 0%float = true /\
    JsNumber.ge (ArbitrageService.grossProfitPercentage (snd buy) (snd sell))
                (ArbitrageConfig.minProfitPercentage configZero) = true /\
    ArbitrageService._findOpportunitiesInSinglePair configZero enrichedFlat = [].
Proof.
  exists 0, 1, ("X", quoteOf "X" 100 100), ("Y", quoteOf "Y" 100 100).
  split; [discriminate|].
  repeat split; vm_compute; reflexivity.
Qed.

(** C10 at scenario A. *)
Lemma buyer_and_seller_differ_witness :
  Trace.detected configA opportunityA /\
  Opportunity.exchange (Opportunity.buyAt opportunityA)
  <> Opportunity.exchange (Opportunity.sellAt opportunityA).
Proof.
  split; [exact opportunityA_detected|].
  apply (@buyer_and_seller_differ World sourcesA configA opportunityA).
  left. exact opportunityA_detected.
Defined.

(** C8 as stated fails: at a threshold of 5 percent the first of two
    groups has no candidate, and the run goes from its progress line to
    the next one without a delay. *)
Lemma no_delay_after_fruitless_group :
  fst (ArbitrageService.streamOpportunities sourcesA configB
         [groupAAA; groupBBB] 0)
  = [EvProgress "AAA/USDT" 1 2; EvProgress "BBB/USDT" 2 2; EvDone 2] /\
  (Trace.delayBetweenGroups
     (fst (ArbitrageService.streamOpportunities sourcesA configB
             [groupAAA; groupBBB] 0)) -> False).
Proof.
  assert (E : fst (ArbitrageService.streamOpportunities sourcesA configB
                     [groupAAA; groupBBB] 0)
              = [EvProgress "AAA/USDT" 1 2; EvProgress "BBB/USDT" 2 2;
                 EvDone 2])
    by (vm_compute; reflexivity).
  split; [exact E|]. rewrite E. intro H.
  destruct (H [] "AAA/USDT" 1 2 [] "BBB/USDT" 2 2 [EvDone 2] eq_refl)
    as [ms []].
Qed.

(** C4 as stated fails: the ticker request of X always throws, Y and Z
    return usable tickers, and the group is discarded. *)
Lemma thrown_request_drops_group :
  (forall pair w,
      fst (IExchangeRepository.fetchTicker
             (brokenTicker (Some statusX)) pair w) = Rejected) /\
  map (fun ex =>
         option_map
           (fun repo =>
              fst (IExchangeRepository.fetchTicker repo (Member.pairData ex) 0))
           (JsMap.get sourcesBrokenX (Member.name ex)))
      (SharedPairInfo.exchanges groupXYZ)
  = [Some Rejected;
     Some (Fulfilled (Some (quoteOf "Y" 100 99.5)));
     Some (Fulfilled (Some (quoteOf "Z" 105 103)))] /\
  fst (ArbitrageService._enrichSinglePairWithTickers
         sourcesBrokenX groupXYZ 0) = None.
Proof.
  split; [reflexivity|]. split; vm_compute; reflexivity.
Qed.

(** C4, amended, where X has no quote and Y and Z have one. *)
Lemma enricher_policy_witness :
  (forall ex, In ex (SharedPairInfo.exchanges groupXYZ) ->
              JsMap.get sourcesSilentX (Member.name ex) <> None) /\
  exists enrichedPair,
    fst (ArbitrageService._enrichSinglePairWithTickers
           sourcesSilentX groupXYZ 0) = Some enrichedPair /\
    JsMap.keys (EnrichedPair.tickers enrichedPair) = ["Y"; "Z"].
Proof.
  assert (Hreg : forall ex, In ex (SharedPairInfo.exchanges groupXYZ) ->
                   JsMap.get sourcesSilentX (Member.name ex) <> None).
  { intros ex [<-|[<-|[<-|[]]]]; vm_compute; discriminate. }
  split; [exact Hreg|].
  destruct (@enricher_policy World sourcesSilentX groupXYZ 0 Hreg)
    as (promises & w1 & Hmap & _ & _ & Hok).
  vm_compute in Hmap. injection Hmap as <- <-.
  destruct (Hok [None; Some (quoteOf "Y" 100 99.5);
                 Some (quoteOf "Z" 105 103)] eq_refl) as (He & Hkeys & _).
  rewrite He. eexists. split; [reflexivity|]. reflexivity.
Defined.

(** C5 where the status lookup of Y throws (nothing is returned), and
    where both sources resolve every lookup to no status (a record is
    attached, allowing nothing). *)
Lemma validator_fails_closed_witness :
  (JsMap.get sourcesBrokenStatus "X" = Some (source "X" 100 99.5 (Some statusX)) /\
   JsMap.get sourcesBrokenStatus "Y" = Some (brokenStatus "Y" 105 103)) /\
  fst (ArbitrageService._validateSingleOpportunity
         sourcesBrokenStatus opportunityA 0) = None /\
  exists o' v,
    fst (ArbitrageService._validateSingleOpportunity
           sourcesNoStatus opportunityA 0) = Some o' /\
    Opportunity.validation o' = Some v /\
    Opportunity.canWithdraw (Opportunity.buyExchange v) = false /\
    Opportunity.canDeposit (Opportunity.sellExchange v) = false.
Proof.
  split; [split; reflexivity|]. split.
  - destruct (@validator_fails_closed World sourcesBrokenStatus opportunityA 0
                (source "X" 100 99.5 (Some statusX))
                (brokenStatus "Y" 105 103) eq_refl eq_refl) as [Hrej _].
    rewrite Hrej; [reflexivity|].
    vm_compute. right. right. left. reflexivity.
  - destruct (@validator_fails_closed World sourcesNoStatus opportunityA 0
                (source "X" 100 99.5 None) (source "Y" 105 103 None)
                eq_refl eq_refl) as [_ Hok].
    destruct Hok as (s1 & s2 & s3 & s4 & v & Hl & Hv & Hrec & _ & _ & Hw & Hd).
    { vm_compute. intros [H|[H|[H|[H|[]]]]]; discriminate. }
    vm_compute in Hl. injection Hl as <- <- <- <-.
    exists (ArbitrageService.validated opportunityA None None None None), v.
    rewrite Hv. repeat split; [exact Hrec | now apply Hw | now apply Hd].
Defined.

(** C2 at scenarios A and D. *)
Lemma validation_record_invariant_witness :
  ArbitrageService._validateSingleOpportunity sourcesA opportunityA 0
  = (Some (ArbitrageService.validated opportunityA
             (Some statusX) (Some statusX) (Some statusY) (Some statusY)), 4) /\
  exists v,
    Opportunity.validation
      (ArbitrageService.validated opportunityA
         (Some statusX) (Some statusX) (Some statusY) (Some statusY))
    = Some v /\
    Opportunity.commonNetworks v = ["ERC20"] /\
    Opportunity.isExecutable v = true.
Proof.
  assert (Hrun : ArbitrageService._validateSingleOpportunity
                   sourcesA opportunityA 0
                 = (Some (ArbitrageService.validated opportunityA
                            (Some statusX) (Some statusX)
                            (Some statusY) (Some statusY)), 4))
    by (vm_compute; reflexivity).
  split; [exact Hrun|].
  destruct (@validation_record_invariant World sourcesA _ _ _ _ Hrun)
    as (b & s & s1 & s2 & s3 & s4 & v & Hb & Hs & Hl & Hv & Hcommon & _
        & Hcw & Hcd & Hexec).
  vm_compute in Hb. injection Hb as <-.
  vm_compute in Hs. injection Hs as <-.
  vm_compute in Hl. injection Hl as <- <- <- <-.
  exists v. split; [exact Hv|].
  assert (Hc : Opportunity.commonNetworks v = ["ERC20"])
    by (rewrite Hcommon; reflexivity).
  split; [exact Hc|].
  apply Hexec. rewrite Hcw, Hcd, Hc.
  repeat split; try reflexivity. discriminate.
Defined.

(** C7 at scenario E. *)
Lemma quote_filter_witness :
  ArbitrageConfig.quoteAssetsFilter configE = Some ["USDT"] /\
  Forall
    (fun sharedPair =>
       Forall
         (fun member =>
            In (StandardPair.quote (Member.pairData member)) ["USDT"])
         (SharedPairInfo.exchanges sharedPair))
    (ArbitrageService.findSharedPairs configE listedE).
Proof.
  split; [reflexivity|].
  apply Forall_forall. intros sharedPair Hg.
  apply Forall_forall. intros member Hm.
  apply (proj1 (@quote_filter configE listedE) ["USDT"] eq_refl)
    with (sharedPair := sharedPair); [discriminate | exact Hg | exact Hm].
Defined.

(** C6 fails on the code: X lists AAA/USDT twice and no other source
    lists it, so the symbol is on exactly one source, and the resolver
    forms a group for it, both members being X. *)
Theorem same_source_twice_forms_group :
  Listing.sourcesOf "AAA/USDT" (Listing.allListings listedTwice) = ["X"] /\
  ArbitrageService.findSharedPairs configA listedTwice
  = [SharedPairInfo.Build "AAA/USDT"
       [memberOn "X" "AAA/USDT" "AAA" "USDT";
        memberOn "X" "AAA/USDT" "AAA" "USDT"]].
Proof. split; vm_compute; reflexivity. Qed.

End Instances.

(* ================================================================== *)
(** * Further properties of the pair resolver *)

Section ResolverProperties.

Variable config : ArbitrageConfig.t.

(** X1.  The shared groups are the symbols with at least two listings that
    pass the quote filter, in the order in which the symbols are first
    listed; the members of a group are the listings of its symbol, in the
    order in which the sources and their pair lists are visited. *)
Theorem shared_groups_by_listing (exchangeData : list ExchangeData.t) :
  ArbitrageService.findSharedPairs config exchangeData
  = map (fun s =>
           SharedPairInfo.Build s
             (Listing.membersOf s (Listing.listings config exchangeData)))
        (filter
           (fun s =>
              2 <=? List.length
                      (Listing.membersOf s
                         (Listing.listings config exchangeData)))
           (Listing.firstSeen
              (map Listing.symbolOf (Listing.listings config exchangeData)))).
Proof. apply ResolverFacts.findSharedPairs_listings. Qed.

(** X2.  No two shared groups have the same symbol.  Every group has at
    least two members; each member was listed under the group's symbol by
    a source of that name in the input, and passes the quote filter. *)
Theorem shared_group_invariants (exchangeData : list ExchangeData.t) :
  NoDup (map SharedPairInfo.symbol
           (ArbitrageService.findSharedPairs config exchangeData)) /\
  forall sharedPair,
    In sharedPair (ArbitrageService.findSharedPairs config exchangeData) ->
    2 <= List.length (SharedPairInfo.exchanges sharedPair) /\
    forall member,
      In member (SharedPairInfo.exchanges sharedPair) ->
      StandardPair.symbol (Member.pairData member)
      = SharedPairInfo.symbol sharedPair /\
      ArbitrageService.filteredOut config (Member.pairData member) = false /\
      exists exchange,
        In exchange exchangeData /\
        ExchangeData.name exchange = Member.name member /\
        In (Member.pairData member) (ExchangeData.pairs exchange).
Proof.
  rewrite ResolverFacts.findSharedPairs_listings. split.
  - rewrite map_map. simpl. rewrite map_id.
    apply NoDup_filter, FirstSeenFacts.NoDup_firstSeen.
  - intros g Hg. apply in_map_iff in Hg. destruct Hg as (s & <- & Hs).
    apply filter_In in Hs. destruct Hs as [_ Hlen]. simpl.
    split; [now apply Nat.leb_le|].
    intros m Hm. apply ResolverFacts.in_membersOf in Hm.
    destruct Hm as [Hm Hsym]. split; [exact Hsym|].
    unfold Listing.listings in Hm. apply filter_In in Hm.
    destruct Hm as [Hm Hkeep]. split; [now apply negb_true_iff|].
    unfold Listing.allListings in Hm. apply in_flat_map in Hm.
    destruct Hm as (ex & Hex & Hm). apply in_map_iff in Hm.
    destruct Hm as (p & <- & Hp). exists ex. simpl. auto.
Qed.

(** X3.  When no source lists a symbol twice (after the quote filter), the
    members of every shared group come from pairwise-distinct sources, and
    a symbol has a shared group exactly when at least two distinct sources
    list it. *)
Theorem shared_groups_distinct_sources (exchangeData : list ExchangeData.t) :
  NoDup (map (fun m => (Member.name m, Listing.symbolOf m))
             (Listing.listings config exchangeData)) ->
  (forall sharedPair,
      In sharedPair (ArbitrageService.findSharedPairs config exchangeData) ->
      NoDup (map Member.name (SharedPairInfo.exchanges sharedPair))) /\
  (forall symbol,
      (exists sharedPair,
          In sharedPair (ArbitrageService.findSharedPairs config exchangeData) /\
          SharedPairInfo.symbol sharedPair = symbol) <->
      2 <= List.length
             (Listing.sourcesOf symbol (Listing.listings config exchangeData))).
Proof.
  intro Hnd.
  set (L := Listing.listings config exchangeData) in *.
  assert (Hcount : forall s,
             List.length (Listing.sourcesOf s L)
             = List.length (Listing.membersOf s L))
    by (intro s; now apply ResolverFacts.sources_count).
  rewrite ResolverFacts.findSharedPairs_listings. fold L. split.
  - intros g Hg. apply in_map_iff in Hg. destruct Hg as (s & <- & _). simpl.
    pose proof (Hcount s) as Hs. unfold Listing.sourcesOf in Hs.
    pose proof (FirstSeenFacts.NoDup_firstSeen
                  (map Member.name (Listing.membersOf s L))) as Hfs.
    apply (NoDup_incl_NoDup Hfs).
    + rewrite Hs, length_map. apply le_n.
    + intros x Hx. now apply FirstSeenFacts.In_firstSeen.
  - intro s. rewrite Hcount. split.
    + intros (g & Hg & <-). apply in_map_iff in Hg.
      destruct Hg as (s' & <- & Hs'). apply filter_In in Hs'. simpl.
      now apply Nat.leb_le.
    + intro Hlen.
      exists (SharedPairInfo.Build s (Listing.membersOf s L)).
      split; [|reflexivity]. apply in_map_iff. exists s.
      split; [reflexivity|]. apply filter_In.
      split; [|now apply Nat.leb_le].
      apply FirstSeenFacts.In_firstSeen.
      destruct (Listing.membersOf s L) as [|m ms] eqn:Hm;
        [simpl in Hlen; lia|].
      assert (Hin : In m (Listing.membersOf s L)) by (rewrite Hm; now left).
      apply ResolverFacts.in_membersOf in Hin. destruct Hin as [Hin <-].
      now apply in_map.
Qed.

(** X4.  A source none of whose pairs passes the quote filter, among them
    a source with no pairs at all, changes nothing: the shared groups are
    those of the other sources. *)
Theorem filtered_source_contributes_nothing
    (before after : list ExchangeData.t) (exchange : ExchangeData.t) :
  (forall pair, In pair (ExchangeData.pairs exchange) ->
                ArbitrageService.filteredOut config pair = true) ->
  ArbitrageService.findSharedPairs config (before ++ exchange :: after)
  = ArbitrageService.findSharedPairs config (before ++ after).
Proof.
  intro Hout.
  rewrite !ResolverFacts.findSharedPairs_listings.
  assert (HL : Listing.listings config (before ++ exchange :: after)
               = Listing.listings config (before ++ after)).
  { unfold Listing.listings, Listing.allListings.
    rewrite !flat_map_app. simpl. rewrite !filter_app.
    replace (filter _ (map _ (ExchangeData.pairs exchange))) with (@nil Member.t);
      [reflexivity|].
    symmetry. induction (ExchangeData.pairs exchange) as [|p ps IH];
      [reflexivity|].
    simpl. rewrite Hout by (now left). simpl.
    apply IH. intros q Hq. apply Hout. now right. }
  now rewrite HL.
Qed.

End ResolverProperties.

(* ================================================================== *)
(** * Further properties of the service *)

(** ** Helper lemmas *)

Module FetchFacts.
Section Facts.

Variable World : Type.

Import Effect.

Lemma pairRequests_length (entries : list (string * IExchangeRepository.t World)) :
  forall w, List.length (fst (Fetch.pairRequests entries w)) = List.length entries.
Proof.
  induction entries as [|entry rest IH]; intro w; simpl; [reflexivity|].
  destruct (IExchangeRepository.fetchAllPairs (snd entry) w) as [o w1].
  specialize (IH w1).
  destruct (Fetch.pairRequests rest w1) as [os w2]. simpl in *. now rewrite IH.
Qed.

(** The [map] of the fan-out never throws: it starts one request per
    entry and keeps its promise. *)
Lemma fan_out (entries : list (string * IExchangeRepository.t World)) :
  forall w,
    mapM (fun entry : string * IExchangeRepository.t World =>
            start (bind (IExchangeRepository.fetchAllPairs (snd entry))
                     (fun pairs => ret (ExchangeData.Build (fst entry) pairs))))
         entries w
    = (Fulfilled
         (map (fun no => Fetch.tagged (fst no) (snd no))
            (combine (map fst entries) (fst (Fetch.pairRequests entries w)))),
       snd (Fetch.pairRequests entries w)).
Proof.
  induction entries as [|entry rest IH]; intro w; simpl; [reflexivity|].
  unfold bind at 1. unfold start at 1. unfold bind at 1.
  destruct (IExchangeRepository.fetchAllPairs (snd entry) w) as [o w1].
  unfold bind at 1.
  assert (Hhead :
    (let (o0, w') :=
       match o with
       | Fulfilled a => ret (ExchangeData.Build (fst entry) a) w1
       | Rejected => (Rejected, w1)
       end in (Fulfilled o0, w'))
    = (Fulfilled (Fetch.tagged (fst entry) o), w1)) by now destruct o.
  rewrite Hhead, IH.
  destruct (Fetch.pairRequests rest w1) as [os w2]. reflexivity.
Qed.

Lemma all_tagged (names : list string) :
  forall outcomes,
    List.length outcomes = List.length names ->
    all_fulfilled
      (map (fun no => Fetch.tagged (fst no) (snd no)) (combine names outcomes))
    = option_map (Fetch.labelled names) (all_fulfilled outcomes).
Proof.
  unfold Fetch.labelled.
  induction names as [|name names IH]; intros [|[pairs|] outcomes] Hlen;
    simpl in *; try discriminate; try reflexivity.
  rewrite IH by lia.
  now destruct (all_fulfilled outcomes).
Qed.

Lemma labelled_names (names : list string) :
  forall lists,
    List.length lists = List.length names ->
    map ExchangeData.name (Fetch.labelled names lists) = names.
Proof.
  unfold Fetch.labelled.
  induction names as [|name names IH]; intros [|l lists] Hlen;
    simpl in *; try discriminate; [reflexivity|].
  now rewrite IH by lia.
Qed.

End Facts.
End FetchFacts.

Module EnrichedFacts.
Section Facts.

Variable World : Type.
Variable exchangeRepositories : JsMap.t (IExchangeRepository.t World).

Import Effect.

Local Abbreviation enrich :=
  (ArbitrageService._enrichSinglePairWithTickers exchangeRepositories).
Local Abbreviation request :=
  (ArbitrageService.requestTicker exchangeRepositories).

(** A usable ticker is the fulfilled answer to the request of the member
    it is kept under. *)
Lemma usable_requested exchanges :
  forall promises results,
    Forall2 (Quotes.requested exchangeRepositories) exchanges promises ->
    all_fulfilled promises = Some results ->
    forall name ticker,
      In (name, ticker) (Quotes.usable exchanges results) ->
      exists ex,
        In ex exchanges /\ Member.name ex = name /\
        Quotes.requested exchangeRepositories ex (Fulfilled (Some ticker)).
Proof.
  induction exchanges as [|ex exchanges IH]; intros promises results Hreq Hall
    name ticker Hin.
  - destruct results as [|[?|] ?]; contradiction.
  - inversion Hreq as [|? p ? promises' Hp Hrest]; subst.
    simpl in Hall. destruct p as [r|]; [|discriminate].
    destruct (all_fulfilled promises') as [results'|] eqn:Hall';
      [|discriminate].
    injection Hall as <-.
    destruct r as [t|]; simpl in Hin.
    + destruct Hin as [Heq|Hin].
      * injection Heq as <- <-. exists ex. repeat split; [now left | exact Hp].
      * destruct (IH promises' results' Hrest Hall' name ticker Hin)
          as (ex' & Hex' & Hname & Hr).
        exists ex'. repeat split; [now right | exact Hname | exact Hr].
    + destruct (IH promises' results' Hrest Hall' name ticker Hin)
        as (ex' & Hex' & Hname & Hr).
      exists ex'. repeat split; [now right | exact Hname | exact Hr].
Qed.

(** Every entry of the map of an enriched group is the fulfilled answer
    to the request of a member of that name. *)
Lemma enrich_entries sharedPair w enrichedPair w1 name ticker :
  enrich sharedPair w = (Some enrichedPair, w1) ->
  In (name, ticker) (JsMap.entries (EnrichedPair.tickers enrichedPair)) ->
  exists ex,
    In ex (SharedPairInfo.exchanges sharedPair) /\ Member.name ex = name /\
    Quotes.requested exchangeRepositories ex (Fulfilled (Some ticker)).
Proof.
  intros H Hin.
  destruct (mapM request (SharedPairInfo.exchanges sharedPair) w)
    as [[promises|] w'] eqn:Hmap.
  2:{ rewrite (@EnricherFacts.enrich_thrown _ _ sharedPair w w' Hmap) in H.
      discriminate. }
  rewrite (@EnricherFacts.enrich_run _ _ sharedPair w promises w' Hmap) in H.
  destruct (all_fulfilled promises) as [results|] eqn:Hall; [|discriminate].
  cbv zeta in H.
  destruct (2 <=? _); [|discriminate].
  injection H as <- _. simpl in Hin.
  apply EnricherFacts.collect_sound in Hin.
  apply EnricherFacts.requests_issued in Hmap.
  exact (usable_requested Hmap Hall _ _ Hin).
Qed.

(** No group is enriched unless the source of every member is
    registered. *)
Lemma enrich_members_registered sharedPair w enrichedPair w1 ex :
  enrich sharedPair w = (Some enrichedPair, w1) ->
  In ex (SharedPairInfo.exchanges sharedPair) ->
  JsMap.get exchangeRepositories (Member.name ex) <> None.
Proof.
  intros H Hin.
  destruct (mapM request (SharedPairInfo.exchanges sharedPair) w)
    as [[promises|] w'] eqn:Hmap.
  2:{ rewrite (@EnricherFacts.enrich_thrown _ _ sharedPair w w' Hmap) in H.
      discriminate. }
  apply EnricherFacts.requests_issued in Hmap.
  destruct (@Forall2_from_left _ _ _ _ _ ex Hmap Hin)
    as (p & _ & repo & _ & Hrepo & _).
  congruence.
Qed.

Lemma mapM_app {A B} (f : A -> IO World B) (front : list A) :
  forall rest w,
    mapM f (front ++ rest) w
    = match mapM f front w with
      | (Fulfilled bs, w1) =>
          match mapM f rest w1 with
          | (Fulfilled cs, w2) => (Fulfilled (bs ++ cs), w2)
          | (Rejected, w2) => (Rejected, w2)
          end
      | (Rejected, w1) => (Rejected, w1)
      end.
Proof.
  induction front as [|a front IH]; intros rest w; simpl.
  - unfold ret. now destruct (mapM f rest w) as [[cs|] w2].
  - unfold bind.
    destruct (f a w) as [[b|] w0]; [|reflexivity].
    rewrite IH.
    destruct (mapM f front w0) as [[bs|] w1]; [|reflexivity].
    unfold ret. cbv beta iota.
    destruct (mapM f rest w1) as [[cs|] w2]; reflexivity.
Qed.

End Facts.
End EnrichedFacts.

(** ** The fan-outs, the validator and the origin of the yields *)

Section ServiceProperties.

Variable World : Type.
Variable exchangeRepositories : JsMap.t (IExchangeRepository.t World).
Variable config : ArbitrageConfig.t.

Local Abbreviation enrich :=
  (ArbitrageService._enrichSinglePairWithTickers exchangeRepositories).
Local Abbreviation validate :=
  (ArbitrageService._validateSingleOpportunity exchangeRepositories).
Local Abbreviation stream :=
  (ArbitrageService.streamOpportunities exchangeRepositories config).

(** X5.  [fetchAllPairsFromRepositories] asks every registered source for
    its pairs, in the order of the [Map] and whatever the others answer.
    It rejects exactly when one of these requests rejects; otherwise it
    resolves with one entry per source, in the order of the [Map], holding
    the name the source is registered under and the list it returned.  No
    failure is caught here: one failing source fails the whole fetch. *)
Theorem fetch_all_pairs_fan_out (w : World) :
  let requests :=
    Fetch.pairRequests (JsMap.entries exchangeRepositories) w in
  ArbitrageService.fetchAllPairsFromRepositories exchangeRepositories w
  = (match Effect.all_fulfilled (fst requests) with
     | Some lists =>
         Fulfilled (Fetch.labelled (JsMap.keys exchangeRepositories) lists)
     | None => Rejected
     end, snd requests) /\
  List.length (fst requests) = JsMap.size exchangeRepositories /\
  (fst (ArbitrageService.fetchAllPairsFromRepositories exchangeRepositories w)
   = Rejected <-> In Rejected (fst requests)) /\
  (forall exchangeData,
      fst (ArbitrageService.fetchAllPairsFromRepositories
             exchangeRepositories w) = Fulfilled exchangeData ->
      map ExchangeData.name exchangeData = JsMap.keys exchangeRepositories).
Proof.
  intro requests.
  assert (Hlen : List.length (fst requests)
                 = List.length (JsMap.keys exchangeRepositories)).
  { unfold requests, JsMap.keys. rewrite length_map.
    apply FetchFacts.pairRequests_length. }
  assert (Hrun :
    ArbitrageService.fetchAllPairsFromRepositories exchangeRepositories w
    = (match Effect.all_fulfilled (fst requests) with
       | Some lists =>
           Fulfilled (Fetch.labelled (JsMap.keys exchangeRepositories) lists)
       | None => Rejected
       end, snd requests)).
  { unfold ArbitrageService.fetchAllPairsFromRepositories.
    unfold Effect.bind at 1. rewrite FetchFacts.fan_out.
    unfold Effect.Promise_all. fold requests.
    change (map fst (JsMap.entries exchangeRepositories))
      with (JsMap.keys exchangeRepositories).
    rewrite FetchFacts.all_tagged by exact Hlen.
    now destruct (Effect.all_fulfilled (fst requests)). }
  split; [exact Hrun|]. rewrite Hrun. simpl fst.
  split; [|split].
  - unfold JsMap.size, JsMap.entries. apply FetchFacts.pairRequests_length.
  - rewrite <- EnricherFacts.all_fulfilled_None.
    destruct (Effect.all_fulfilled (fst requests));
      split; intro H; try discriminate; reflexivity.
  - intros exchangeData H.
    destruct (Effect.all_fulfilled (fst requests)) as [lists|] eqn:Hall;
      [|discriminate].
    injection H as <-. apply FetchFacts.labelled_names.
    apply EnricherFacts.all_fulfilled_length in Hall. congruence.
Qed.


(** X7.  A member whose source is not registered makes the enricher drop
    the group, whatever the other sources would answer: the requests to
    the members in front of it are issued, the call on the missing source
    throws, no member after it is asked, and the group is discarded. *)
Theorem unregistered_member_drops_group (sharedPair : SharedPairInfo.t)
    (w : World) (front : list Member.t) (ex : Member.t)
    (behind : list Member.t) :
  SharedPairInfo.exchanges sharedPair = front ++ ex :: behind ->
  (forall ex', In ex' front ->
               JsMap.get exchangeRepositories (Member.name ex') <> None) ->
  JsMap.get exchangeRepositories (Member.name ex) = None ->
  enrich sharedPair w
  = (None,
     snd (Effect.mapM
            (ArbitrageService.requestTicker exchangeRepositories) front w)).
Proof.
  intros Hsplit Hfront Hex.
  destruct (EnricherFacts.requests_go_through exchangeRepositories front Hfront w)
    as (promises & w1 & Hps).
  apply EnricherFacts.enrich_thrown.
  rewrite Hsplit, EnrichedFacts.mapM_app, Hps. simpl.
  unfold Effect.bind at 1.
  unfold ArbitrageService.requestTicker at 1. rewrite Hex. reflexivity.
Qed.

(** X8.  A candidate one of whose sources is not registered is never
    validated.  When the buy source is missing the validator returns
    nothing without a single lookup; when only the sell source is missing
    it returns nothing after the two lookups on the buy source, whatever
    they answer. *)
Theorem validator_needs_both_sources (o : Opportunity.t) (w : World) :
  (JsMap.get exchangeRepositories
     (Opportunity.exchange (Opportunity.buyAt o)) = None ->
   validate o w = (None, w)) /\
  (forall buyRepository,
      JsMap.get exchangeRepositories
        (Opportunity.exchange (Opportunity.buyAt o)) = Some buyRepository ->
      JsMap.get exchangeRepositories
        (Opportunity.exchange (Opportunity.sellAt o)) = None ->
      validate o w
      = (None,
         snd (IExchangeRepository.getAssetStatus buyRepository
                (Status.quoteAssetOf o)
                (snd (IExchangeRepository.getAssetStatus buyRepository
                        (Status.baseAssetOf o) w))))).
Proof.
  split.
  - intro Hb.
    unfold ArbitrageService._validateSingleOpportunity,
      Effect.try_catch, Effect.bind, Effect.invoke.
    now rewrite Hb.
  - intros b Hb Hs.
    unfold ArbitrageService._validateSingleOpportunity, Status.baseAssetOf,
      Status.quoteAssetOf, Effect.try_catch, Effect.bind, Effect.invoke,
      Effect.start.
    rewrite Hb, Hs.
    destruct (IExchangeRepository.getAssetStatus b _ w) as [o1 w1].
    simpl snd.
    destruct (IExchangeRepository.getAssetStatus b _ w1) as [o2 w2].
    reflexivity.
Qed.

(** X9.  The validator adds a validation record and changes nothing
    else: whatever it returns has the pair, the profit percentage and the
    two sides of the candidate it was given. *)
Theorem validator_keeps_candidate (o o' : Opportunity.t) (w w' : World) :
  validate o w = (Some o', w') ->
  Opportunity.pair o' = Opportunity.pair o /\
  Opportunity.profitPercentage o' = Opportunity.profitPercentage o /\
  Opportunity.buyAt o' = Opportunity.buyAt o /\
  Opportunity.sellAt o' = Opportunity.sellAt o /\
  exists v, Opportunity.validation o' = Some v.
Proof.
  intro H. apply ValidatorFacts.validate_some in H.
  destruct H as (_ & _ & s1 & s2 & s3 & s4 & _ & _ & _ & ->).
  destruct (ValidatorFacts.validated_keeps o s1 s2 s3 s4)
    as (Hp & Hprofit & Hbuy & Hsell).
  destruct (ValidatorFacts.validated_record o s1 s2 s3 s4) as (v & Hv & _).
  repeat split; try assumption. now exists v.
Qed.

(** X10.  Where the yields of a run come from: every opportunity yielded
    is on the symbol of one of the groups given to the run, buys on the
    source of a member of that group and sells on the source of a member
    of that group, both registered, and carries a validation record.  So
    a run never reports a pair or a source outside the groups it was
    given. *)
Theorem yields_come_from_groups (sharedPairs : list SharedPairInfo.t)
    (w : World) (o : Opportunity.t) :
  In (EvYield o) (fst (stream sharedPairs w)) ->
  exists sharedPair buyer seller,
    In sharedPair sharedPairs /\
    Opportunity.pair o = SharedPairInfo.symbol sharedPair /\
    In buyer (SharedPairInfo.exchanges sharedPair) /\
    Member.name buyer = Opportunity.exchange (Opportunity.buyAt o) /\
    In seller (SharedPairInfo.exchanges sharedPair) /\
    Member.name seller = Opportunity.exchange (Opportunity.sellAt o) /\
    JsMap.get exchangeRepositories (Member.name buyer) <> None /\
    JsMap.get exchangeRepositories (Member.name seller) <> None /\
    exists v, Opportunity.validation o = Some v.
Proof.
  intro H. unfold ArbitrageService.streamOpportunities in H.
  destruct (ArbitrageService.streamFrom exchangeRepositories config
              (List.length sharedPairs) 0 sharedPairs w)
    as [events w'] eqn:Hs.
  simpl in H. apply in_app_or in H. destruct H as [H|[H|[]]]; [|discriminate].
  destruct (@PipelineFacts.streamFrom_yield _ exchangeRepositories config
              sharedPairs (List.length sharedPairs) 0 w o)
    as (g & t' & i' & w0 & Hg & Hy).
  { now rewrite Hs. }
  apply PipelineFacts.turn_yield in Hy.
  destruct Hy as (ep & w1 & c & s1 & s2 & s3 & s4 & He & Hc & ->).
  destruct (EnricherFacts.enrich_some _ _ _ He) as (_ & _ & Hsym & _).
  destruct (SpreadFacts.find_sound _ _ _ Hc) as (_ & _ & _ & _ & Hpair & _).
  destruct (ValidatorFacts.validated_record c s1 s2 s3 s4) as (v & Hv & _).
  apply SpreadFacts.in_find in Hc.
  destruct Hc as (i & j & [bx bt] & [sx st] & _ & Hi & Hj & _ & _ & _ & Hceq).
  apply nth_error_In in Hi. apply nth_error_In in Hj.
  destruct (@EnrichedFacts.enrich_entries _ _ _ _ _ _ _ _ He Hi)
    as (buyer & Hbin & Hbname & _).
  destruct (@EnrichedFacts.enrich_entries _ _ _ _ _ _ _ _ He Hj)
    as (seller & Hsin & Hsname & _).
  exists g, buyer, seller.
  split; [exact Hg|].
  split; [simpl; now rewrite Hpair|].
  split; [exact Hbin|].
  split; [rewrite Hceq; exact Hbname|].
  split; [exact Hsin|].
  split; [rewrite Hceq; exact Hsname|].
  split; [exact (@EnrichedFacts.enrich_members_registered
                   _ _ _ _ _ _ _ He Hbin)|].
  split; [exact (@EnrichedFacts.enrich_members_registered
                   _ _ _ _ _ _ _ He Hsin)|].
  now exists v.
Qed.

End ServiceProperties.

(** ** Helper lemmas on the detector, on numbers and on symbols *)

Module FloatOrderFacts.

Local Ltac by_cases :=
  repeat match goal with
         | H : context [(?a ?= ?b)%Z] |- _ => destruct (Z.compare_spec a b)
         | |- context [(?a ?= ?b)%Z] => destruct (Z.compare_spec a b)
         | H : context [(?a ?= ?b)%positive] |- _ =>
             destruct (Pos.compare_spec a b)
         | |- context [(?a ?= ?b)%positive] => destruct (Pos.compare_spec a b)
         end;
  simpl in *; try discriminate; try reflexivity; try lia.

Lemma SFleb_trans (x y z : SpecFloat.spec_float) :
  SpecFloat.SFleb x y = true -> SpecFloat.SFleb y z = true ->
  SpecFloat.SFleb x z = true.
Proof.
  unfold SpecFloat.SFleb.
  destruct x as [sx|sx| |sx mx ex], y as [sy|sy| |sy my ey],
    z as [sz|sz| |sz mz ez];
    simpl; try discriminate; try reflexivity;
    try (destruct sx); try (destruct sy); try (destruct sz);
    simpl; try discriminate; try reflexivity;
    change (Pos.compare_cont Eq ?a ?b) with (Pos.compare a b);
    intros Hxy Hyz; by_cases.
Qed.

(** [<=] on JavaScript numbers is transitive; with a [NaN] on either side
    it is false. *)
Lemma leb_trans (x y z : float) :
  PrimFloat.leb x y = true -> PrimFloat.leb y z = true ->
  PrimFloat.leb x z = true.
Proof. rewrite !FloatAxioms.leb_spec. apply SFleb_trans. Qed.

End FloatOrderFacts.

Module DetectorFacts.
Section Facts.

Variable config : ArbitrageConfig.t.

Local Abbreviation find :=
  (ArbitrageService._findOpportunitiesInSinglePair config).

Lemma candidateAt_cases symbol tickers ij :
  Spread.candidateAt config symbol tickers ij = [] \/
  fst ij <> snd ij /\
  exists buy sell,
    nth_error tickers (fst ij) = Some buy /\
    nth_error tickers (snd ij) = Some sell /\
    Spread.candidateAt config symbol tickers ij
    = [ArbitrageService.priceOpportunity symbol buy sell].
Proof.
  unfold Spread.candidateAt.
  destruct (Nat.eqb_spec (fst ij) (snd ij)) as [|Hne]; [now left|].
  destruct (nth_error tickers (fst ij)) as [buy|]; [|now left].
  destruct (nth_error tickers (snd ij)) as [sell|]; [|now left].
  destruct (ArbitrageService.profitable config (snd buy) (snd sell));
    [|now left].
  right. split; [exact Hne|]. now exists buy, sell.
Qed.

(** One row of the double loop: the buy index is fixed. *)
Lemma row_bound symbol tickers i (js : list nat) :
  List.length
    (flat_map (Spread.candidateAt config symbol tickers)
       (map (fun j => (i, j)) js))
  <= List.length (filter (fun j => negb (i =? j)) js).
Proof.
  induction js as [|j js IH]; simpl; [apply le_n|].
  rewrite length_app.
  destruct (candidateAt_cases symbol tickers (i, j))
    as [->|(Hne & buy & sell & _ & _ & ->)]; simpl in *.
  - destruct (negb (i =? j)); simpl; lia.
  - destruct (Nat.eqb_spec i j) as [|_]; [contradiction|]. simpl. lia.
Qed.

Lemma others_in_seq i n :
  i < n -> List.length (filter (fun j => negb (i =? j)) (seq 0 n)) <= n - 1.
Proof.
  intro Hi.
  pose proof (filter_length (fun j => i =? j) (seq 0 n)) as Hsplit.
  rewrite length_seq in Hsplit.
  assert (Hin : In i (filter (fun j => i =? j) (seq 0 n))).
  { apply filter_In. split; [apply in_seq; lia | apply Nat.eqb_refl]. }
  destruct (filter (fun j => i =? j) (seq 0 n)); [contradiction|].
  simpl in Hsplit. lia.
Qed.

Lemma rows_bound symbol tickers n (rows : list nat) :
  (forall i, In i rows -> i < n) ->
  List.length
    (flat_map (Spread.candidateAt config symbol tickers)
       (list_prod rows (seq 0 n)))
  <= List.length rows * (n - 1).
Proof.
  induction rows as [|i rows IH]; intro Hrows; simpl; [apply le_n|].
  rewrite flat_map_app, length_app.
  pose proof (row_bound symbol tickers i (seq 0 n)) as Hrow.
  pose proof (@others_in_seq i n (Hrows i (or_introl eq_refl))) as Hothers.
  specialize (IH (fun i' H => Hrows i' (or_intror H))).
  lia.
Qed.

Lemma NoDup_map_pair {A B} (a : A) (l : list B) :
  NoDup l -> NoDup (map (fun y => (a, y)) l).
Proof.
  induction 1 as [|b l Hb Hl IH]; simpl; constructor; [|exact IH].
  intro Hin. apply in_map_iff in Hin. destruct Hin as (b' & Heq & Hin).
  injection Heq as ->. contradiction.
Qed.

Lemma NoDup_list_prod {A B} (l1 : list A) (l2 : list B) :
  NoDup l1 -> NoDup l2 -> NoDup (list_prod l1 l2).
Proof.
  intros H1 H2. induction H1 as [|a l1 Ha H1 IH]; simpl; [constructor|].
  apply NoDup_app.
  - now apply NoDup_map_pair.
  - exact IH.
  - intros [a' b] Hin Hin'. apply in_map_iff in Hin.
    destruct Hin as (b' & Heq & _). injection Heq as <- <-.
    apply in_prod_iff in Hin'. now apply Ha.
Qed.

(** A list built from at most one element per index, the elements of two
    indices being told apart by their key, has no two elements of the
    same key. *)
Lemma NoDup_keys_flat_map {A B K} (f : A -> list B) (key : B -> K)
    (keyOf : A -> K -> Prop) (l : list A) :
  NoDup l ->
  (forall a, In a l ->
             f a = [] \/ exists b, f a = [b] /\ keyOf a (key b)) ->
  (forall a a' k, In a l -> In a' l -> keyOf a k -> keyOf a' k -> a = a') ->
  NoDup (map key (flat_map f l)).
Proof.
  intros Hnd. induction Hnd as [|a l Ha Hnd IH]; intros Hone Hinj; simpl;
    [constructor|].
  assert (IH' : NoDup (map key (flat_map f l))).
  { apply IH.
    - intros a' H. apply Hone. now right.
    - intros a1 a2 k H1 H2. apply Hinj; now right. }
  destruct (Hone a (or_introl eq_refl)) as [->|(b & -> & Hkey)];
    [exact IH'|].
  simpl. constructor; [|exact IH'].
  intro Hin. apply in_map_iff in Hin. destruct Hin as (b' & Hk & Hin).
  apply in_flat_map in Hin. destruct Hin as (a' & Ha' & Hb').
  destruct (Hone a' (or_intror Ha')) as [He|(b'' & He & Hkey')];
    rewrite He in Hb'; [contradiction|].
  destruct Hb' as [<-|[]].
  assert (a' = a).
  { apply (Hinj a' a (key b)); [now right | now left | | exact Hkey].
    now rewrite <- Hk. }
  subst a'. contradiction.
Qed.

(** The spread an emitted opportunity records is the one it was admitted
    with. *)
Lemma spread_of_priceOpportunity symbol buy sell :
  Spread.ofOpportunity (ArbitrageService.priceOpportunity symbol buy sell)
  = ArbitrageService.grossProfitPercentage (snd buy) (snd sell).
Proof. destruct buy, sell. reflexivity. Qed.

Lemma filter_flat_map {A B} (p : B -> bool) (f : A -> list B) (l : list A) :
  filter p (flat_map f l) = flat_map (fun a => filter p (f a)) l.
Proof.
  induction l as [|a l IH]; simpl; [reflexivity|].
  now rewrite filter_app, IH.
Qed.

End Facts.
End DetectorFacts.

Module SymbolFacts.

Import JsString.

Lemma split_nonempty sep s : split sep s <> [].
Proof.
  destruct s as [|c s]; simpl; [discriminate|].
  destruct (Ascii.eqb c sep); [discriminate|].
  destruct (split sep s); discriminate.
Qed.

(** Splitting a string without separator gives the string. *)
Lemma split_plain sep s :
  ~ In sep (list_ascii_of_string s) -> split sep s = [s].
Proof.
  induction s as [|c s IH]; simpl; intro H; [reflexivity|].
  destruct (Ascii.eqb_spec c sep) as [->|_]; [exfalso; apply H; now left|].
  rewrite IH; [reflexivity|]. intro Hin. apply H. now right.
Qed.

(** Splitting cuts at the first separator. *)
Lemma split_at_first sep s rest :
  ~ In sep (list_ascii_of_string s) ->
  split sep (s ++ String sep rest) = s :: split sep rest.
Proof.
  induction s as [|c s IH]; simpl; intro H.
  - now rewrite Ascii.eqb_refl.
  - destruct (Ascii.eqb_spec c sep) as [->|_]; [exfalso; apply H; now left|].
    rewrite IH; [reflexivity|]. intro Hin. apply H. now right.
Qed.

(** A string with a separator splits into at least two parts. *)
Lemma split_separated sep s :
  In sep (list_ascii_of_string s) -> 2 <= List.length (split sep s).
Proof.
  induction s as [|c s IH]; simpl; intro H; [contradiction|].
  destruct (Ascii.eqb_spec c sep) as [->|Hne].
  - simpl. pose proof (@split_nonempty sep s).
    destruct (split sep s); [contradiction | simpl; lia].
  - destruct H as [H|H]; [contradiction|]. specialize (IH H).
    destruct (split sep s); simpl in *; lia.
Qed.

(** Joining the parts with the separator gives the string back. *)
Lemma join_split sep s :
  String.concat (String sep EmptyString) (split sep s) = s.
Proof.
  induction s as [|c s IH]; simpl; [reflexivity|].
  destruct (Ascii.eqb_spec c sep) as [->|_].
  - pose proof (@split_nonempty sep s).
    destruct (split sep s) as [|hd tl]; [contradiction|].
    simpl in *. now rewrite IH.
  - pose proof (@split_nonempty sep s).
    destruct (split sep s) as [|hd tl]; [contradiction|].
    destruct tl as [|hd' tl]; simpl in *; now rewrite <- IH.
Qed.

End SymbolFacts.

Module LinesFacts.
Section Facts.

Variable World : Type.
Variable exchangeRepositories : JsMap.t (IExchangeRepository.t World).
Variable config : ArbitrageConfig.t.




End Facts.
End LinesFacts.

(** ** The trace, the detector and the symbols *)

Section DetectorProperties.

Variable World : Type.
Variable exchangeRepositories : JsMap.t (IExchangeRepository.t World).
Variable config : ArbitrageConfig.t.

Local Abbreviation find :=
  (ArbitrageService._findOpportunitiesInSinglePair config).
Local Abbreviation stream :=
  (ArbitrageService.streamOpportunities exchangeRepositories config).


(** X12.  How many candidates the detector can emit for a group with [n]
    tickers: at most [n * (n - 1)], so none for fewer than two tickers;
    and over a [Map] of tickers no two candidates buy on the same source
    and sell on the same source. *)
Theorem candidates_bounded (enrichedPair : EnrichedPair.t) :
  List.length (find enrichedPair)
  <= JsMap.size (EnrichedPair.tickers enrichedPair)
     * (JsMap.size (EnrichedPair.tickers enrichedPair) - 1) /\
  (JsMap.size (EnrichedPair.tickers enrichedPair) < 2 ->
   find enrichedPair = []) /\
  (JsMap.wf (EnrichedPair.tickers enrichedPair) ->
   NoDup (map Sides.ofOpportunity (find enrichedPair))).
Proof.
  set (tickers := JsMap.entries (EnrichedPair.tickers enrichedPair)).
  set (n := JsMap.size (EnrichedPair.tickers enrichedPair)).
  assert (Hbound : List.length (find enrichedPair) <= n * (n - 1)).
  { rewrite SpreadFacts.find_enumerates. unfold Spread.indexPairs.
    fold tickers. change (List.length tickers) with n.
    pose proof (@DetectorFacts.rows_bound config
                  (EnrichedPair.symbol enrichedPair) tickers n (seq 0 n))
      as Hrows.
    rewrite length_seq in Hrows. apply Hrows.
    intros i Hi. apply in_seq in Hi. lia. }
  split; [exact Hbound|]. split.
  - intro Hn.
    destruct (find enrichedPair) as [|o os]; [reflexivity|].
    simpl in Hbound. exfalso.
    assert (n * (n - 1) = 0) by (destruct n as [|[|n']]; simpl; lia).
    lia.
  - intro Hwf. rewrite SpreadFacts.find_enumerates. fold tickers.
    apply DetectorFacts.NoDup_keys_flat_map
      with (keyOf := fun (ij : nat * nat) (k : string * string) =>
                       nth_error (map fst tickers) (fst ij) = Some (fst k) /\
                       nth_error (map fst tickers) (snd ij) = Some (snd k)).
    + apply DetectorFacts.NoDup_list_prod; apply seq_NoDup.
    + intros ij _.
      destruct (DetectorFacts.candidateAt_cases config
                  (EnrichedPair.symbol enrichedPair) tickers ij)
        as [He|(_ & [bx bt] & [sx st] & Hi & Hj & He)]; [now left|].
      right. eexists. split; [exact He|]. simpl.
      rewrite !nth_error_map, Hi, Hj. split; reflexivity.
    + intros [i j] [i' j'] [a b] _ _ [Hi Hj] [Hi' Hj']. simpl in *.
      assert (Hkeys : NoDup (map fst tickers)) by exact Hwf.
      f_equal.
      * apply (proj1 (NoDup_nth_error _) Hkeys).
        -- apply nth_error_Some. congruence.
        -- congruence.
      * apply (proj1 (NoDup_nth_error _) Hkeys).
        -- apply nth_error_Some. congruence.
        -- congruence.
Qed.

(** X13.  Raising the threshold only removes candidates: for two
    configurations with [minProfitPercentage <= minProfitPercentage'],
    the candidates of a group under the higher threshold are the
    candidates under the lower one whose spread reaches the higher
    threshold, in the same order. *)
Theorem raising_threshold_filters (config' : ArbitrageConfig.t)
    (enrichedPair : EnrichedPair.t) :
  JsNumber.ge (ArbitrageConfig.minProfitPercentage config')
              (ArbitrageConfig.minProfitPercentage config) = true ->
  ArbitrageService._findOpportunitiesInSinglePair config' enrichedPair
  = filter
      (fun o => JsNumber.ge (Spread.ofOpportunity o)
                            (ArbitrageConfig.minProfitPercentage config'))
      (find enrichedPair).
Proof.
  intro Hle. rewrite !SpreadFacts.find_enumerates.
  rewrite DetectorFacts.filter_flat_map.
  apply flat_map_ext. intros [i j].
  unfold Spread.candidateAt. simpl.
  destruct (i =? j); [reflexivity|].
  destruct (nth_error _ i) as [buy|]; [|reflexivity].
  destruct (nth_error _ j) as [sell|]; [|reflexivity].
  unfold ArbitrageService.profitable.
  destruct (JsNumber.gt (StandardTicker.ask (snd buy)) 0%float
            && JsNumber.gt (StandardTicker.bid (snd sell))
                 (StandardTicker.ask (snd buy))); simpl; [|reflexivity].
  destruct (JsNumber.ge
              (ArbitrageService.grossProfitPercentage (snd buy) (snd sell))
              (ArbitrageConfig.minProfitPercentage config')) eqn:Hhigh.
  - assert (Hlow :
      JsNumber.ge
        (ArbitrageService.grossProfitPercentage (snd buy) (snd sell))
        (ArbitrageConfig.minProfitPercentage config) = true).
    { unfold JsNumber.ge in *.
      exact (FloatOrderFacts.leb_trans Hle Hhigh). }
    rewrite Hlow. simpl.
    now rewrite DetectorFacts.spread_of_priceOpportunity, Hhigh.
  - destruct (JsNumber.ge
                (ArbitrageService.grossProfitPercentage (snd buy) (snd sell))
                (ArbitrageConfig.minProfitPercentage config));
      simpl; [|reflexivity].
    now rewrite DetectorFacts.spread_of_priceOpportunity, Hhigh.
Qed.

(** X14.  For a symbol of the form [base/quote], as the sources build
    it, the validator looks up the asset in front of the first [/] as the
    base asset and the one behind it, up to the next [/] if there is one,
    as the quote asset: with no [/] in [base] and none in [quote] these
    are [base] and [quote]. *)
Theorem assets_of_symbol (o : Opportunity.t) (base quote : string) :
  Opportunity.pair o = (base ++ String "/" quote)%string ->
  ~ In "/"%char (list_ascii_of_string base) ->
  Status.baseAssetOf o = Some base /\
  Status.quoteAssetOf o
  = nth_error (JsString.split "/" quote) 0 /\
  (~ In "/"%char (list_ascii_of_string quote) ->
   Status.quoteAssetOf o = Some quote).
Proof.
  intros Hpair Hbase. unfold Status.baseAssetOf, Status.quoteAssetOf.
  rewrite Hpair, SymbolFacts.split_at_first by exact Hbase. simpl.
  repeat split. intro Hquote.
  now rewrite SymbolFacts.split_plain by exact Hquote.
Qed.

(** X15.  The assets the validator looks up, for any symbol: the base
    asset is always defined, and for a symbol without [/] it is the whole
    symbol; the quote asset is undefined exactly when the symbol has no
    [/].  Joining the parts of a symbol with [/] gives the symbol back. *)
Theorem assets_of_any_symbol (o : Opportunity.t) :
  (exists base, Status.baseAssetOf o = Some base) /\
  (Status.quoteAssetOf o = None <->
   ~ In "/"%char (list_ascii_of_string (Opportunity.pair o))) /\
  (Status.quoteAssetOf o = None ->
   Status.baseAssetOf o = Some (Opportunity.pair o)) /\
  String.concat "/" (JsString.split "/" (Opportunity.pair o))
  = Opportunity.pair o.
Proof.
  unfold Status.baseAssetOf, Status.quoteAssetOf.
  assert (Hiff :
    nth_error (JsString.split "/" (Opportunity.pair o)) 1 = None <->
    ~ In "/"%char (list_ascii_of_string (Opportunity.pair o))).
  { split.
    - intros Hnone Hin. apply SymbolFacts.split_separated in Hin.
      apply nth_error_None in Hnone. lia.
    - intro Hplain. now rewrite SymbolFacts.split_plain by exact Hplain. }
  split; [|split; [exact Hiff|split]].
  - pose proof (@SymbolFacts.split_nonempty "/" (Opportunity.pair o)).
    destruct (JsString.split "/" (Opportunity.pair o)) as [|base parts];
      [contradiction|].
    now exists base.
  - intro Hnone. apply Hiff in Hnone.
    now rewrite SymbolFacts.split_plain by exact Hnone.
  - apply SymbolFacts.join_split.
Qed.

End DetectorProperties.

(* ================================================================== *)
(** * The further properties at concrete inputs *)

Section FurtherInstances.

Import Scenario.
Import Cases.
Local Open Scope string_scope.

(** X3 at scenario E without filter: no source lists a symbol twice, and
    AAA/USDT, listed by X and Y, has a group. *)
Lemma shared_groups_distinct_sources_witness :
  NoDup (map (fun m => (Member.name m, Listing.symbolOf m))
           (Listing.listings configA listedE)) /\
  (exists sharedPair,
      In sharedPair (ArbitrageService.findSharedPairs configA listedE) /\
      SharedPairInfo.symbol sharedPair = "AAA/USDT") /\
  ((exists sharedPair,
       In sharedPair (ArbitrageService.findSharedPairs configA listedE) /\
       SharedPairInfo.symbol sharedPair = "BBB/USDT") -> False).
Proof.
  assert (Hnd : NoDup (map (fun m => (Member.name m, Listing.symbolOf m))
                         (Listing.listings configA listedE))).
  { vm_compute.
    repeat (constructor; [simpl; intuition discriminate|]). constructor. }
  split; [exact Hnd|].
  destruct (@shared_groups_distinct_sources configA listedE Hnd) as [_ Hiff].
  split.
  - apply (Hiff "AAA/USDT"). vm_compute. apply le_n.
  - intro H. apply (Hiff "BBB/USDT") in H. vm_compute in H.
    inversion H as [|? H']. inversion H'.
Defined.

(** X4 at scenario E filtered on USDT, with a third source that lists
    USDC pairs only put between X and Y. *)
Lemma filtered_source_contributes_nothing_witness :
  (forall pair, In pair (ExchangeData.pairs sourceUSDC) ->
                ArbitrageService.filteredOut configE pair = true) /\
  ArbitrageService.findSharedPairs configE
    (listedBefore ++ sourceUSDC :: listedAfter)
  = ArbitrageService.findSharedPairs configE listedE.
Proof.
  assert (Hout : forall pair, In pair (ExchangeData.pairs sourceUSDC) ->
                   ArbitrageService.filteredOut configE pair = true).
  { intros pair [<-|[<-|[]]]; reflexivity. }
  split; [exact Hout|].
  exact (@filtered_source_contributes_nothing configE
           listedBefore listedAfter sourceUSDC Hout).
Defined.


(** X7 where the second of three members names a source nobody
    registered: X is asked, Y is not. *)
Lemma unregistered_member_drops_group_witness :
  SharedPairInfo.exchanges groupUnregistered
  = ([memberOn "X" "AAA/USDT" "AAA" "USDT"]
       ++ memberOn "Q" "AAA/USDT" "AAA" "USDT"
       :: [memberOn "Y" "AAA/USDT" "AAA" "USDT"])%list /\
  JsMap.get sourcesA "Q" = None /\
  ArbitrageService._enrichSinglePairWithTickers sourcesA groupUnregistered 0
  = (None, 1).
Proof.
  split; [reflexivity|]. split; [reflexivity|].
  rewrite (@unregistered_member_drops_group World sourcesA groupUnregistered 0
             [memberOn "X" "AAA/USDT" "AAA" "USDT"]
             (memberOn "Q" "AAA/USDT" "AAA" "USDT")
             [memberOn "Y" "AAA/USDT" "AAA" "USDT"] eq_refl).
  - vm_compute. reflexivity.
  - intros ex' [<-|[]]. vm_compute. discriminate.
  - reflexivity.
Defined.

(** X8 where the buy source, and where the sell source, is missing. *)
Lemma validator_needs_both_sources_witness :
  JsMap.get sourcesA "Q" = None /\
  ArbitrageService._validateSingleOpportunity sourcesA boughtOnUnregistered 0
  = (None, 0) /\
  ArbitrageService._validateSingleOpportunity sourcesA soldOnUnregistered 0
  = (None, 2).
Proof.
  split; [reflexivity|]. split.
  - exact (proj1 (@validator_needs_both_sources World sourcesA
                    boughtOnUnregistered 0) eq_refl).
  - rewrite (proj2 (@validator_needs_both_sources World sourcesA
                      soldOnUnregistered 0)
               (source "X" 100 99.5 (Some statusX)) eq_refl eq_refl).
    vm_compute. reflexivity.
Defined.

(** X9 at scenario A. *)
Lemma validator_keeps_candidate_witness :
  ArbitrageService._validateSingleOpportunity sourcesA opportunityA 0
  = (Some (ArbitrageService.validated opportunityA
             (Some statusX) (Some statusX) (Some statusY) (Some statusY)), 4) /\
  Opportunity.buyAt
    (ArbitrageService.validated opportunityA
       (Some statusX) (Some statusX) (Some statusY) (Some statusY))
  = Opportunity.buyAt opportunityA.
Proof.
  assert (Hrun : ArbitrageService._validateSingleOpportunity
                   sourcesA opportunityA 0
                 = (Some (ArbitrageService.validated opportunityA
                            (Some statusX) (Some statusX)
                            (Some statusY) (Some statusY)), 4))
    by (vm_compute; reflexivity).
  split; [exact Hrun|].
  exact (proj1 (proj2 (proj2
           (@validator_keeps_candidate World sourcesA _ _ _ _ Hrun)))).
Defined.

(** X10 at scenario A. *)
Lemma yields_come_from_groups_witness :
  In (EvYield (ArbitrageService.validated opportunityA
                 (Some statusX) (Some statusX) (Some statusY) (Some statusY)))
     (fst (ArbitrageService.streamOpportunities
             sourcesA configA [groupAAA] 0)) /\
  exists buyer seller,
    In buyer (SharedPairInfo.exchanges groupAAA) /\
    Member.name buyer = "X" /\
    In seller (SharedPairInfo.exchanges groupAAA) /\
    Member.name seller = "Y".
Proof.
  assert (Hin :
    In (EvYield (ArbitrageService.validated opportunityA
                   (Some statusX) (Some statusX) (Some statusY) (Some statusY)))
       (fst (ArbitrageService.streamOpportunities
               sourcesA configA [groupAAA] 0))).
  { vm_compute. right. left. reflexivity. }
  split; [exact Hin|].
  destruct (@yields_come_from_groups World sourcesA configA [groupAAA] 0 _ Hin)
    as (g & buyer & seller & [<-|[]] & _ & Hb & Hbn & Hs & Hsn & _).
  exists buyer, seller. repeat split; assumption.
Defined.

(** X13 at scenario A, from a threshold of 0 to one of 0.5 and to one of
    5 percent. *)
Lemma raising_threshold_filters_witness :
  JsNumber.ge (ArbitrageConfig.minProfitPercentage configA)
              (ArbitrageConfig.minProfitPercentage configZero) = true /\
  ArbitrageService._findOpportunitiesInSinglePair configA enrichedA
  = filter
      (fun o => JsNumber.ge (Spread.ofOpportunity o)
                            (ArbitrageConfig.minProfitPercentage configA))
      (ArbitrageService._findOpportunitiesInSinglePair configZero enrichedA).
Proof.
  split; [reflexivity|].
  exact (@raising_threshold_filters configZero configA enrichedA eq_refl).
Defined.

(** X14 at the pair of scenario A. *)
Lemma assets_of_symbol_witness :
  Opportunity.pair opportunityA = "AAA" ++ String "/" "USDT" /\
  (In "/"%char (list_ascii_of_string "AAA") -> False) /\
  Status.baseAssetOf opportunityA = Some "AAA" /\
  Status.quoteAssetOf opportunityA = Some "USDT".
Proof.
  assert (Hbase : ~ In "/"%char (list_ascii_of_string "AAA")).
  { simpl. intuition discriminate. }
  assert (Hquote : ~ In "/"%char (list_ascii_of_string "USDT")).
  { simpl. intuition discriminate. }
  split; [reflexivity|]. split; [exact Hbase|].
  destruct (@assets_of_symbol opportunityA "AAA" "USDT" eq_refl Hbase)
    as (Hb & _ & Hq).
  split; [exact Hb | exact (Hq Hquote)].
Defined.

End FurtherInstances.

(* ================================================================== *)
(** * The facade *)

(** ** Helper lemmas *)

Module FacadeFacts.

Import IOpportunityRepository.
Import ArbitrageFacade.

Lemma generated_app (a b : list Step) :
  generated (a ++ b) = generated a ++ generated b.
Proof. apply flat_map_app. Qed.

Lemma added_app (a b : list Step) : added (a ++ b) = added a ++ added b.
Proof. apply flat_map_app. Qed.

Lemma Stored_app counts steps counts1 steps' counts2 :
  Stored counts steps counts1 -> Stored counts1 steps' counts2 ->
  Stored counts (steps ++ steps') counts2.
Proof.
  induction 1 as [c|c e s c' He _ IH|ec pc o s c' Ho _ IH|ec pc o s c' Ho _ IH];
    intro H2; simpl.
  - exact H2.
  - apply stored_event; [exact He | now apply IH].
  - apply stored_executable; [exact Ho | now apply IH].
  - apply stored_potential; [exact Ho | now apply IH].
Qed.

(** What a stored trace adds, and what it counts. *)
Lemma Stored_added counts steps counts' :
  Stored counts steps counts' ->
  added steps
  = map (fun o => (o, categoryOf o)) (Trace.yields (generated steps)) /\
  fst counts'
  = fst counts
    + List.length (filter executable (Trace.yields (generated steps))) /\
  snd counts'
  = snd counts
    + List.length
        (filter (fun o => negb (executable o))
           (Trace.yields (generated steps))) /\
  filter isPadded steps = [] /\ filter isClear steps = [].
Proof.
  induction 1 as [c|c e s c' He _ IH|ec pc o s c' Ho _ IH|ec pc o s c' Ho _ IH].
  - simpl. repeat split; lia.
  - destruct IH as (Ha & He' & Hp & Hpad & Hcl).
    destruct e as [symbol position total|o|ms|total]; simpl;
      try (repeat split; assumption).
    now destruct (He o).
  - destruct IH as (Ha & He' & Hp & Hpad & Hcl). simpl in *.
    unfold categoryOf at 1. rewrite Ho, Ha. simpl.
    repeat split; try assumption; lia.
  - destruct IH as (Ha & He' & Hp & Hpad & Hcl). simpl in *.
    unfold categoryOf at 1. rewrite Ho, Ha. simpl.
    repeat split; try assumption; lia.
Qed.

Section Facts.

Variable World : Type.
Variable exchangeImplementations : list (string * IExchangeRepository.t World).
Variable config : ArbitrageConfig.t.
Variable opportunityRepository : IOpportunityRepository.t World.

Local Abbreviation store := (ArbitrageFacade.store opportunityRepository).
Local Abbreviation validateEachFor :=
  (ArbitrageFacade.validateEachFor exchangeImplementations store).
Local Abbreviation analyseFor :=
  (ArbitrageFacade.analyseFor exchangeImplementations config store).
Local Abbreviation streamFor :=
  (ArbitrageFacade.streamFor exchangeImplementations config store).
Local Abbreviation forAwait :=
  (ArbitrageFacade.forAwait exchangeImplementations config store).

Lemma store_run counts o w steps r w' :
  store counts o w = ((steps, r), w') ->
  exists line counts',
    steps = [line; Add o (categoryOf o)] /\
    (r = Rejected \/ r = Fulfilled counts') /\
    generated [line] = [] /\
    Stored counts (Generator (EvYield o) :: steps) counts'.
Proof.
  destruct counts as [executableCount potentialCount].
  unfold ArbitrageFacade.store, categoryOf.
  destruct (executable o) eqn:Ho;
    unfold Script.bind, Script.log, Script.await, Script.ret;
    destruct (IOpportunityRepository.add opportunityRepository o _ w)
      as [[[]|] w1]; simpl; intro H; injection H as <- <- <-;
    eexists; eexists; (split; [reflexivity|]);
    (split; [try (now left); right; reflexivity|]);
    (split; [reflexivity|]).
  - apply stored_executable; [exact Ho | apply stored_nil].
  - apply (@stored_executable executableCount potentialCount o []
             (S executableCount, potentialCount)); [exact Ho | apply stored_nil].
  - apply stored_potential; [exact Ho | apply stored_nil].
  - apply (@stored_potential executableCount potentialCount o []
             (executableCount, S potentialCount)); [exact Ho | apply stored_nil].
Qed.

Lemma validateEachFor_stored candidates :
  forall counts w steps r w',
    validateEachFor candidates counts w = ((steps, r), w') ->
    exists counts',
      Stored counts steps counts' /\
      (r = Rejected /\
       (exists front o, steps = front ++ [Add o (categoryOf o)])
       \/ r = Fulfilled counts') /\
      filter Lines.isProgress (generated steps) = [] /\
      filter Lines.isDone (generated steps) = [].
Proof.
  induction candidates as [|c candidates IH]; intros counts w steps r w' H;
    simpl in H.
  - injection H as <- <- <-. exists counts.
    repeat split; [apply stored_nil | now right].
  - unfold Script.bind at 1 in H. unfold Script.awaitTotal at 1 in H.
    destruct (ArbitrageService._validateSingleOpportunity _ c w)
      as [[o|] w1].
    + unfold Script.bind at 1 in H. unfold Script.bind at 1 in H.
      unfold Script.log at 1 in H.
      destruct (store counts o w1) as [[steps1 r1] w2] eqn:Hs.
      destruct (store_run _ _ _ Hs)
        as (line & counts1 & -> & Hr & Hline & Hst).
      destruct Hr as [->| ->].
      * injection H as <- <- <-. exists counts1.
        split; [exact Hst|]. split.
        { left. split; [reflexivity|].
          now exists [Generator (EvYield o); line], o. }
        split; destruct line; simpl in Hline; try discriminate; reflexivity.
      * destruct (validateEachFor candidates counts1 w2)
          as [[steps' r'] w3] eqn:Hrest.
        injection H as <- <- <-.
        destruct (IH _ _ _ _ _ Hrest) as (counts' & Hst' & Hr' & Hp & Hd).
        exists counts'.
        split; [exact (Stored_app Hst Hst')|].
        split.
        { destruct Hr' as [(-> & front & o' & ->)| ->]; [left | now right].
          split; [reflexivity|].
          now exists (Generator (EvYield o) :: line
                        :: Add o (categoryOf o) :: front), o'. }
        destruct line; simpl in Hline; try discriminate; simpl;
          split; assumption.
    + unfold Script.bind at 1 in H. unfold Script.ret at 1 in H.
      destruct (validateEachFor candidates counts w1)
        as [[steps' r'] w3] eqn:Hrest.
      injection H as <- <- <-.
      destruct (IH _ _ _ _ _ Hrest) as (counts' & Hst' & Hr' & Hp & Hd).
      exists counts'. repeat split; assumption.
Qed.

(** One turn of the loop: the progress line of the group, then a stored
    trace without a line. *)
Lemma analyseFor_stored total i sharedPair counts w steps r w' :
  analyseFor total i sharedPair counts w = ((steps, r), w') ->
  exists counts',
    Stored counts steps counts' /\
    (r = Rejected /\
     (exists front o, steps = front ++ [Add o (categoryOf o)])
     \/ r = Fulfilled counts') /\
    filter Lines.isProgress (generated steps)
    = [EvProgress (SharedPairInfo.symbol sharedPair) (i + 1) total] /\
    filter Lines.isDone (generated steps) = [].
Proof.
  unfold ArbitrageFacade.analyseFor.
  unfold Script.bind at 1. unfold Script.log at 1.
  unfold Script.bind at 1. unfold Script.awaitTotal at 1.
  destruct (ArbitrageService._enrichSinglePairWithTickers _ sharedPair w)
    as [[enrichedPair|] w1].
  2:{ unfold Script.ret. intro H. injection H as <- <- <-. exists counts.
      repeat split; [|now right].
      apply stored_event; [discriminate | apply stored_nil]. }
  destruct (ArbitrageService._findOpportunitiesInSinglePair config enrichedPair)
    as [|c candidates].
  { unfold Script.ret. intro H. injection H as <- <- <-. exists counts.
    repeat split; [|now right].
    apply stored_event; [discriminate | apply stored_nil]. }
  unfold Script.bind at 1.
  destruct (validateEachFor (c :: candidates) counts w1)
    as [[steps1 r1] w2] eqn:Hv.
  destruct (validateEachFor_stored _ _ _ Hv) as (counts1 & Hst & Hr & Hp & Hd).
  destruct Hr as [(-> & front & o & Hfront)| ->].
  - intro H. injection H as <- <- <-. exists counts1.
    simpl. rewrite ?app_nil_r, Hp, Hd.
    split; [apply stored_event; [discriminate | exact Hst]|].
    split; [|split; reflexivity].
    left. split; [reflexivity|].
    exists (Generator
              (EvProgress (SharedPairInfo.symbol sharedPair) (i + 1) total)
              :: front), o.
    now rewrite Hfront.
  - unfold Script.bind, Script.log, Script.ret.
    intro H. injection H as <- <- <-. exists counts1.
    simpl. rewrite !generated_app, !filter_app, Hp, Hd.
    repeat split; [|now right].
    apply stored_event; [discriminate|].
    apply (Stored_app Hst).
    apply stored_event; [discriminate | apply stored_nil].
Qed.

(** The turns of the loop: a stored trace with the progress lines of the
    groups reached, those of all of them when the loop completes. *)
Lemma streamFor_stored pending :
  forall total i counts w steps r w',
    streamFor total i pending counts w = ((steps, r), w') ->
    exists counts' reached,
      Stored counts steps counts' /\
      (r = Rejected /\
       (exists front o, steps = front ++ [Add o (categoryOf o)])
       \/ r = Fulfilled counts') /\
      filter Lines.isProgress (generated steps)
      = Lines.expected total i (firstn reached pending) /\
      (r <> Rejected -> firstn reached pending = pending) /\
      filter Lines.isDone (generated steps) = [].
Proof.
  induction pending as [|g pending IH]; intros total i counts w steps r w' H;
    simpl in H.
  - injection H as <- <- <-. exists counts, 0.
    repeat split; [apply stored_nil | now right].
  - unfold Script.bind at 1 in H.
    destruct (analyseFor total i g counts w) as [[steps1 r1] w1] eqn:Ha.
    destruct (analyseFor_stored _ _ _ _ _ Ha)
      as (counts1 & Hst & Hr & Hp & Hd).
    destruct Hr as [(-> & Hlast)| ->].
    + injection H as <- <- <-. exists counts1, 1.
      split; [exact Hst|]. split; [left; split; [reflexivity | exact Hlast]|].
      split; [exact Hp|]. split; [|exact Hd].
      intro Hne. now destruct Hne.
    + destruct (streamFor total (S i) pending counts1 w1)
        as [[steps' r'] w2] eqn:Hrest.
      injection H as <- <- <-.
      destruct (IH _ _ _ _ _ _ _ Hrest)
        as (counts' & reached & Hst' & Hr' & Hp' & Hall & Hd').
      exists counts', (S reached).
      rewrite !generated_app, !filter_app, Hp, Hd, Hp', Hd'. simpl.
      split; [exact (Stored_app Hst Hst')|]. split.
      { destruct Hr' as [(-> & front & o & ->)| ->]; [left | now right].
        split; [reflexivity|].
        exists (steps1 ++ front), o. now rewrite app_assoc. }
      split; [reflexivity|]. split; [|reflexivity].
      intro Hne. now rewrite Hall.
Qed.

(** The whole loop. *)
Lemma forAwait_stored sharedPairs w steps r w' :
  forAwait sharedPairs (0, 0) w = ((steps, r), w') ->
  exists counts' reached,
    Stored (0, 0) steps counts' /\
    (r = Rejected /\
     (exists front o, steps = front ++ [Add o (categoryOf o)])
     \/ r = Fulfilled counts') /\
    filter Lines.isProgress (generated steps)
    = Lines.expected (List.length sharedPairs) 0 (firstn reached sharedPairs) /\
    (r <> Rejected ->
     firstn reached sharedPairs = sharedPairs /\
     exists front,
       steps = front ++ [Generator (EvDone (List.length sharedPairs))]).
Proof.
  unfold ArbitrageFacade.forAwait. unfold Script.bind at 1.
  destruct (streamFor (List.length sharedPairs) 0 sharedPairs (0, 0) w)
    as [[steps1 r1] w1] eqn:Hs.
  destruct (streamFor_stored _ _ _ _ _ Hs)
    as (counts1 & reached & Hst & Hr & Hp & Hall & Hd).
  destruct Hr as [(-> & Hlast)| ->].
  - intro H. injection H as <- <- <-. exists counts1, reached.
    split; [exact Hst|]. split; [left; split; [reflexivity | exact Hlast]|].
    split; [exact Hp|].
    intro Hne. now destruct Hne.
  - unfold Script.bind, Script.log, Script.ret.
    intro H. injection H as <- <- <-. exists counts1, reached.
    rewrite generated_app, filter_app, Hp. simpl. rewrite app_nil_r.
    split; [|split; [now right|split; [reflexivity|]]].
    + apply (Stored_app Hst).
      apply stored_event; [discriminate | apply stored_nil].
    + intro Hne. split; [now apply Hall | now exists steps1].
Qed.

(** The header: the lines that fit are logged, in order, up to the first
    text that does not fit, where [padLine] throws. *)
Lemma logPadded_run (texts : list string) (w : World) :
  exists shown,
    fst (fst (@logPadded World texts w)) = map shownLine shown /\
    snd (@logPadded World texts w) = w /\
    (snd (fst (@logPadded World texts w)) = Fulfilled tt /\ shown = texts /\
     Forall (fun text => visibleLength text <= 53) texts
     \/
     snd (fst (@logPadded World texts w)) = Rejected /\
     exists text rest,
       texts = shown ++ text :: rest /\ 53 < visibleLength text).
Proof.
  induction texts as [|text texts IH]; simpl.
  - exists []. split; [reflexivity|]. split; [reflexivity|].
    left. repeat split. constructor.
  - unfold Script.bind, Script.attempt, padLine.
    destruct (Z.ltb_spec (54 - Z.of_nat (visibleLength text) - 1) 0)
      as [Hlong|Hfits].
    + exists []. split; [reflexivity|]. split; [reflexivity|].
      right. split; [reflexivity|].
      exists text, texts. split; [reflexivity | lia].
    + destruct IH as (shown & Hsteps & Hw & Hcases).
      destruct (@logPadded World texts w) as [[steps r] w'].
      cbn [fst snd] in *. subst w' steps.
      exists (text :: shown). cbn [fst snd map app]. unfold shownLine at 1.
      replace (Z.to_nat (54 - Z.of_nat (visibleLength text) - 1))
        with (53 - visibleLength text) by lia.
      split; [reflexivity|]. split; [reflexivity|].
      destruct Hcases as [(-> & -> & Hall)|(-> & text' & rest & -> & Hlong)].
      * left. repeat split. constructor; [lia | exact Hall].
      * right. split; [reflexivity|]. now exists text', rest.
Qed.

Lemma shown_lines (shown : list string) :
  generated (map shownLine shown) = [] /\
  added (map shownLine shown) = [] /\
  filter isClear (map shownLine shown) = [] /\
  filter isFinalSummary (map shownLine shown) = [] /\
  filter isPadded (map shownLine shown) = map shownLine shown.
Proof.
  induction shown as [|text shown (Hg & Ha & Hc & Hf & Hp)]; simpl;
    repeat split; try assumption. now rewrite Hp.
Qed.

Variables yellow reset red : string.
Variable numberToString : float -> string.

Local Abbreviation run :=
  (ArbitrageFacade.run exchangeImplementations config opportunityRepository
     yellow reset red numberToString).
Local Abbreviation headerTexts :=
  (ArbitrageFacade.headerTexts config yellow reset red numberToString).

(** The course of a run. *)
Lemma run_course initialIndex finalIndex w steps r w' :
  run initialIndex finalIndex w = ((steps, r), w') ->
  exists shown,
    (steps = map shownLine shown /\ r = Rejected /\ w' = w /\
     exists text rest,
       headerTexts initialIndex finalIndex = shown ++ text :: rest /\
       53 < visibleLength text)
    \/
    shown = headerTexts initialIndex finalIndex /\
    Forall (fun text => visibleLength text <= 53) shown /\
    (steps = map shownLine shown ++ [Clear Executable] /\ r = Rejected
     \/
     steps = map shownLine shown ++ [Clear Executable; Clear Potential] /\
     r = Rejected
     \/
     exists w0 exchangeData loop counts reached,
       fst (ArbitrageService.fetchAllPairsFromRepositories
              (repositoriesMap exchangeImplementations) w0)
       = Fulfilled exchangeData /\
       let sharedPairs :=
         ArbitrageService.findSharedPairs config exchangeData in
       let pairsToAnalyze :=
         JsArray.slice sharedPairs initialIndex finalIndex in
       Stored (0, 0) loop counts /\
       filter Lines.isProgress (generated loop)
       = Lines.expected (List.length pairsToAnalyze) 0
           (firstn reached pairsToAnalyze) /\
       filter isFinalSummary loop = [] /\
       (steps = map shownLine shown
                  ++ Clear Executable :: Clear Potential
                  :: SharedPairsFound (List.length sharedPairs) :: loop /\
        r = Rejected /\
        (exists front o, loop = front ++ [Add o (categoryOf o)])
        \/
        firstn reached pairsToAnalyze = pairsToAnalyze /\
        (exists front,
            loop = front
                     ++ [Generator (EvDone (List.length pairsToAnalyze))]) /\
        steps = map shownLine shown
                  ++ Clear Executable :: Clear Potential
                  :: SharedPairsFound (List.length sharedPairs)
                  :: loop ++ [FinalSummary (fst counts) (snd counts)] /\
        r = Fulfilled tt)).
Proof.
  unfold ArbitrageFacade.run, ArbitrageFacade._logInitialHeader.
  destruct (logPadded_run (headerTexts initialIndex finalIndex) w)
    as (shown & Hsteps & Hw & Hcases).
  intro H. exists shown.
  unfold Script.bind at 1 in H.
  destruct (logPadded (headerTexts initialIndex finalIndex) w)
    as [[steps0 r0] w1].
  cbn [fst snd] in Hsteps, Hw, Hcases. subst steps0 w1.
  destruct Hcases as [(-> & -> & Hfit)|(-> & Hlong)].
  2:{ left. injection H as <- <- <-. repeat split. exact Hlong. }
  right. split; [reflexivity|]. split; [exact Hfit|].
  unfold Script.bind at 1 in H. unfold Script.log at 1 in H.
  unfold Script.bind at 1 in H. unfold Script.await at 1 in H.
  destruct (IOpportunityRepository.clear opportunityRepository Executable w)
    as [[[]|] w1].
  2:{ left. injection H as <- <- <-. cbn [app]. rewrite ?app_nil_r. split; reflexivity. }
  right.
  unfold Script.bind at 1 in H. unfold Script.log at 1 in H.
  unfold Script.bind at 1 in H. unfold Script.await at 1 in H.
  destruct (IOpportunityRepository.clear opportunityRepository Potential w1)
    as [[[]|] w2].
  2:{ left. injection H as <- <- <-. cbn [app]. rewrite ?app_nil_r. split; reflexivity. }
  unfold Script.bind at 1 in H. unfold Script.await at 1 in H.
  destruct (ArbitrageService.fetchAllPairsFromRepositories
              (repositoriesMap exchangeImplementations) w2)
    as [[exchangeData|] w3] eqn:Hfetch.
  2:{ left. injection H as <- <- <-. cbn [app]. rewrite ?app_nil_r. split; reflexivity. }
  right.
  unfold Script.bind at 1 in H. unfold Script.log at 1 in H.
  unfold Script.bind at 1 in H.
  destruct (forAwait
              (JsArray.slice
                 (ArbitrageService.findSharedPairs config exchangeData)
                 initialIndex finalIndex) (0, 0) w3)
    as [[loop r1] w4] eqn:Hloop.
  destruct (forAwait_stored _ _ Hloop)
    as (counts & reached & Hst & Hr & Hp & Hdone).
  exists w2, exchangeData, loop, counts, reached.
  split; [now rewrite Hfetch|]. cbv zeta.
  split; [exact Hst|]. split; [exact Hp|].
  assert (Hnf : filter isFinalSummary loop = []).
  { clear -Hst.
    induction Hst as [c|c e s c' He _ IH|ec pc o s c' Ho _ IH
                      |ec pc o s c' Ho _ IH]; simpl; auto. }
  split; [exact Hnf|].
  destruct Hr as [(-> & Hlast)| ->].
  - left. injection H as <- <- <-. cbn [app]. rewrite ?app_nil_r.
    split; [reflexivity|]. split; [reflexivity | exact Hlast].
  - right. destruct Hdone as [Hall Hfront]; [discriminate|].
    split; [exact Hall|]. split; [exact Hfront|].
    unfold Script.log in H. injection H as <- <- <-. split; reflexivity.
Qed.

(** The [Map] of the constructor: a [set] per implementation. *)
Lemma get_set {V} (m : JsMap.t V) k v k' :
  JsMap.get (JsMap.set m k v) k'
  = if String.eqb k' k then Some v else JsMap.get m k'.
Proof.
  induction m as [|[k0 v0] m IH]; simpl.
  - reflexivity.
  - destruct (String.eqb_spec k k0) as [->|Hne]; simpl.
    + destruct (String.eqb_spec k' k0); reflexivity.
    + rewrite IH.
      destruct (String.eqb_spec k' k0) as [->|_]; [|reflexivity].
      destruct (String.eqb_spec k0 k) as [->|_]; [contradiction | reflexivity].
Qed.

Lemma repositoriesMap_snoc (l : list (string * IExchangeRepository.t World))
    entry :
  repositoriesMap (l ++ [entry])
  = JsMap.set (repositoriesMap l) (fst entry) (snd entry).
Proof. unfold repositoriesMap. now rewrite fold_left_app. Qed.

Lemma repositoriesMap_keys (l : list (string * IExchangeRepository.t World)) :
  JsMap.keys (repositoriesMap l) = Listing.firstSeen (map fst l).
Proof.
  induction l as [|entry l IH] using rev_ind; [reflexivity|].
  rewrite repositoriesMap_snoc, map_app. simpl.
  rewrite FirstSeenFacts.firstSeen_snoc.
  destruct (JsString.includes (map fst l) (fst entry)) eqn:Hin.
  - rewrite app_nil_r, <- IH. apply JsMapFacts.keys_set_present.
    rewrite IH. apply FirstSeenFacts.In_firstSeen.
    now apply JsStringFacts.includes_In.
  - rewrite JsMapFacts.set_absent.
    + unfold JsMap.keys in *. rewrite map_app, IH. reflexivity.
    + rewrite IH, FirstSeenFacts.In_firstSeen.
      rewrite <- JsStringFacts.includes_In. congruence.
Qed.

End Facts.
End FacadeFacts.

Module TraceFacts.



End TraceFacts.

Module SliceFacts.

Import JsArray.

Lemma relativeIndex_nat (len a : nat) :
  relativeIndex len (Integer (Z.of_nat a)) = Nat.min a len.
Proof.
  unfold relativeIndex.
  destruct (Z.ltb_spec (Z.of_nat a) 0) as [Hneg|_]; lia.
Qed.

Lemma relativeIndex_bound (len : nat) relative :
  relativeIndex len relative <= len.
Proof.
  destruct relative as [|z|]; simpl; try lia.
  destruct (Z.ltb_spec z 0); lia.
Qed.

End SliceFacts.

(** ** Properties of the facade *)

Section FacadeProperties.

Import IOpportunityRepository.
Import ArbitrageFacade.

Variable World : Type.
Variable exchangeImplementations : list (string * IExchangeRepository.t World).
Variable config : ArbitrageConfig.t.
Variable opportunityRepository : IOpportunityRepository.t World.
Variables yellow reset red : string.
Variable numberToString : float -> string.

Local Abbreviation run :=
  (ArbitrageFacade.run exchangeImplementations config opportunityRepository
     yellow reset red numberToString).
Local Abbreviation headerTexts :=
  (ArbitrageFacade.headerTexts config yellow reset red numberToString).

(** X16.  [slice] on two numbers takes a segment of the array: the array
    is what stands in front of the slice, the slice and what stands
    behind it.  For two indices that are natural numbers [a] and [b] it
    is the elements from position [a] up to, not including, position
    [b], none when [b <= a] or [a] is beyond the end. *)
Theorem slice_takes_a_segment {A : Type} (arr : list A) (start final : float) :
  (exists front behind,
      arr = front ++ JsArray.slice arr start final ++ behind) /\
  (forall a b,
      JsArray.toIntegerOrInfinity start = JsArray.Integer (Z.of_nat a) ->
      JsArray.toIntegerOrInfinity final = JsArray.Integer (Z.of_nat b) ->
      JsArray.slice arr start final = firstn (b - a) (skipn a arr)).
Proof.
  unfold JsArray.slice. split.
  - eexists. eexists. now rewrite !firstn_skipn.
  - intros a b -> ->. rewrite !SliceFacts.relativeIndex_nat.
    destruct (Nat.le_gt_cases (List.length arr) a) as [Hout|Hin].
    + rewrite (Nat.min_r a) by exact Hout.
      rewrite !skipn_all2 by lia. now rewrite !firstn_nil.
    + rewrite (Nat.min_l a) by lia.
      destruct (Nat.le_gt_cases (List.length arr) b) as [Hb|Hb].
      * rewrite (Nat.min_r b) by exact Hb.
        rewrite !firstn_all2; try reflexivity; rewrite length_skipn; lia.
      * now rewrite (Nat.min_l b) by lia.
Qed.

(** X17.  The [Map] the constructor builds holds each name once, in the
    order in which the names first occur among the implementations, and
    under each name the instance of the last implementation of that
    name. *)
Theorem repositories_map_last_wins :
  JsMap.keys (repositoriesMap exchangeImplementations)
  = Listing.firstSeen (map fst exchangeImplementations) /\
  NoDup (JsMap.keys (repositoriesMap exchangeImplementations)) /\
  forall name,
    JsMap.get (repositoriesMap exchangeImplementations) name
    = option_map snd
        (find (fun entry => String.eqb name (fst entry))
           (rev exchangeImplementations)).
Proof.
  split; [apply FacadeFacts.repositoriesMap_keys|]. split.
  - rewrite FacadeFacts.repositoriesMap_keys.
    apply FirstSeenFacts.NoDup_firstSeen.
  - intro name.
    induction exchangeImplementations as [|entry l IH] using rev_ind;
      [reflexivity|].
    rewrite FacadeFacts.repositoriesMap_snoc, FacadeFacts.get_set, rev_app_distr.
    simpl. destruct (String.eqb name (fst entry)); [reflexivity | exact IH].
Qed.

(** X18.  A header text of more than 53 visible characters stops the run
    before it does anything: [padLine] throws on it, the run rejects
    having logged the header lines in front of that text only, and
    nothing is cleared, fetched, analysed or stored. *)
Theorem long_header_line_aborts_run (initialIndex finalIndex : float)
    (w : World) :
  Exists (fun text => 53 < visibleLength text)
    (headerTexts initialIndex finalIndex) ->
  exists shown text rest,
    headerTexts initialIndex finalIndex = shown ++ text :: rest /\
    53 < visibleLength text /\
    run initialIndex finalIndex w = ((map shownLine shown, Rejected), w).
Proof.
  intro Hlong.
  destruct (run initialIndex finalIndex w) as [[steps r] w'] eqn:Hrun.
  destruct (FacadeFacts.run_course _ _ _ _ _ _ _ _ _ _ Hrun)
    as (shown & [(-> & -> & -> & text & rest & Htexts & Htext)
                |(-> & Hfit & _)]).
  - now exists shown, text, rest.
  - exfalso. apply Exists_exists in Hlong.
    destruct Hlong as (text & Hin & Htext).
    rewrite Forall_forall in Hfit. specialize (Hfit text Hin). lia.
Qed.


(** X20.  What a run hands to the store is what the generator yields:
    each yielded opportunity once, in the order of the yields, under
    [executable] when its validation says it is executable and under
    [potential] otherwise, and nothing else.  This holds for the part of
    a run that fails on the way as well. *)
Theorem run_stores_what_is_yielded (initialIndex finalIndex : float)
    (w : World) :
  added (fst (fst (run initialIndex finalIndex w)))
  = map (fun o => (o, categoryOf o))
      (Trace.yields (generated (fst (fst (run initialIndex finalIndex w))))).
Proof.
  destruct (run initialIndex finalIndex w) as [[steps r] w'] eqn:Hrun.
  simpl.
  destruct (FacadeFacts.run_course _ _ _ _ _ _ _ _ _ _ Hrun)
    as (shown & [(-> & _)|(_ & _ & [(-> & _)|[(-> & _)|Hrest]])]);
    destruct (FacadeFacts.shown_lines shown) as (Hg & Ha & _).
  - now rewrite Hg, Ha.
  - now rewrite FacadeFacts.generated_app, FacadeFacts.added_app, Hg, Ha.
  - now rewrite FacadeFacts.generated_app, FacadeFacts.added_app, Hg, Ha.
  - destruct Hrest as (w0 & exchangeData & loop & counts & reached & _ & Hrest).
    cbv zeta in Hrest. destruct Hrest as (Hst & _ & _ & Hsteps).
    destruct (FacadeFacts.Stored_added Hst) as (Hadded & _).
    destruct Hsteps as [(-> & _)|(_ & _ & -> & _)];
      rewrite FacadeFacts.generated_app, FacadeFacts.added_app, Hg, Ha;
      simpl; rewrite ?FacadeFacts.generated_app, ?FacadeFacts.added_app;
      simpl; rewrite ?app_nil_r; exact Hadded.
Qed.

(** X21.  A run that completes ends with the final summary, written once,
    and the two numbers it shows are the number of opportunities the
    generator yielded that were executable and the number of those that
    were not. *)
Theorem run_summary_counts (initialIndex finalIndex : float) (w : World) :
  snd (fst (run initialIndex finalIndex w)) = Fulfilled tt ->
  exists front,
    fst (fst (run initialIndex finalIndex w))
    = front
        ++ [FinalSummary
              (List.length
                 (filter executable (Trace.yields (generated front))))
              (List.length
                 (filter (fun o => negb (executable o))
                    (Trace.yields (generated front))))] /\
    filter isFinalSummary front = [].
Proof.
  destruct (run initialIndex finalIndex w) as [[steps r] w'] eqn:Hrun.
  simpl. intros ->.
  destruct (FacadeFacts.run_course _ _ _ _ _ _ _ _ _ _ Hrun)
    as (shown & [(_ & Hr & _)|(_ & _ & [(_ & Hr)|[(_ & Hr)|Hrest]])]);
    try discriminate.
  destruct Hrest as (w0 & exchangeData & loop & counts & reached & _ & Hrest).
  cbv zeta in Hrest. destruct Hrest as (Hst & _ & Hnf & Hsteps).
  destruct Hsteps as [(_ & Hr & _)|(_ & _ & -> & _)]; [discriminate|].
  destruct (FacadeFacts.Stored_added Hst) as (_ & He & Hp & _).
  destruct (FacadeFacts.shown_lines shown) as (Hg & _ & _ & Hf & _).
  exists (map shownLine shown
            ++ Clear Executable :: Clear Potential
            :: SharedPairsFound
                 (List.length
                    (ArbitrageService.findSharedPairs config exchangeData))
            :: loop).
  cbn [fst snd Nat.add] in He, Hp.
  rewrite FacadeFacts.generated_app, Hg. cbn [app].
  change (generated
            (Clear Executable :: Clear Potential
             :: SharedPairsFound
                  (List.length
                     (ArbitrageService.findSharedPairs config exchangeData))
             :: loop))
    with (generated loop).
  rewrite <- He, <- Hp, filter_app, Hf. cbn [app filter isFinalSummary].
  split; [|exact Hnf].
  rewrite <- app_assoc. reflexivity.
Qed.


End FacadeProperties.

Module GeneratorFacts.
Section Facts.

Import ArbitrageFacade.

Variable World : Type.
Variable exchangeImplementations : list (string * IExchangeRepository.t World).
Variable config : ArbitrageConfig.t.
Variable State : Type.

(** A loop body that does nothing. *)
Local Abbreviation skip :=
  (fun (state : State) (_ : Opportunity.t) =>
     @Script.ret World Step State state).

Local Abbreviation sources := (repositoriesMap exchangeImplementations).




End Facts.
End GeneratorFacts.

Section GeneratorProperties.

Import ArbitrageFacade.

Variable World : Type.
Variable exchangeImplementations : list (string * IExchangeRepository.t World).
Variable config : ArbitrageConfig.t.


End GeneratorProperties.

(** ** The properties of the facade at concrete runs *)

Section FacadeInstances.

Import Scenario.
Import FacadeCases.
Import IOpportunityRepository.
Import ArbitrageFacade.
Local Open Scope string_scope.

(** X16 at the indices the application starts with, 0 and 2000, and at 1
    and 3. *)
Lemma slice_takes_a_segment_witness :
  JsArray.toIntegerOrInfinity 0 = JsArray.Integer (Z.of_nat 0) /\
  JsArray.toIntegerOrInfinity 2000 = JsArray.Integer (Z.of_nat 2000) /\
  JsArray.slice ["a"; "b"; "c"; "d"] 0 2000 = ["a"; "b"; "c"; "d"] /\
  JsArray.slice ["a"; "b"; "c"; "d"] 1 3 = ["b"; "c"].
Proof.
  assert (H0 : JsArray.toIntegerOrInfinity 0 = JsArray.Integer (Z.of_nat 0))
    by (vm_compute; reflexivity).
  assert (H1 : JsArray.toIntegerOrInfinity 1 = JsArray.Integer (Z.of_nat 1))
    by (vm_compute; reflexivity).
  assert (H3 : JsArray.toIntegerOrInfinity 3 = JsArray.Integer (Z.of_nat 3))
    by (vm_compute; reflexivity).
  assert (H2000 : JsArray.toIntegerOrInfinity 2000
                  = JsArray.Integer (Z.of_nat 2000))
    by (vm_compute; reflexivity).
  split; [exact H0|]. split; [exact H2000|]. split.
  - rewrite (proj2 (slice_takes_a_segment ["a"; "b"; "c"; "d"] 0 2000)
               0 2000 H0 H2000).
    reflexivity.
  - rewrite (proj2 (slice_takes_a_segment ["a"; "b"; "c"; "d"] 1 3)
               1 3 H1 H3).
    reflexivity.
Defined.

(** X18 with a filter of six quote assets: the run stops at the fourth
    line of the header. *)
Lemma long_header_line_aborts_run_witness :
  Exists (fun text => 53 < visibleLength text)
    (headerTexts configSix yellow reset red shownAsZero 0 2000) /\
  snd (FacadeCases.run configSix 0 2000) = Rejected /\
  filter isClear (fst (FacadeCases.run configSix 0 2000)) = [].
Proof.
  assert (Hlong : Exists (fun text => 53 < visibleLength text)
                    (headerTexts configSix yellow reset red shownAsZero
                       0 2000)).
  { apply Exists_cons_tl, Exists_cons_tl, Exists_cons_tl, Exists_cons_hd.
    vm_compute. repeat constructor. }
  split; [exact Hlong|].
  destruct (@long_header_line_aborts_run World implementations configSix FacadeCases.store
              yellow reset red shownAsZero 0 2000 0 Hlong)
    as (shown & text & rest & _ & _ & Hrun).
  unfold FacadeCases.run. rewrite Hrun. simpl.
  split; [reflexivity|].
  now destruct (FacadeFacts.shown_lines shown) as (_ & _ & -> & _).
Defined.


(** X21 at a run over the three pairs: AAA and CCC are executable, BBB is
    not. *)
Lemma run_summary_counts_witness :
  snd (FacadeCases.run configA 0 2000) = Fulfilled tt /\
  exists front,
    fst (FacadeCases.run configA 0 2000)
    = (front ++ [FinalSummary 2 1])%list.
Proof.
  assert (Hdone : snd (FacadeCases.run configA 0 2000) = Fulfilled tt)
    by (vm_compute; reflexivity).
  split; [exact Hdone|].
  destruct (@run_summary_counts World implementations configA FacadeCases.store
              yellow reset red shownAsZero 0 2000 0 Hdone)
    as (front & Hsteps & _).
  exists front. unfold FacadeCases.run. rewrite Hsteps. f_equal.
  assert (Hfront :
    front = removelast (fst (FacadeCases.run configA 0 2000))).
  { unfold FacadeCases.run. rewrite Hsteps.
    now rewrite removelast_last. }
  rewrite Hfront. vm_compute. reflexivity.
Defined.


End FacadeInstances.

(* ================================================================== *)
(** * The Bitget adapter and the sources that never throw *)

Module FailSoftFacts.
Section Facts.

Variable World : Type.

Import Effect.

(** The fetch, by the requests it issues. *)
Lemma fetch_run (exchangeRepositories : JsMap.t (IExchangeRepository.t World))
    (w : World) :
  ArbitrageService.fetchAllPairsFromRepositories exchangeRepositories w
  = (match all_fulfilled
             (fst (Fetch.pairRequests
                     (JsMap.entries exchangeRepositories) w)) with
     | Some lists =>
         Fulfilled (Fetch.labelled (JsMap.keys exchangeRepositories) lists)
     | None => Rejected
     end,
     snd (Fetch.pairRequests (JsMap.entries exchangeRepositories) w)).
Proof.
  unfold ArbitrageService.fetchAllPairsFromRepositories.
  unfold bind at 1. rewrite FetchFacts.fan_out.
  unfold Promise_all.
  change (map fst (JsMap.entries exchangeRepositories))
    with (JsMap.keys exchangeRepositories).
  rewrite FetchFacts.all_tagged.
  - now destruct (all_fulfilled _).
  - unfold JsMap.keys. rewrite length_map.
    apply FetchFacts.pairRequests_length.
Qed.

Lemma requests_all_fulfilled
    (entries : list (string * IExchangeRepository.t World)) :
  (forall entry, In entry entries ->
     forall w, fst (IExchangeRepository.fetchAllPairs (snd entry) w)
               <> Rejected) ->
  forall w, ~ In Rejected (fst (Fetch.pairRequests entries w)).
Proof.
  induction entries as [|entry rest IH]; intros Hsoft w; simpl; [tauto|].
  pose proof (Hsoft entry (or_introl eq_refl) w) as Hentry.
  destruct (IExchangeRepository.fetchAllPairs (snd entry) w) as [o w1].
  specialize (IH (fun e H => Hsoft e (or_intror H)) w1).
  destruct (Fetch.pairRequests rest w1) as [os w2]. simpl in *.
  intros [H|H]; [now subst o | now apply IH].
Qed.

End Facts.
End FailSoftFacts.

Section AdapterProperties.

Import BitgetApi.

Variable World : Type.
Variable getSymbols : Effect.IO World (Body BitgetRawPair).
Variable getCoins : Effect.IO World (Body BitgetCoinInfo).
Variable toUpperCase : string -> string.
Variable rawOf : BitgetRawPair -> Any.
Variable infoOf : BitgetCoinInfo -> Any.

Local Abbreviation fetchAllPairs :=
  (BitgetApi.fetchAllPairs getSymbols rawOf).
Local Abbreviation getAssetStatus :=
  (BitgetApi.getAssetStatus getCoins toUpperCase infoOf).

(** X24.  [fetchAllPairs] of the Bitget adapter never rejects and does
    nothing but the one request.  When the request fails or the response
    carries no array it resolves to no pairs; otherwise to one pair per
    market whose status is [online], in the order of the response, with
    the symbol [baseCoin/quoteCoin], that base and quote, and the
    exchange [bitget]. *)
Theorem bitget_pairs_fail_soft (w : World) :
  snd (fetchAllPairs w) = snd (getSymbols w) /\
  exists pairs,
    fst (fetchAllPairs w) = Fulfilled pairs /\
    ((forall rawPairs,
         fst (getSymbols w) <> Fulfilled (Items rawPairs)) -> pairs = []) /\
    (forall rawPairs,
        fst (getSymbols w) = Fulfilled (Items rawPairs) ->
        pairs
        = map (standardPair rawOf)
            (filter (fun market => String.eqb (status market) "online")
               rawPairs)) /\
    (forall pair,
        In pair pairs ->
        StandardPair.symbol pair
        = (StandardPair.base pair ++ "/" ++ StandardPair.quote pair)%string /\
        StandardPair.exchange pair = "bitget"%string).
Proof.
  unfold BitgetApi.fetchAllPairs, caught, Effect.try_catch, Effect.bind.
  destruct (getSymbols w) as [[[|rawPairs]|] w1]; simpl.
  - split; [reflexivity|]. exists [].
    split; [reflexivity|]. split; [reflexivity|].
    split; [discriminate | intros pair []].
  - split; [reflexivity|]. eexists. split; [reflexivity|]. split; [|split].
    + intro H. now destruct (H rawPairs).
    + intros rawPairs' H. now injection H as <-.
    + intros pair Hin. apply in_map_iff in Hin.
      destruct Hin as (market & <- & _). split; reflexivity.
  - split; [reflexivity|]. exists [].
    split; [reflexivity|]. split; [reflexivity|].
    split; [discriminate | intros pair []].
Qed.


End AdapterProperties.

Section FailSoftProperties.

Variable World : Type.
Variable exchangeRepositories : JsMap.t (IExchangeRepository.t World).

(** X26.  With statuses whose flags say what their networks say, as the
    adapters build them, the validator's [isExecutable] is true exactly
    when there is a common network: a common network is a withdrawal
    network of the buy source and a deposit network of the sell source,
    which makes both flags true. *)
Theorem executable_iff_common_network (o : Opportunity.t)
    (s1 s2 s3 s4 : option AssetStatus.t) (v : Opportunity.Validation) :
  Flags.fromNetworks s1 -> Flags.fromNetworks s3 ->
  Opportunity.validation (ArbitrageService.validated o s1 s2 s3 s4) = Some v ->
  Opportunity.isExecutable v
  = (0 <? List.length (Opportunity.commonNetworks v)).
Proof.
  intros H1 H3 Hv.
  destruct (ValidatorFacts.validated_record o s1 s2 s3 s4)
    as (v' & Hv' & Hcommon & Hw & Hd & Hexec).
  rewrite Hv in Hv'. injection Hv' as <-.
  rewrite Hexec.
  destruct (Nat.ltb_spec 0 (List.length (Opportunity.commonNetworks v)))
    as [Hsome|Hnone]; [|now rewrite andb_false_r].
  rewrite andb_true_r.
  assert (Hnet : exists net, In net (Opportunity.commonNetworks v)).
  { destruct (Opportunity.commonNetworks v) as [|net l];
      [simpl in Hsome; lia | exists net; now left]. }
  destruct Hnet as (net & Hnet). rewrite Hcommon in Hnet.
  apply filter_In in Hnet. destruct Hnet as [Hin1 Hin3].
  apply JsStringFacts.includes_In in Hin3.
  destruct s1 as [st1|]; [|contradiction].
  destruct s3 as [st3|]; [|contradiction].
  simpl in *. destruct H1 as [_ ->]. destruct H3 as [-> _].
  destruct (AssetStatus.withdrawNetworks st1); [contradiction|].
  destruct (AssetStatus.depositNetworks st3); [contradiction|].
  reflexivity.
Qed.

(** X27.  When no source rejects the request for its pairs, as the
    adapters, which catch whatever goes wrong, never do, the fetch of all
    pairs never rejects: it resolves with one entry per registered
    source, in the order of the [Map]. *)
Theorem fail_soft_sources_never_fail_the_fetch (w : World) :
  (forall name repo,
      In (name, repo) (JsMap.entries exchangeRepositories) ->
      forall w', fst (IExchangeRepository.fetchAllPairs repo w') <> Rejected) ->
  exists exchangeData,
    fst (ArbitrageService.fetchAllPairsFromRepositories
           exchangeRepositories w) = Fulfilled exchangeData /\
    map ExchangeData.name exchangeData = JsMap.keys exchangeRepositories.
Proof.
  intro Hsoft. rewrite FailSoftFacts.fetch_run. simpl.
  destruct (Effect.all_fulfilled
              (fst (Fetch.pairRequests
                      (JsMap.entries exchangeRepositories) w)))
    as [lists|] eqn:Hall.
  - eexists. split; [reflexivity|].
    apply FetchFacts.labelled_names.
    apply EnricherFacts.all_fulfilled_length in Hall. rewrite Hall.
    unfold JsMap.keys. rewrite length_map.
    apply FetchFacts.pairRequests_length.
  - exfalso. apply EnricherFacts.all_fulfilled_None in Hall.
    revert Hall. apply FailSoftFacts.requests_all_fulfilled.
    intros [name repo] Hin w'. exact (Hsoft name repo Hin w').
Qed.

End FailSoftProperties.

(** ** The adapter and the fail-soft sources at concrete answers *)

Section AdapterInstances.

Import Scenario.
Import BitgetApi.
Import BitgetCases.
Local Open Scope string_scope.

(** X24 where two of three markets are online, and where the request
    fails. *)
Lemma bitget_pairs_fail_soft_witness :
  map StandardPair.symbol
    (match fst (IExchangeRepository.fetchAllPairs bitget 0) with
     | Fulfilled pairs => pairs
     | Rejected => []
     end)
  = ["AAA/USDT"; "CCC/USDT"] /\
  fst (IExchangeRepository.fetchAllPairs bitgetDown 0) = Fulfilled [].
Proof.
  split.
  - destruct (@bitget_pairs_fail_soft World (served (Items markets))
                objectOfMarket 0) as (_ & pairs & Hrun & _ & Hpairs & _).
    unfold bitget. simpl IExchangeRepository.fetchAllPairs.
    rewrite Hrun, (Hpairs markets eq_refl). reflexivity.
  - destruct (@bitget_pairs_fail_soft World failed objectOfMarket 0)
      as (_ & pairs & Hrun & Hnone & _).
    unfold bitgetDown. simpl IExchangeRepository.fetchAllPairs.
    rewrite Hrun. f_equal. apply Hnone. intros rawPairs. discriminate.
Defined.


(** X26 with the statuses Bitget gives for AAA and CCC: AAA leaves over
    ERC20 and CCC arrives over ERC20. *)
Lemma executable_iff_common_network_witness :
  Flags.fromNetworks (Some (assetStatus upper objectOfCoin coinAAA)) /\
  Flags.fromNetworks (Some (assetStatus upper objectOfCoin coinCCC)) /\
  exists v,
    Opportunity.validation
      (ArbitrageService.validated opportunityA
         (Some (assetStatus upper objectOfCoin coinAAA)) None
         (Some (assetStatus upper objectOfCoin coinCCC)) None) = Some v /\
    Opportunity.commonNetworks v = ["ERC20"] /\
    Opportunity.isExecutable v = true.
Proof.
  assert (H1 : Flags.fromNetworks
                 (Some (assetStatus upper objectOfCoin coinAAA)))
    by (split; reflexivity).
  assert (H3 : Flags.fromNetworks
                 (Some (assetStatus upper objectOfCoin coinCCC)))
    by (split; reflexivity).
  split; [exact H1|]. split; [exact H3|].
  eexists. split; [reflexivity|]. split; [reflexivity|].
  rewrite (@executable_iff_common_network opportunityA _ None _ None _
             H1 H3 eq_refl).
  reflexivity.
Defined.

(** X27 with Bitget answering and a second Bitget whose requests fail. *)
Lemma fail_soft_sources_never_fail_the_fetch_witness :
  (forall name repo,
      In (name, repo) [("bitget", bitget); ("down", bitgetDown)] ->
      forall w', fst (IExchangeRepository.fetchAllPairs repo w') <> Rejected) /\
  exists exchangeData,
    fst (ArbitrageService.fetchAllPairsFromRepositories
           [("bitget", bitget); ("down", bitgetDown)] 0)
    = Fulfilled exchangeData /\
    map ExchangeData.name exchangeData = ["bitget"; "down"].
Proof.
  assert (Hsoft : forall name repo,
            In (name, repo) [("bitget", bitget); ("down", bitgetDown)] ->
            forall w',
              fst (IExchangeRepository.fetchAllPairs repo w') <> Rejected).
  { intros name repo [H|[H|[]]] w'; injection H as <- <-; discriminate. }
  split; [exact Hsoft|].
  exact (@fail_soft_sources_never_fail_the_fetch World
           [("bitget", bitget); ("down", bitgetDown)] 0 Hsoft).
Defined.

End AdapterInstances.

(* ================================================================== *)
(** * The announcements and the failing store *)

Module NumberingFacts.

Import IOpportunityRepository.
Import ArbitrageFacade.

Lemma announced_app (a b : list Step) :
  announcedExecutable (a ++ b)
  = announcedExecutable a ++ announcedExecutable b /\
  announcedPotential (a ++ b)
  = announcedPotential a ++ announcedPotential b.
Proof. split; apply flat_map_app. Qed.

Lemma announced_lines (shown : list string) :
  announcedExecutable (map shownLine shown) = [] /\
  announcedPotential (map shownLine shown) = [].
Proof. induction shown as [|text shown [IH1 IH2]]; simpl; auto. Qed.

(** The announcements of a stored trace go on from the counts it starts
    with, one by one, up to the counts it ends with. *)
Lemma Stored_numbered counts steps counts' :
  Stored counts steps counts' ->
  announcedExecutable steps
  = seq (S (fst counts)) (fst counts' - fst counts) /\
  announcedPotential steps
  = seq (S (snd counts)) (snd counts' - snd counts) /\
  fst counts <= fst counts' /\ snd counts <= snd counts'.
Proof.
  induction 1 as [c|c e s c' He _ IH|ec pc o s c' Ho _ IH|ec pc o s c' Ho _ IH].
  - rewrite !Nat.sub_diag. simpl. repeat split; apply le_n.
  - exact IH.
  - destruct IH as (He & Hp & Hle & Hle'). simpl in *.
    rewrite He, Hp.
    replace (fst c' - ec) with (S (fst c' - S ec)) by lia.
    repeat split; lia.
  - destruct IH as (He & Hp & Hle & Hle'). simpl in *.
    rewrite He, Hp.
    replace (snd c' - pc) with (S (snd c' - S pc)) by lia.
    repeat split; lia.
Qed.

End NumberingFacts.

Section StoreProperties.

Import IOpportunityRepository.
Import ArbitrageFacade.

Variable World : Type.
Variable exchangeImplementations : list (string * IExchangeRepository.t World).
Variable config : ArbitrageConfig.t.
Variable opportunityRepository : IOpportunityRepository.t World.
Variables yellow reset red : string.
Variable numberToString : float -> string.

Local Abbreviation run :=
  (ArbitrageFacade.run exchangeImplementations config opportunityRepository
     yellow reset red numberToString).

(** X28.  The announcements of a run are numbered within their category:
    the executable opportunities are announced as number 1, 2, 3 and so
    on in the order in which they are yielded, and the potential ones
    likewise, each as many as were yielded. *)
Theorem announcements_numbered (initialIndex finalIndex : float) (w : World) :
  let steps := fst (fst (run initialIndex finalIndex w)) in
  announcedExecutable steps
  = seq 1 (List.length (filter executable (Trace.yields (generated steps)))) /\
  announcedPotential steps
  = seq 1 (List.length
             (filter (fun o => negb (executable o))
                (Trace.yields (generated steps)))).
Proof.
  destruct (run initialIndex finalIndex w) as [[steps r] w'] eqn:Hrun.
  cbv zeta. cbn [fst].
  destruct (FacadeFacts.run_course _ _ _ _ _ _ _ _ _ _ Hrun)
    as (shown & [(-> & _)|(_ & _ & [(-> & _)|[(-> & _)|Hrest]])]);
    destruct (FacadeFacts.shown_lines shown) as (Hg & _);
    destruct (NumberingFacts.announced_lines shown) as (Hae & Hap).
  - rewrite Hg, Hae, Hap. split; reflexivity.
  - rewrite FacadeFacts.generated_app, Hg.
    destruct (NumberingFacts.announced_app (map shownLine shown)
                [Clear Executable]) as [-> ->].
    rewrite Hae, Hap. split; reflexivity.
  - rewrite FacadeFacts.generated_app, Hg.
    destruct (NumberingFacts.announced_app (map shownLine shown)
                [Clear Executable; Clear Potential]) as [-> ->].
    rewrite Hae, Hap. split; reflexivity.
  - destruct Hrest as (w0 & exchangeData & loop & counts & reached & _ & Hrest).
    cbv zeta in Hrest. destruct Hrest as (Hst & _ & _ & Hsteps).
    destruct (FacadeFacts.Stored_added Hst) as (_ & He & Hp & _).
    destruct (NumberingFacts.Stored_numbered Hst) as (Hne & Hnp & _).
    cbn [fst snd Nat.add] in He, Hp, Hne, Hnp.
    rewrite Nat.sub_0_r in Hne, Hnp. rewrite He in Hne. rewrite Hp in Hnp.
    set (n := List.length
                (ArbitrageService.findSharedPairs config exchangeData)) in *.
    assert (Hshape : exists tail,
               steps = map shownLine shown
                         ++ Clear Executable :: Clear Potential
                         :: SharedPairsFound n :: loop ++ tail /\
               generated tail = [] /\
               announcedExecutable tail = [] /\
               announcedPotential tail = []).
    { destruct Hsteps as [(-> & _)|(_ & _ & -> & _)].
      - exists []. rewrite app_nil_r. repeat split.
      - exists [FinalSummary (fst counts) (snd counts)]. repeat split. }
    destruct Hshape as (tail & -> & Hgt & Het & Hpt).
    rewrite FacadeFacts.generated_app, Hg.
    destruct (NumberingFacts.announced_app (map shownLine shown)
                (Clear Executable :: Clear Potential
                 :: SharedPairsFound n :: loop ++ tail)) as [-> ->].
    rewrite Hae, Hap. cbn [app].
    change (generated
              (Clear Executable :: Clear Potential
               :: SharedPairsFound n :: loop ++ tail))
      with (generated (loop ++ tail)).
    change (announcedExecutable
              (Clear Executable :: Clear Potential
               :: SharedPairsFound n :: loop ++ tail))
      with (announcedExecutable (loop ++ tail)).
    change (announcedPotential
              (Clear Executable :: Clear Potential
               :: SharedPairsFound n :: loop ++ tail))
      with (announcedPotential (loop ++ tail)).
    rewrite FacadeFacts.generated_app, Hgt, app_nil_r.
    destruct (NumberingFacts.announced_app loop tail) as [-> ->].
    rewrite Het, Hpt, !app_nil_r. split; assumption.
Qed.


End StoreProperties.

Section StoreInstances.

Import Scenario.
Import FacadeCases.
Import IOpportunityRepository.
Import ArbitrageFacade.


End StoreInstances.
